(** * RFItoLingq: a shallow embedding of the scrape / upload pipeline

    The development follows the layout of the repository:

    - [Py]: the Python values the program manipulates (strings as sequences
      of code points, insertion-ordered dictionaries, slices, stable sort);
    - [Json]: decoded JSON payloads of the remote API;
    - [Sys]: the file system under [DATA_DIR], the console, the network,
      and the monad in which the effectful code runs;
    - [Utils], [Scraper], [LingqApi], [Main]: one module per source file
      ([src/utils.py], [src/scraper.py], [src/lingq_api.py], [main.py]);
    - the properties, one section per component. *)

From Stdlib Require Import Ascii String DecimalString.
From Stdlib Require Import List ZArith NArith Lia Bool.
From Stdlib Require Import Sorting.Sorted Sorting.Permutation.
Import ListNotations.

Set Implicit Arguments.

(* ===================================================================== *)
(** * Python values *)
(* ===================================================================== *)

Module Py.

(** A [str] is a sequence of Unicode code points. *)
Definition str := list N.

(** String literals of the source, written as Rocq strings (one code point
    per character; the literals used below are ASCII). *)
Definition lit (s : string) : str := map N_of_ascii (list_ascii_of_string s).

Definition eqb (a b : str) : bool :=
  if list_eq_dec N.eq_dec a b then true else false.

Definition in_range (lo hi c : N) : bool := (lo <=? c)%N && (c <=? hi)%N.

(** [[a-zA-Z0-9]] *)
Definition is_alnum (c : N) : bool :=
  in_range 97 122 c || in_range 65 90 c || in_range 48 57 c.

(** [str.isspace] on one character, which is also what [\s] matches in a
    [str] pattern. *)
Definition is_space (c : N) : bool :=
  in_range 9 13 c || in_range 28 32 c || (c =? 133)%N || (c =? 160)%N
  || (c =? 5760)%N || in_range 8192 8202 c || (c =? 8232)%N || (c =? 8233)%N
  || (c =? 8239)%N || (c =? 8287)%N || (c =? 12288)%N.

Definition slash : N := 47.
Definition hyphen : N := 45.
Definition percent : N := 37.
Definition colon : N := 58.
Definition newline : N := 10.
Definition carriage_return : N := 13.
Definition dot : N := 46.
Definition dquote : N := 34.

Fixpoint drop_while (p : N -> bool) (s : str) : str :=
  match s with
  | [] => []
  | c :: s' => if p c then drop_while p s' else s
  end.

Fixpoint take_while (p : N -> bool) (s : str) : str :=
  match s with
  | [] => []
  | c :: s' => if p c then c :: take_while p s' else []
  end.

(** [s.lstrip(chars)], [s.rstrip(chars)], [s.strip(chars)] with the set of
    characters given as a predicate. *)
Definition lstrip_by (p : N -> bool) (s : str) : str := drop_while p s.
Definition rstrip_by (p : N -> bool) (s : str) : str :=
  rev (drop_while p (rev s)).
Definition strip_by (p : N -> bool) (s : str) : str :=
  rstrip_by p (lstrip_by p s).

(** [s.strip()] *)
Definition strip (s : str) : str := strip_by is_space s.

(** [s.split(sep)] for a one-character separator: never empty. *)
Fixpoint split (sep : N) (s : str) : list str :=
  match s with
  | [] => [[]]
  | c :: s' =>
      if (c =? sep)%N then [] :: split sep s'
      else match split sep s' with
           | [] => [[c]]
           | w :: ws => (c :: w) :: ws
           end
  end.

(** [s.split(sep, 1)] when [sep] occurs in [s]: the text before the first
    occurrence and the text after it. *)
Fixpoint split_once (sep : N) (s : str) : option (str * str) :=
  match s with
  | [] => None
  | c :: s' =>
      if (c =? sep)%N then Some ([], s')
      else match split_once sep s' with
           | Some (k, v) => Some (c :: k, v)
           | None => None
           end
  end.

(** [sep.join(parts)] *)
Fixpoint join (sep : str) (parts : list str) : str :=
  match parts with
  | [] => []
  | [p] => p
  | p :: ps => p ++ sep ++ join sep ps
  end.

Fixpoint starts_with (prefix s : str) : bool :=
  match prefix, s with
  | [], _ => true
  | _ :: _, [] => false
  | a :: p', b :: s' => (a =? b)%N && starts_with p' s'
  end.

(** [s[:n]] for [n >= 0] is [firstn n s]; a negative bound counts from the
    end. *)
Definition slice_to {A} (n : Z) (l : list A) : list A :=
  if (0 <=? n)%Z then firstn (Z.to_nat n) l
  else firstn (length l - Z.to_nat (- n)) l.

(** ASCII letters to lower case: what [str.lower] does to a string that is
    then compared with an ASCII literal. *)
Definition lower_ascii (s : str) : str :=
  map (fun c => if in_range 65 90 c then (c + 32)%N else c) s.

(** [a < b] and [a <= b] on strings: lexicographic on code points. *)
Fixpoint str_ltb (a b : str) : bool :=
  match a, b with
  | _, [] => false
  | [], _ :: _ => true
  | x :: a', y :: b' => (x <? y)%N || ((x =? y)%N && str_ltb a' b')
  end.

Definition str_leb (a b : str) : bool := negb (str_ltb b a).

Definition not_dot (c : N) : bool := negb (c =? dot)%N.

(** [pathlib.PurePath(name).suffix]: from the last dot on, when that dot
    is neither the first nor the last character. *)
Definition suffix (name : str) : str :=
  let r := rev name in
  match drop_while not_dot r, take_while not_dot r with
  | _ :: _ :: _, (_ :: _) as ext => dot :: rev ext
  | _, _ => []
  end.

(** Reading in text mode: [\r\n] and [\r] become [\n] (writing leaves
    [\n] as it is on POSIX). *)
Fixpoint universal_newlines (s : str) : str :=
  match s with
  | [] => []
  | c :: s' =>
      if (c =? carriage_return)%N then
        newline :: match s' with
                   | c' :: s'' =>
                       if (c' =? newline)%N then universal_newlines s''
                       else universal_newlines s'
                   | [] => []
                   end
      else c :: universal_newlines s'
  end.

(** A string the UTF-8 codec can write: no surrogate code point. *)
Definition encodable (s : str) : bool :=
  forallb (fun c => ((c <? 55296) || (57343 <? c))%N && (c <=? 1114111)%N) s.

(** [re.sub(p+, r, s)] for a class [p] of characters and a one-character
    replacement: every maximal run of [p] becomes one [r]. *)
Section SubRuns.
Variable p : N -> bool.
Variable r : N.

Fixpoint sub_runs_from (in_run : bool) (s : str) : str :=
  match s with
  | [] => []
  | c :: s' =>
      if p c then
        if in_run then sub_runs_from true s' else r :: sub_runs_from true s'
      else c :: sub_runs_from false s'
  end.

Definition sub_runs (s : str) : str := sub_runs_from false s.
End SubRuns.

(** [str(n)] for an integer. *)
Definition str_of_Z (n : Z) : str := lit (NilZero.string_of_int (Z.to_int n)).

(** [pathlib.PurePosixPath(s).name]: the last component that is neither
    empty nor a single dot. *)
Definition path_name (s : str) : str :=
  last (filter (fun part => negb (Py.eqb part []) && negb (Py.eqb part [dot]))
          (split slash s)) [].

(** Truth value of an optional string: [None] and [""] are false. *)
Definition truthy (o : option str) : bool :=
  match o with
  | Some (_ :: _) => true
  | _ => false
  end.

Definition or_empty (o : option str) : str :=
  match o with
  | Some s => s
  | None => []
  end.

(** ** [urllib.parse.unquote] *)

Definition hexval (c : N) : option N :=
  if in_range 48 57 c then Some (c - 48)%N
  else if in_range 65 70 c then Some (c - 55)%N
  else if in_range 97 102 c then Some (c - 87)%N
  else None.

(** [unquote_to_bytes] on an ASCII string: a [%] followed by two
    hexadecimal digits is one byte, any other [%] stays. *)
Fixpoint unquote_to_bytes (s : str) : list N :=
  match s with
  | [] => []
  | c :: rest =>
      if (c =? percent)%N then
        match rest with
        | a :: b :: rest' =>
            match hexval a, hexval b with
            | Some x, Some y => (16 * x + y)%N :: unquote_to_bytes rest'
            | _, _ => c :: unquote_to_bytes rest
            end
        | _ => c :: unquote_to_bytes rest
        end
      else c :: unquote_to_bytes rest
  end.

Definition replacement : N := 65533.
Definition is_cont (b : N) : bool := in_range 128 191 b.

(** [bytes.decode("utf-8", "replace")]: every maximal ill-formed prefix
    of a sequence becomes one U+FFFD. *)
Fixpoint utf8_decode (bs : list N) : str :=
  match bs with
  | [] => []
  | b0 :: r0 =>
    if (b0 <? 128)%N then b0 :: utf8_decode r0
    else if (b0 <? 194)%N || (244 <? b0)%N then replacement :: utf8_decode r0
    else if (b0 <? 224)%N then
      match r0 with
      | b1 :: r1 =>
          if is_cont b1
          then ((b0 - 192) * 64 + (b1 - 128))%N :: utf8_decode r1
          else replacement :: utf8_decode r0
      | [] => [replacement]
      end
    else if (b0 <? 240)%N then
      match r0 with
      | b1 :: r1 =>
          if in_range (if (b0 =? 224)%N then 160 else 128)
                      (if (b0 =? 237)%N then 159 else 191) b1
          then match r1 with
               | b2 :: r2 =>
                   if is_cont b2
                   then ((b0 - 224) * 4096 + (b1 - 128) * 64 + (b2 - 128))%N
                          :: utf8_decode r2
                   else replacement :: utf8_decode r1
               | [] => [replacement]
               end
          else replacement :: utf8_decode r0
      | [] => [replacement]
      end
    else
      match r0 with
      | b1 :: r1 =>
          if in_range (if (b0 =? 240)%N then 144 else 128)
                      (if (b0 =? 244)%N then 143 else 191) b1
          then match r1 with
               | b2 :: r2 =>
                   if is_cont b2
                   then match r2 with
                        | b3 :: r3 =>
                            if is_cont b3
                            then ((b0 - 240) * 262144 + (b1 - 128) * 4096
                                  + (b2 - 128) * 64 + (b3 - 128))%N
                                   :: utf8_decode r3
                            else replacement :: utf8_decode r2
                        | [] => [replacement]
                        end
                   else replacement :: utf8_decode r1
               | [] => [replacement]
               end
          else replacement :: utf8_decode r0
      | [] => [replacement]
      end
  end.

(** The maximal ASCII runs of the string are percent-decoded and read as
    UTF-8; the characters between them are kept. [run] is the current
    ASCII run, reversed. *)
Fixpoint unquote_runs (run : str) (s : str) : str :=
  match s with
  | [] => utf8_decode (unquote_to_bytes (rev run))
  | c :: s' =>
      if (c <? 128)%N then unquote_runs (c :: run) s'
      else utf8_decode (unquote_to_bytes (rev run)) ++ c :: unquote_runs [] s'
  end.

Definition unquote (s : str) : str :=
  if existsb (N.eqb percent) s then unquote_runs [] s else s.

(** ** Dates *)

(** A [datetime] at midnight, as [strptime] builds them. *)
Record datetime := { year : Z; month : Z; day : Z }.

(** [a < b] on datetimes. *)
Definition dt_ltb (a b : datetime) : bool :=
  (year a <? year b)%Z
  || ((year a =? year b)%Z
      && ((month a <? month b)%Z
          || ((month a =? month b)%Z && (day a <? day b)%Z))).

(** [a >= b] *)
Definition dt_geb (a b : datetime) : bool := negb (dt_ltb a b).

Definition digit (n : Z) : N := Z.to_N (48 + n mod 10).

(** [d.strftime("%Y-%m-%d")] as the C library of Linux prints it: the
    year in decimal without padding (three digits for the year 999), month
    and day with two digits. *)
Definition strftime_ymd (d : datetime) : str :=
  str_of_Z (year d)
  ++ [hyphen; digit (month d / 10); digit (month d); hyphen;
      digit (day d / 10); digit (day d)].

(** ** Sorting *)

Section StableSort.
Variable A : Type.
(** [before x y]: [x] has to stay in front of [y] when [x] came first. *)
Variable before : A -> A -> bool.

Fixpoint insert_sorted (x : A) (l : list A) : list A :=
  match l with
  | [] => [x]
  | y :: l' => if before x y then x :: l else y :: insert_sorted x l'
  end.

(** [sorted(l, key=...)]: stable, elements that compare equal keep their
    order. *)
Fixpoint stable_sort (l : list A) : list A :=
  match l with
  | [] => []
  | x :: l' => insert_sorted x (stable_sort l')
  end.
End StableSort.

(** ** Dictionaries: insertion ordered, as Python's [dict] *)

Section Dict.
Variables K V : Type.
Variable keq : K -> K -> bool.

Definition dict := list (K * V).

Fixpoint dict_get (k : K) (d : dict) : option V :=
  match d with
  | [] => None
  | (k', v) :: d' => if keq k k' then Some v else dict_get k d'
  end.

Definition dict_mem (k : K) (d : dict) : bool :=
  match dict_get k d with Some _ => true | None => false end.

(** [d[k] = v]: an existing key keeps its place (and its key object). *)
Fixpoint dict_set (k : K) (v : V) (d : dict) : dict :=
  match d with
  | [] => [(k, v)]
  | (k', v') :: d' =>
      if keq k k' then (k', v) :: d' else (k', v') :: dict_set k v d'
  end.
End Dict.

End Py.

(* ===================================================================== *)
(** * JSON payloads *)
(* ===================================================================== *)

Module Json.
Import Py.

(** What [resp.json()] returns (numbers without a fractional part). *)
#[local] Unset Elimination Schemes.
Inductive value :=
| Null
| Bool (b : bool)
| Int (z : Z)
| Str (s : str)
| List (l : list value)
| Dict (d : list (str * value)).
#[local] Set Elimination Schemes.

(** Truth value of an object in a condition. *)
Definition truthy (v : value) : bool :=
  match v with
  | Null => false
  | Bool b => b
  | Int z => negb (z =? 0)%Z
  | Str s => match s with [] => false | _ => true end
  | List l => match l with [] => false | _ => true end
  | Dict d => match d with [] => false | _ => true end
  end.

(** [a or b] *)
Definition or_else (a b : value) : value := if truthy a then a else b.

(** Lists and dictionaries cannot be dictionary keys. *)
Definition hashable (v : value) : bool :=
  match v with
  | List _ | Dict _ => false
  | _ => true
  end.

Definition int_of_bool (b : bool) : Z := if b then 1%Z else 0%Z.

(** [a == b] on hashable values: [True == 1] and [False == 0]. *)
Definition key_eqb (a b : value) : bool :=
  match a, b with
  | Null, Null => true
  | Bool x, Bool y => Bool.eqb x y
  | Bool x, Int y | Int y, Bool x => (int_of_bool x =? y)%Z
  | Int x, Int y => (x =? y)%Z
  | Str x, Str y => Py.eqb x y
  | _, _ => false
  end.

(** [key in d] for a decoded JSON object. *)
Definition has_key (k : str) (d : list (str * value)) : bool :=
  dict_mem Py.eqb k d.

(** [d.get(key)] for a decoded JSON object. *)
Definition get (k : str) (d : list (str * value)) : value :=
  match dict_get Py.eqb k d with
  | Some v => v
  | None => Null
  end.

End Json.

(* ===================================================================== *)
(** * The environment: files, console, network *)
(* ===================================================================== *)

Module Sys.
Import Py.

(** ** Exceptions *)

Inductive exn :=
| HTTPError (status : Z)      (* raised by [raise_for_status] *)
| ConnectionError             (* any other [requests.RequestException] *)
| JSONDecodeError
| AttributeError
| TypeError
| ValueError
| FileExistsError
| FileNotFoundError
| NotADirectoryError
| UnicodeDecodeError
| UnicodeEncodeError
| SystemExit (code : Z).

(** [except requests.RequestException] *)
Definition is_RequestException (e : exn) : bool :=
  match e with
  | HTTPError _ | ConnectionError | JSONDecodeError => true
  | _ => false
  end.

(** [except requests.HTTPError] *)
Definition is_HTTPError (e : exn) : bool :=
  match e with
  | HTTPError _ => true
  | _ => false
  end.

(** [except Exception] *)
Definition is_Exception (e : exn) : bool :=
  match e with
  | SystemExit _ => false
  | _ => true
  end.

(** ** Files *)

(** A file holds text (its bytes are the UTF-8 encoding of the string) or
    bytes that are not text. *)
Inductive file :=
| Text (s : str)
| Binary (data : list N).

(** An entry of [DATA_DIR]: a plain file or a directory of files, listed in
    the order [iterdir] yields them. *)
Inductive node :=
| File (f : file)
| Dir (entries : list (str * file)).

(** The content of [DATA_DIR]; [None] when it does not exist. *)
Definition filesystem := option (list (str * node)).

Definition entries_of (fs : filesystem) : list (str * node) :=
  match fs with
  | Some es => es
  | None => []
  end.

Definition lookup_node (name : str) (fs : filesystem) : option node :=
  dict_get Py.eqb name (entries_of fs).

(** [(DATA_DIR / dir / name)] looked up. *)
Definition lookup_file (dir name : str) (fs : filesystem) : option file :=
  match lookup_node dir fs with
  | Some (Dir es) => dict_get Py.eqb name es
  | _ => None
  end.

(** ** Console *)

Inductive message :=
(* main.py *)
| InfoScraping (limit : option Z) (pages : Z)
| ErrorSince
| InfoFound (n : nat)
| Processing (d : datetime) (url : str)
| Process (name : str)
| SkipNoTranscript
| SkipLessonExists (title : str) (id : Json.value)
| SuccessLessonCreated (id : Json.value) (status : str)
| ErrorUploadFailed (e : exn)
| WarnNoEpisodes (date : str)
| InfoToUpload (n : nat)
| InfoCourseHas (n : nat)
| DoneUploaded (ok total : nat)
(* scraper.py *)
| WarnListingPage (page : Z) (e : exn)
| SkipExists (name : str)
| Saved (name : str)
| WarnNoMp3 (url : str)
| WarnNoTranscript (url : str)
| WarnImage (url : str) (e : exn)
(* lingq_api.py *)
| WarnLessonPage (page : Z) (e : exn)
| InfoTimestamps (id : Json.value)
| InfoTimestampsExist (id : Json.value)
| WarnTimestamps (e : exn)
| InfoUpdated (tags : list str) (id : Json.value)
| WarnUpdate (e : exn)
| ErrorApi (status : Z) (text : str).

(** ** Network *)

Inductive request :=
(* [session.get(url, timeout=20)] *)
| Get (url : str)
(* [session.get(url, stream=True, timeout=60)] *)
| GetStream (url : str)
(* [GET /{lang}/collections/{pk}/lessons/?page=..&page_size=50] *)
| ListLessons (lang : str) (collection_pk : Z) (page : Z)
(* [POST /{lang}/lessons/], multipart: form fields, audio and image file *)
| CreateLesson (lang : str) (data : list (str * str))
               (audio image : option str)
(* [PATCH /{lang}/lessons/{id}/] *)
| PatchLesson (lang : str) (id : Json.value) (shelves tags : list str)
(* [POST /{lang}/lessons/{id}/genaudio/] *)
| GenAudio (lang : str) (id : Json.value).

(** An anchor of a listing page whose [href] matches
    [LISTING_EPISODE_REGEX]. *)
Record anchor := {
  href : str;
  (* [urljoin(config.RFI_BASE_URL, href)]; [None] when it raises
     [ValueError], as for an [href] that starts with [//[] *)
  absolute : option str;
  (* [strptime] of the eight digits; [None] when it raises [ValueError] *)
  parsed_date : option datetime
}.

(** The element of class [m-transcription]. *)
Record transcription := {
  (* [p.get_text(" ", strip=True)] of each [p] inside *)
  paragraphs : list str;
  (* [trans.get_text(" ", strip=True)] *)
  full_text : str
}.

(** What the HTML parser finds in a page. *)
Record soup := {
  anchors : list anchor;
  m_transcription : option transcription;
  (* the [content] of the [og:image] meta tag; [Some None]: tag without
     the attribute *)
  og_image : option (option str);
  (* the [src] of the first [img] of the first [figure] *)
  figure_img : option str
}.

(** The views of a response the program reads. *)
Record response := {
  status_code : Z;
  text : str;
  parsed : soup;                 (* [BeautifulSoup(resp.text)] *)
  json : option Json.value;      (* [None]: the body is not JSON *)
  chunks : list (list N);        (* [iter_content] *)
  stream_breaks : bool           (* the stream fails after [chunks] *)
}.

Inductive reply :=
| Unreachable                    (* the request raises *)
| Answer (r : response).

(** ** Events and the world *)

Inductive event :=
| Sent (r : request)
| Printed (m : message).

(** The remote side: its answer to a request may depend on everything
    that happened before. *)
Definition world := list event -> request -> reply.

Record state := { fs : filesystem; trace : list event }.

Definition is_request (e : event) : bool :=
  match e with
  | Sent _ => true
  | Printed _ => false
  end.

(** The requests issued so far, oldest first. *)
Definition requests (t : list event) : list event := filter is_request t.

(** ** The monad of effectful code *)

Inductive result (A : Type) :=
| Ok (a : A)
| Raise (e : exn)
| OutOfFuel.
Arguments Ok {A} a.
Arguments Raise {A} e.
Arguments OutOfFuel {A}.

Definition M (A : Type) := state -> result A * state.

Definition ret {A} (a : A) : M A := fun s => (Ok a, s).

Definition bind {A B} (c : M A) (k : A -> M B) : M B :=
  fun s =>
    match c s with
    | (Ok a, s') => k a s'
    | (Raise e, s') => (Raise e, s')
    | (OutOfFuel, s') => (OutOfFuel, s')
    end.

Definition raise {A} (e : exn) : M A := fun s => (Raise e, s).

(** [try: c  except <handles> as e: h e] *)
Definition try_except {A} (c : M A) (handles : exn -> bool) (h : exn -> M A)
  : M A :=
  fun s =>
    match c s with
    | (Raise e, s') => if handles e then h e s' else (Raise e, s')
    | r => r
    end.

Definition print (m : message) : M unit :=
  fun s => (Ok tt, {| fs := fs s; trace := trace s ++ [Printed m] |}).

Definition send (w : world) (r : request) : M reply :=
  fun s => (Ok (w (trace s) r), {| fs := fs s; trace := trace s ++ [Sent r] |}).

Definition get_fs : M filesystem := fun s => (Ok (fs s), s).

(** ** File operations under [DATA_DIR] *)

(** [(DATA_DIR / name).mkdir(parents=True, exist_ok=True)] *)
Definition mkdir_p (name : str) : M unit :=
  fun s =>
    match lookup_node name (fs s) with
    | Some (Dir _) => (Ok tt, s)
    | Some (File _) => (Raise FileExistsError, s)
    | None =>
        (Ok tt, {| fs := Some (entries_of (fs s) ++ [(name, Dir [])]);
                   trace := trace s |})
    end.

(** [(DATA_DIR / dir / name).exists()] *)
Definition exists_file (dir name : str) : M bool :=
  fun s =>
    (Ok (match lookup_file dir name (fs s) with
         | Some _ => true
         | None => false
         end), s).

(** [open(DATA_DIR / dir / name, "w")] followed by the write of [f]. *)
Definition write_file (dir name : str) (f : file) : M unit :=
  fun s =>
    match lookup_node dir (fs s) with
    | Some (Dir es) =>
        (Ok tt,
         {| fs := Some (dict_set Py.eqb dir (Dir (dict_set Py.eqb name f es))
                          (entries_of (fs s)));
            trace := trace s |})
    | Some (File _) => (Raise NotADirectoryError, s)
    | None => (Raise FileNotFoundError, s)
    end.

(** [path.write_text(data, encoding="utf-8")]: the file is truncated when
    it is opened, before the data are encoded. *)
Definition write_text (dir name : str) (data : str) : M unit :=
  if encodable data then write_file dir name (Text data)
  else bind (write_file dir name (Text [])) (fun _ => raise UnicodeEncodeError).

(** [path.read_text(encoding="utf-8")] *)
Definition read_text (dir name : str) : M str :=
  fun s =>
    match lookup_node dir (fs s) with
    | Some (Dir es) =>
        match dict_get Py.eqb name es with
        | Some (Text t) => (Ok (universal_newlines t), s)
        | Some (Binary _) => (Raise UnicodeDecodeError, s)
        | None => (Raise FileNotFoundError, s)
        end
    | Some (File _) => (Raise NotADirectoryError, s)
    | None => (Raise FileNotFoundError, s)
    end.

(** [list(path.iterdir())] for [DATA_DIR / dir]: the names. *)
Definition iterdir (dir : str) : M (list str) :=
  fun s =>
    match lookup_node dir (fs s) with
    | Some (Dir es) => (Ok (map fst es), s)
    | Some (File _) => (Raise NotADirectoryError, s)
    | None => (Raise FileNotFoundError, s)
    end.

End Sys.

Declare Scope py_scope.
Delimit Scope py_scope with py.
Notation "x <- c ;; k" := (Sys.bind c (fun x => k))
  (at level 61, c at next level, right associativity) : py_scope.
Notation "c ;;; k" := (Sys.bind c (fun _ => k))
  (at level 61, right associativity) : py_scope.

Local Open Scope py_scope.

(* ===================================================================== *)
(** * src/config.py *)
(* ===================================================================== *)

Module Config.
Import Py.

Record t := {
  LINGQ_API_TOKEN : option str;
  LINGQ_LANGUAGE_CODE : str;
  LINGQ_COURSE_ID : Z;
  LINGQ_DEFAULT_TAGS : list str;
  LINGQ_DEFAULT_SHELVES : list str;
  RFI_BASE_URL : str
}.

(** The instance [config], given the two values read from the process
    environment. *)
Definition config (token : option str) (course_id : option Z) : t := {|
  LINGQ_API_TOKEN := token;
  LINGQ_LANGUAGE_CODE := lit "fr";
  LINGQ_COURSE_ID := match course_id with Some n => n | None => 2570591 end;
  LINGQ_DEFAULT_TAGS := [lit "news"; lit "rfi"; lit "JFF"];
  LINGQ_DEFAULT_SHELVES := [lit "news"];
  RFI_BASE_URL :=
    lit "https://francaisfacile.rfi.fr/fr/podcasts/journal-en-fran%C3%A7ais-facile/"
|}.

End Config.

(* ===================================================================== *)
(** * src/utils.py *)
(* ===================================================================== *)

Module Utils.
Import Py Sys.

Definition transcript_txt : str := lit "transcript.txt".
Definition episode_txt : str := lit "episode.txt".
Definition image_jpg : str := lit "image.jpg".

Definition has_file (name : str) (n : node) : bool :=
  match n with
  | Dir es => dict_mem Py.eqb name es
  | File _ => false
  end.

(** The test of the loop body of [find_episodes]. *)
Definition is_episode (e : str * node) : bool :=
  has_file transcript_txt (snd e) && has_file episode_txt (snd e).

Definition name_leb (a b : str * node) : bool := str_leb (fst a) (fst b).

Definition find_episodes : M (list str) :=
  fs <- get_fs ;;
  match fs with
  | None => ret []
  | Some es => ret (map fst (filter is_episode (stable_sort name_leb es)))
  end.

Definition has_colon (line : str) : bool := existsb (N.eqb colon) line.

(** One round of the loop of [parse_episode_meta]. *)
Definition parse_line (meta : dict str str) (line : str) : dict str str :=
  if has_colon line then
    match split_once colon line with
    | Some (key, value) => dict_set Py.eqb (strip key) (strip value) meta
    | None => meta
    end
  else meta.

Definition parse_episode_meta (episode_dir : str) : M (dict str str) :=
  present <- exists_file episode_dir episode_txt ;;
  if negb present then ret []
  else
    content <- read_text episode_dir episode_txt ;;
    ret (fold_left parse_line (split newline content) []).

Definition is_mp3 (name : str) : bool :=
  Py.eqb (lower_ascii (suffix name)) (lit ".mp3").

Definition find_mp3 (episode_dir : str) : M (option str) :=
  names <- iterdir episode_dir ;;
  ret (find is_mp3 names).

End Utils.

(* ===================================================================== *)
(** * src/scraper.py *)
(* ===================================================================== *)

Module Scraper.
Import Py Sys.

(** ** [MP3_REGEX]: [http], an optional [s], [://], one or more characters
    that are neither white space nor a double quote, and [.mp3] *)

Definition url_char (c : N) : bool := negb (is_space c) && negb (c =? dquote)%N.

(** The longest [X ++ ".mp3"] at the start of [r], for a non-empty [X]
    of characters of [r]. *)
Fixpoint greedy_mp3 (r : str) : option str :=
  match r with
  | [] => None
  | c :: r' =>
      match greedy_mp3 r' with
      | Some m => Some (c :: m)
      | None => if starts_with (lit ".mp3") r' then Some (c :: lit ".mp3")
                else None
      end
  end.

(** The text after the scheme: the run of admissible characters, cut at
    the last [.mp3] it holds. *)
Definition match_rest (prefix rest : str) : option str :=
  if starts_with (lit "://") rest then
    match greedy_mp3 (take_while url_char (skipn 3 rest)) with
    | Some m => Some (prefix ++ lit "://" ++ m)
    | None => None
    end
  else None.

(** A match that starts at the first character of [s]. *)
Definition match_mp3_at (s : str) : option str :=
  if starts_with (lit "http") s then
    let rest := skipn 4 s in
    match (if starts_with (lit "s") rest
           then match_rest (lit "https") (skipn 1 rest) else None) with
    | Some m => Some m
    | None => match_rest (lit "http") rest
    end
  else None.

(** [MP3_REGEX.search(html)]: the leftmost match. *)
Fixpoint mp3_search (html : str) : option str :=
  match html with
  | [] => None
  | _ :: html' =>
      match match_mp3_at html with
      | Some m => Some m
      | None => mp3_search html'
      end
  end.

(** ** Pure parts *)

Definition swap (e : str * datetime) : datetime * str := (snd e, fst e).

(** The order of [sorted(..., key=lambda t: t[0], reverse=True)]. *)
Definition newer_first (a b : datetime * str) : bool := dt_geb (fst a) (fst b).

Definition episodes_of (collected : dict str datetime) : list (datetime * str) :=
  stable_sort newer_first (map swap collected).

(** One round of the loop over the anchors: [None] when [urljoin] raises
    [ValueError], which nothing in the function handles. An anchor whose
    date does not parse is skipped before its [href] is joined. *)
Definition add_anchor (found : dict str datetime) (a : anchor)
  : option (dict str datetime) :=
  match parsed_date a with
  | Some date =>
      match absolute a with
      | Some url => Some (dict_set Py.eqb url date found)
      | None => None
      end
  | None => Some found
  end.

Fixpoint add_anchors (l : list anchor) (found : dict str datetime)
  : option (dict str datetime) :=
  match l with
  | [] => Some found
  | a :: rest =>
      match add_anchor found a with
      | Some found' => add_anchors rest found'
      | None => None
      end
  end.

(** [None]: the call raises [ValueError]. *)
Definition find_episode_links (page : soup) : option (list (datetime * str)) :=
  match add_anchors (anchors page) [] with
  | Some found => Some (episodes_of found)
  | None => None
  end.

(** [re.sub(r"\s+", " ", raw).strip()] *)
Definition clean (raw : str) : str := strip (sub_runs is_space 32 raw).

Definition non_empty (s : str) : bool :=
  match s with
  | [] => false
  | _ => true
  end.

Definition extract_transcript (page : soup) : option str :=
  match m_transcription page with
  | None => None
  | Some trans =>
      let paras := filter non_empty (map clean (paragraphs trans)) in
      match paras with
      | _ :: _ => Some (join [newline; newline] paras)
      | [] =>
          let fallback := clean (full_text trans) in
          if non_empty fallback then Some fallback else None
      end
  end.

Definition extract_image_url (page : soup) : option str :=
  match og_image page with
  | Some (Some ((_ :: _) as content)) => Some content
  | _ =>
      match figure_img page with
      | Some ((_ :: _) as src) => Some src
      | _ => None
      end
  end.

Definition not_alnum (c : N) : bool := negb (is_alnum c).

Definition safe_slug_from_url (url : str) : str :=
  let tail := last (split slash (rstrip_by (N.eqb slash) url)) [] in
  let tail := unquote tail in
  let slug := strip_by (N.eqb hyphen) (sub_runs not_alnum hyphen tail) in
  match slug with
  | [] => lit "episode"
  | _ => slug
  end.

(** [range(n)] *)
Definition range (n : Z) : list Z := map Z.of_nat (seq 0 (Z.to_nat n)).

(** [episode.txt] *)
Definition metadata_lines (episode_url : str)
  (mp3_url transcript image_url : option str) : list str :=
  [ lit "url: " ++ episode_url;
    lit "mp3: " ++ or_empty mp3_url;
    lit "transcript: "
      ++ (if truthy transcript then lit "transcript.txt" else []);
    lit "image: " ++ or_empty image_url ].

(** ** Effectful parts *)

Section WithWorld.
Variable w : world.
Variable config : Config.t.

Definition raise_for_status (resp : response) : M unit :=
  if (400 <=? status_code resp)%Z && (status_code resp <? 600)%Z
  then raise (HTTPError (status_code resp))
  else ret tt.

Definition session_get (url : str) : M response :=
  rep <- send w (Get url) ;;
  match rep with
  | Unreachable => raise ConnectionError
  | Answer resp => ret resp
  end.

Definition add_link (collected : dict str datetime) (e : datetime * str)
  : dict str datetime :=
  dict_set Py.eqb (snd e) (fst e) collected.

Definition listing_url (page : Z) : str :=
  if (page =? 0)%Z then Config.RFI_BASE_URL config
  else Config.RFI_BASE_URL config ++ lit "?page=" ++ str_of_Z page.

(** The body of the [try] of one round: the new dictionary and whether
    the loop breaks. *)
Definition listing_round (page : Z) (collected : dict str datetime)
  : M (dict str datetime * bool) :=
  resp <- session_get (listing_url page) ;;
  raise_for_status resp ;;;
  match find_episode_links (parsed resp) with
  | None => raise ValueError
  | Some chunk =>
      let before := length collected in
      let collected' := fold_left add_link chunk collected in
      ret (collected', Nat.eqb (length collected') before)
  end.

Fixpoint listing_loop (pages : list Z) (collected : dict str datetime)
  : M (dict str datetime) :=
  match pages with
  | [] => ret collected
  | page :: rest =>
      r <- try_except (listing_round page collected) is_RequestException
             (fun e => print (WarnListingPage page e) ;;;
                       ret (collected, false)) ;;
      if snd r then ret (fst r) else listing_loop rest (fst r)
  end.

(** The three steps after the loop. *)
Definition select (limit : option Z) (since : option datetime)
  (collected : dict str datetime) : list (datetime * str) :=
  let episodes := episodes_of collected in
  let episodes :=
    match since with
    | Some d => filter (fun item => dt_geb (fst item) d) episodes
    | None => episodes
    end in
  match limit with
  | Some n => if (n =? 0)%Z then episodes else slice_to n episodes
  | None => episodes
  end.

Definition fetch_listing (limit : option Z) (since : option datetime)
  (pages : Z) : M (list (datetime * str)) :=
  collected <- listing_loop (range (Z.max 1 pages)) [] ;;
  ret (select limit since collected).

Definition extract_media (episode_url : str)
  : M (option str * option str * option str) :=
  resp <- session_get episode_url ;;
  raise_for_status resp ;;;
  ret (mp3_search (text resp),
       extract_transcript (parsed resp),
       extract_image_url (parsed resp)).

(** [download_file(url, DATA_DIR / dir / name)] *)
Definition download_file (url dir name : str) : M unit :=
  mkdir_p dir ;;;
  present <- exists_file dir name ;;
  if present then print (SkipExists name)
  else
    rep <- send w (GetStream url) ;;
    match rep with
    | Unreachable => raise ConnectionError
    | Answer resp =>
        raise_for_status resp ;;;
        write_file dir name (Binary (concat (chunks resp))) ;;;
        (if stream_breaks resp then raise ConnectionError else ret tt) ;;;
        print (Saved name)
    end.

Definition process_episode (date : datetime) (episode_url : str)
  (download : bool) : M str :=
  let slug := safe_slug_from_url episode_url in
  let folder := strftime_ymd date ++ [hyphen] ++ slug in
  mkdir_p folder ;;;
  media <- extract_media episode_url ;;
  let '(mp3_url, transcript, image_url) := media in
  (if negb (truthy mp3_url) then print (WarnNoMp3 episode_url)
   else if download
        then download_file (or_empty mp3_url) folder
               (path_name (or_empty mp3_url))
        else ret tt) ;;;
  (if negb (truthy transcript) then print (WarnNoTranscript episode_url)
   else write_text folder Utils.transcript_txt (or_empty transcript)) ;;;
  (if truthy image_url && download
   then try_except
          (download_file (or_empty image_url) folder Utils.image_jpg)
          is_RequestException
          (fun err => print (WarnImage episode_url err))
   else ret tt) ;;;
  write_text folder Utils.episode_txt
    (join [newline] (metadata_lines episode_url mp3_url transcript image_url)) ;;;
  ret folder.

End WithWorld.

End Scraper.

(* ===================================================================== *)
(** * src/lingq_api.py *)
(* ===================================================================== *)

Module LingqApi.
Import Py Sys.

Definition _normalize_collection_list (payload : Json.value) : Json.value :=
  match payload with
  | Json.List _ => payload
  | Json.Dict d =>
      if Json.has_key (lit "data") d
      then Json.or_else (Json.get (lit "data") d) (Json.List [])
      else if Json.has_key (lit "results") d
      then Json.or_else (Json.get (lit "results") d) (Json.List [])
      else Json.List []
  | _ => Json.List []
  end.

(** What [for x in v] iterates over; [None] when [v] is not iterable. *)
Definition iterate (v : Json.value) : option (list Json.value) :=
  match v with
  | Json.List l => Some l
  | Json.Dict d => Some (map (fun e => Json.Str (fst e)) d)
  | Json.Str s => Some (map (fun c => Json.Str [c]) s)
  | _ => None
  end.

(** The title to id mapping under construction. *)
Definition mapping := dict Json.value Json.value.

(** The [for lesson in results] loop: the mapping when the loop ends, and
    the exception that ended it, if any. *)
Fixpoint add_lessons (results : list Json.value) (m : mapping)
  : mapping * option exn :=
  match results with
  | [] => (m, None)
  | Json.Dict d :: rest =>
      let title := Json.get (lit "title") d in
      let pk := Json.or_else (Json.get (lit "id") d) (Json.get (lit "pk") d) in
      if Json.truthy title && Json.truthy pk then
        if Json.hashable title
        then add_lessons rest (dict_set Json.key_eqb title pk m)
        else (m, Some TypeError)
      else add_lessons rest m
  | _ :: _ => (m, Some AttributeError)
  end.

(** How one round of the [while True] loop ends. *)
Inductive outcome :=
| NextPage                (* [page += 1] *)
| Break                   (* one of the [break]s of the [try] block *)
| Caught (e : exn).       (* the [except Exception] clause *)

(** One round, from the response on. *)
Definition lessons_round (resp : response) (m : mapping) : mapping * outcome :=
  if (status_code resp =? 404)%Z then (m, Break)
  else if (400 <=? status_code resp)%Z && (status_code resp <? 600)%Z
  then (m, Caught (HTTPError (status_code resp)))
  else
    match json resp with
    | None => (m, Caught JSONDecodeError)
    | Some data =>
        let results := _normalize_collection_list data in
        if negb (Json.truthy results) then (m, Break)
        else
          match iterate results with
          | None => (m, Caught TypeError)
          | Some lessons =>
              match add_lessons lessons m with
              | (m', Some e) => (m', Caught e)
              | (m', None) =>
                  match data with
                  | Json.Dict d =>
                      if negb (Json.truthy (Json.get (lit "next") d))
                      then (m', Break) else (m', NextPage)
                  | _ => (m', Caught AttributeError)
                  end
              end
          end
    end.

Section WithWorld.
Variable w : world.
Variable config : Config.t.

(** [LingQAPI()] *)
Definition init : M unit :=
  if truthy (Config.LINGQ_API_TOKEN config) then ret tt
  else raise ValueError.

(** The [while True] loop; [fuel] bounds the number of rounds. *)
Fixpoint lessons_loop (fuel : nat) (lang : str) (collection_pk : Z)
  (page : Z) (m : mapping) : M mapping :=
  match fuel with
  | O => fun s => (OutOfFuel, s)
  | S fuel' =>
      rep <- send w (ListLessons lang collection_pk page) ;;
      match rep with
      | Unreachable =>
          print (WarnLessonPage page ConnectionError) ;;; ret m
      | Answer resp =>
          match lessons_round resp m with
          | (m', NextPage) =>
              lessons_loop fuel' lang collection_pk (page + 1) m'
          | (m', Break) => ret m'
          | (m', Caught e) => print (WarnLessonPage page e) ;;; ret m'
          end
      end
  end.

Definition get_collection_lessons (fuel : nat) (lang : str)
  (collection_pk : Z) : M mapping :=
  lessons_loop fuel lang collection_pk 1 [].

Definition raise_for_status := Scraper.raise_for_status.

Definition generate_audio_timestamps (lang : str) (lesson_id : Json.value)
  : M bool :=
  rep <- send w (GenAudio lang lesson_id) ;;
  match rep with
  | Unreachable => raise ConnectionError
  | Answer resp =>
      try_except
        (raise_for_status resp ;;;
         print (InfoTimestamps lesson_id) ;;;
         ret true)
        is_HTTPError
        (fun e =>
           if (status_code resp =? 409)%Z
           then print (InfoTimestampsExist lesson_id) ;;; ret true
           else print (WarnTimestamps e) ;;; ret false)
  end.

Definition update_lesson_metadata (lang : str) (lesson_id : Json.value)
  (shelves tags : list str) : M bool :=
  try_except
    (rep <- send w (PatchLesson lang lesson_id shelves tags) ;;
     match rep with
     | Unreachable => raise ConnectionError
     | Answer resp =>
         raise_for_status resp ;;;
         print (InfoUpdated tags lesson_id) ;;;
         ret true
     end)
    is_Exception
    (fun e => print (WarnUpdate e) ;;; ret false).

Definition mem (x : str) (l : list str) : bool := existsb (Py.eqb x) l.

(** The form fields of [create_lesson]. *)
Definition lesson_fields (lang title text : str) (collection_pk : option Z)
  (status : str) (level : option Z) (tags : list str)
  (original_url : option str) (audio_file external_audio : option str)
  (duration : option Z) : list (str * str) :=
  [ (lit "title", title); (lit "text", text); (lit "status", status);
    (lit "accent", lit "france_french"); (lit "language", lang) ]
  ++ map (fun shelf => (lit "shelves[]", shelf))
       (Config.LINGQ_DEFAULT_SHELVES config)
  ++ match collection_pk with
     | Some pk => if (pk =? 0)%Z then [] else [(lit "collection", str_of_Z pk)]
     | None => []
     end
  ++ match level with
     | Some l => [(lit "level", str_of_Z l)]
     | None => []
     end
  ++ map (fun tag => (lit "tags[]", tag)) tags
  ++ map (fun tag => (lit "tags[]", tag))
       (filter (fun tag => negb (mem tag tags))
          (Config.LINGQ_DEFAULT_TAGS config))
  ++ (if truthy original_url
      then [(lit "original_url", or_empty original_url)] else [])
  ++ match duration with
     | Some d => if (d =? 0)%Z then [] else [(lit "duration", str_of_Z d)]
     | None => []
     end
  ++ match audio_file with
     | Some _ => []
     | None => if truthy external_audio
               then [(lit "external_audio", or_empty external_audio)]
               else []
     end.

(** [open(DATA_DIR / dir / name, "rb")] *)
Definition open_rb (dir : str) (name : option str) : M unit :=
  match name with
  | Some n =>
      present <- exists_file dir n ;;
      if present then ret tt else raise FileNotFoundError
  | None => ret tt
  end.

(** [audio_file] and [image_file] are names inside [episode_dir]. *)
Definition create_lesson (episode_dir : str) (lang title text : str)
  (collection_pk : option Z) (status : str) (level : option Z)
  (tags : list str) (original_url : option str)
  (audio_file external_audio : option str) (duration : option Z)
  (image_file : option str) : M Json.value :=
  let data := lesson_fields lang title text collection_pk status level tags
                original_url audio_file external_audio duration in
  open_rb episode_dir audio_file ;;;
  open_rb episode_dir image_file ;;;
  rep <- send w (CreateLesson lang data audio_file image_file) ;;
  match rep with
  | Unreachable => raise ConnectionError
  | Answer resp =>
      (if (400 <=? status_code resp)%Z
       then print (ErrorApi (status_code resp) (Sys.text resp)) else ret tt) ;;;
      raise_for_status resp ;;;
      match json resp with
      | Some v => ret v
      | None => raise JSONDecodeError
      end
  end.

End WithWorld.

End LingqApi.

(* ===================================================================== *)
(** * main.py *)
(* ===================================================================== *)

Module Main.
Import Py Sys.

(** The parsed command line. [since] holds the result of [strptime] on a
    non-empty [--since]: [Some None] when it raises [ValueError]. *)
Record args := {
  limit : Z;
  pages : Z;
  since : option (option datetime);
  date : option str
}.

(** ["Journal en français facile "] *)
Definition title_prefix : str :=
  lit "Journal en fran" ++ [231%N] ++ lit "ais facile ".

Definition title_of (episode_dir : str) : str :=
  title_prefix ++ firstn 10 episode_dir.

(** [list(set(l))], in the order of the first occurrences (Python leaves
    the order of a set open). *)
Definition unique (l : list str) : list str :=
  fold_left (fun acc x => if LingqApi.mem x acc then acc else acc ++ [x]) l [].

Section WithWorld.
Variable w : world.
Variable config : Config.t.

Fixpoint scrape_all (episodes : list (datetime * str)) : M unit :=
  match episodes with
  | [] => ret tt
  | (date, url) :: rest =>
      print (Processing date url) ;;;
      Scraper.process_episode w date url true ;;;
      scrape_all rest
  end.

Definition cmd_scrape (a : args) : M unit :=
  print (InfoScraping (Some (limit a)) (pages a)) ;;;
  since_date <- match since a with
                | None => ret None
                | Some (Some d) => ret (Some d)
                | Some None => print ErrorSince ;;; raise (SystemExit 1)
                end ;;
  episodes <- Scraper.fetch_listing w config (Some (limit a)) since_date
                (pages a) ;;
  print (InfoFound (length episodes)) ;;;
  scrape_all episodes.

(** The [try] block of [upload_single_episode]. *)
Definition create_and_finish (episode_dir title text original_url : str)
  (status year : str) (mp3_file image_file : option str) : M bool :=
  lesson <- LingqApi.create_lesson w config episode_dir
              (Config.LINGQ_LANGUAGE_CODE config) title text
              (Some (Config.LINGQ_COURSE_ID config)) status (Some 3%Z)
              [year] (Some original_url) mp3_file None None image_file ;;
  lesson_id <- match lesson with
               | Json.Dict d => ret (Json.get (lit "id") d)
               | _ => raise AttributeError
               end ;;
  print (SuccessLessonCreated lesson_id status) ;;;
  (if Json.truthy lesson_id then
     let all_tags := unique (Config.LINGQ_DEFAULT_TAGS config ++ [year]) in
     LingqApi.update_lesson_metadata w (Config.LINGQ_LANGUAGE_CODE config)
       lesson_id (Config.LINGQ_DEFAULT_SHELVES config) all_tags ;;;
     match mp3_file with
     | Some _ =>
         LingqApi.generate_audio_timestamps w
           (Config.LINGQ_LANGUAGE_CODE config) lesson_id ;;; ret tt
     | None => ret tt
     end
   else ret tt) ;;;
  ret true.

Definition upload_single_episode (episode_dir : str)
  (existing_lessons : LingqApi.mapping) : M bool :=
  print (Process episode_dir) ;;;
  present <- exists_file episode_dir Utils.transcript_txt ;;
  if negb present then print SkipNoTranscript ;;; ret false
  else
    meta <- Utils.parse_episode_meta episode_dir ;;
    let original_url :=
      match dict_get Py.eqb (lit "url") meta with
      | Some u => u
      | None => []
      end in
    content <- read_text episode_dir Utils.transcript_txt ;;
    let text := strip content in
    let date_part := firstn 10 episode_dir in
    let title := title_prefix ++ date_part in
    match dict_get Json.key_eqb (Json.Str title) existing_lessons with
    | Some id => print (SkipLessonExists title id) ;;; ret true
    | None =>
        mp3_file <- Utils.find_mp3 episode_dir ;;
        has_image <- exists_file episode_dir Utils.image_jpg ;;
        let image_file := if has_image then Some Utils.image_jpg else None in
        let status :=
          match mp3_file, image_file with
          | Some _, Some _ => lit "shared"
          | _, _ => lit "private"
          end in
        let year := firstn 4 date_part in
        try_except
          (create_and_finish episode_dir title text original_url status year
             mp3_file image_file)
          is_Exception
          (fun e => print (ErrorUploadFailed e) ;;; ret false)
    end.

(** The [for ep in targets] loop with its counter. *)
Fixpoint upload_all (targets : list str) (existing : LingqApi.mapping)
  (success_count : nat) : M nat :=
  match targets with
  | [] => ret success_count
  | ep :: rest =>
      ok <- upload_single_episode ep existing ;;
      upload_all rest existing
        (if ok then S success_count else success_count)
  end.

(** The episodes [cmd_upload] goes through; [None] when [--date] matches
    nothing. *)
Definition select_targets (a : args) (all_episodes : list str)
  : option (list str) :=
  let filtered :=
    if truthy (date a)
    then
      match filter (starts_with (or_empty (date a))) all_episodes with
      | [] => None
      | ts => Some ts
      end
    else Some all_episodes in
  match filtered with
  | None => None
  | Some targets =>
      Some (if (limit a =? 0)%Z then targets else slice_to (limit a) targets)
  end.

Definition cmd_upload (fuel : nat) (a : args) : M unit :=
  LingqApi.init config ;;;
  all_episodes <- Utils.find_episodes ;;
  match select_targets a all_episodes with
  | None => print (WarnNoEpisodes (or_empty (date a)))
  | Some targets =>
      print (InfoToUpload (length targets)) ;;;
      existing <- LingqApi.get_collection_lessons w fuel
                    (Config.LINGQ_LANGUAGE_CODE config)
                    (Config.LINGQ_COURSE_ID config) ;;
      print (InfoCourseHas (length existing)) ;;;
      success_count <- upload_all targets existing 0 ;;
      print (DoneUploaded success_count (length targets))
  end.

Definition cmd_sync (fuel : nat) (a : args) : M unit :=
  cmd_scrape a ;;;
  cmd_upload fuel a.

End WithWorld.

End Main.

Unset Implicit Arguments.

(* ===================================================================== *)
(** * The words of the specification *)
(* ===================================================================== *)

Module Spec.
Import Py.

(** The slug as the specification describes it: the last path segment,
    every run of non-alphanumerics collapsed to one hyphen, the result in
    lower case, and [episode] when nothing is left. *)
Definition slug (url : str) : str :=
  let segment := last (split slash url) [] in
  match lower_ascii (sub_runs Scraper.not_alnum hyphen segment) with
  | [] => lit "episode"
  | s => s
  end.

(** The maximal runs of letters and digits of a string, in order. *)
Fixpoint alnum_words (s : str) : list str :=
  match s with
  | [] => []
  | c :: s' =>
      if is_alnum c then
        match s' with
        | c' :: _ =>
            if is_alnum c' then
              match alnum_words s' with
              | w :: ws => (c :: w) :: ws
              | [] => [[c]]
              end
            else [c] :: alnum_words s'
        | [] => [[c]]
        end
      else alnum_words s'
  end.

(** [sep] does not occur in [s]. *)
Definition no_char (sep : N) (s : str) : Prop :=
  existsb (N.eqb sep) s = false.

(** ** Observations on traces *)

Import Sys.

(** [steps P Q c]: [c] leaves the files alone, every event it adds to the
    trace satisfies [P], it terminates, and an exception it raises
    satisfies [Q]. *)
Definition steps (P : event -> Prop) (Q : exn -> Prop) {A} (c : M A) : Prop :=
  forall s r s',
    c s = (r, s') ->
    fs s' = fs s
    /\ (exists evs, trace s' = trace s ++ evs /\ Forall P evs)
    /\ match r with
       | Ok _ => True
       | Raise e => Q e
       | OutOfFuel => False
       end.

(** The directories [upload_single_episode] was called on, in order: one
    [[PROCESS]] line each. *)
Definition processed (t : list event) : list str :=
  flat_map (fun e => match e with
                     | Printed (Process name) => [name]
                     | _ => []
                     end) t.

(** The lines that report an episode as not uploaded. *)
Definition is_failure (e : event) : bool :=
  match e with
  | Printed SkipNoTranscript | Printed (ErrorUploadFailed _) => true
  | _ => false
  end.

Definition failures (t : list event) : nat := length (filter is_failure t).

(** Neither a [[PROCESS]] line nor the report of a failure. *)
Definition quiet (e : event) : Prop :=
  match e with
  | Printed (Process _) => False
  | _ => is_failure e = false
  end.

(** An exception that [except Exception] handles. *)
Definition catchable (e : exn) : Prop := is_Exception e = true.

(** The two text files of an episode directory can be read. *)
Definition readable (dir : str) (f : filesystem) : Prop :=
  forall data,
    lookup_file dir Utils.transcript_txt f <> Some (Binary data)
    /\ lookup_file dir Utils.episode_txt f <> Some (Binary data).

(** What [cmd_upload] may pick: an episode directory with both text
    files whose name starts with [--date], when that option is given. *)
Definition eligible (a : Main.args) (e : str * node) : bool :=
  Utils.is_episode e
  && (if truthy (Main.date a)
      then starts_with (or_empty (Main.date a)) (fst e) else true).

(** Neither a line feed nor a carriage return occurs in [s]. *)
Definition no_linebreak (s : str) : Prop :=
  no_char newline s /\ no_char carriage_return s.

(** No white space occurs in [s]. *)
Definition no_space (s : str) : Prop :=
  forallb (fun c => negb (is_space c)) s = true.

(** ** The lesson index *)

(** The requests for [n] pages in a row, from page [p] on. *)
Definition page_requests (lang : str) (pk : Z) (p : Z) (n : nat) : list event :=
  map (fun i => Sent (ListLessons lang pk (p + Z.of_nat i))) (seq 0 n).

(** The reply to the request for page [p + n] after [n] rounds that
    started at page [p] with the trace [t]. *)
Definition reply_from (w : world) (t : list event) (lang : str) (pk : Z)
  (p : Z) (n : nat) : reply :=
  w (t ++ page_requests lang pk p n) (ListLessons lang pk (p + Z.of_nat n)).

(** The reply to the request that follows [n] rounds that went on to the
    next page, in a run of [get_collection_lessons] started in [s]. *)
Definition nth_reply (w : world) (s : state) (lang : str) (pk : Z) (n : nat)
  : reply :=
  w (trace s ++ page_requests lang pk 1 n)
    (ListLessons lang pk (1 + Z.of_nat n)).

(** A reply after which the loop does not ask for another page. *)
Definition stops (rep : reply) : bool :=
  match rep with
  | Unreachable => true
  | Answer resp =>
      match snd (LingqApi.lessons_round resp []) with
      | LingqApi.NextPage => false
      | _ => true
      end
  end.

(** A date whose year [strftime] prints with four digits. *)
Definition four_digit_year (d : datetime) : Prop :=
  (1000 <= year d <= 9999 /\ 1 <= month d <= 12 /\ 1 <= day d <= 31)%Z.

(** The name [process_episode] gives the directory of an episode. *)
Definition folder_name (d : datetime) (slug : str) : str :=
  strftime_ymd d ++ [hyphen] ++ slug.

(** ** Observations on the scraper *)


(** The requests for the listing pages [pages], in order. *)
Definition listing_requests (config : Config.t) (pages : list Z) : list event :=
  map (fun p => Sent (Get (Scraper.listing_url config p))) pages.

(** The status test of [raise_for_status]. *)
Definition error_status (resp : response) : bool :=
  (400 <=? status_code resp)%Z && (status_code resp <? 600)%Z.

(** The [[WARN] Failed to fetch listing page] lines of a trace. *)
Definition listing_warnings (t : list event) : list event :=
  filter (fun e => match e with
                   | Printed (WarnListingPage _ _) => true
                   | _ => false
                   end) t.

(** A reply on which [session.get] or [raise_for_status] raises. *)
Definition fails (rep : reply) : bool :=
  match rep with
  | Unreachable => true
  | Answer resp => error_status resp
  end.

(** Every anchor of the page whose date parses has an [href] that
    [urljoin] accepts. *)
Definition joinable (page : soup) : Prop :=
  forall a, In a (anchors page) -> parsed_date a <> None -> absolute a <> None.

(** The characters a slug is made of: ASCII letters, digits, hyphens. *)
Definition slug_char (c : N) : bool := is_alnum c || (c =? hyphen)%N.

(** ** Observations on the files *)

(** [keeps R c]: whatever [c] does and however it ends, the state it
    leaves is related by [R] to the state it started in. *)
Definition keeps (R : state -> state -> Prop) {A : Type} (c : M A) : Prop :=
  forall s, R s (snd (c s)).

(** From [s] to [s'] nothing changed outside the directory [dir], inside
    it only files named in [names] changed, and, when [silent], no
    request was sent. *)
Definition touches (dir : str) (names : list str) (silent : bool)
  (s s' : state) : Prop :=
  (forall d, d <> dir -> lookup_node d (fs s') = lookup_node d (fs s))
  /\ (forall n, ~ In n names ->
        lookup_file dir n (fs s') = lookup_file dir n (fs s))
  /\ (silent = true -> requests (trace s') = requests (trace s)).

(** What [process_episode] does once the page is fetched. *)
Definition after_page (w : world) (episode_url folder : str) (download : bool)
  (media : option str * option str * option str) : M str :=
  let '(mp3_url, transcript, image_url) := media in
  (if negb (truthy mp3_url) then print (WarnNoMp3 episode_url)
   else if download
        then Scraper.download_file w (or_empty mp3_url) folder
               (path_name (or_empty mp3_url))
        else ret tt) ;;;
  (if negb (truthy transcript) then print (WarnNoTranscript episode_url)
   else write_text folder Utils.transcript_txt (or_empty transcript)) ;;;
  (if truthy image_url && download
   then try_except
          (Scraper.download_file w (or_empty image_url) folder Utils.image_jpg)
          is_RequestException
          (fun err => print (WarnImage episode_url err))
   else ret tt) ;;;
  write_text folder Utils.episode_txt
    (join [newline]
       (Scraper.metadata_lines episode_url mp3_url transcript image_url)) ;;;
  ret folder.

(** The file names [process_episode] may write for the audio of a page. *)
Definition audio_names (rep : reply) : list str :=
  match rep with
  | Answer resp =>
      match Scraper.mp3_search (text resp) with
      | Some m => [path_name m]
      | None => []
      end
  | Unreachable => []
  end.

(** ** Observations on the lesson index and the uploads *)

(** An entry the index loop may store: a title and an id that count as
    true, the title usable as a dictionary key. *)
Definition lesson_entry (kv : Json.value * Json.value) : bool :=
  Json.truthy (fst kv) && Json.hashable (fst kv) && Json.truthy (snd kv).

(** No two entries have equal titles. *)
Definition distinct_titles (m : LingqApi.mapping) : Prop :=
  ForallOrdPairs (fun a b => Json.key_eqb (fst a) (fst b) = false) m.

(** The requests one call of [upload_single_episode] may send: none; or
    one request that creates a lesson, followed by nothing, or by the
    metadata update when no audio was attached, or by the metadata update
    and the timestamp request for the same lesson when audio was
    attached. *)
Definition upload_shape (lang : str) (l : list event) : Prop :=
  match l with
  | [] => True
  | Sent (CreateLesson lg _ audio _) :: post =>
      lg = lang
      /\ match post with
         | [] => True
         | [Sent (PatchLesson lg1 _ _ _)] => lg1 = lang /\ audio = None
         | [Sent (PatchLesson lg1 id _ _); Sent (GenAudio lg2 id')] =>
             lg1 = lang /\ lg2 = lang /\ id' = id /\ audio <> None
         | _ => False
         end
  | _ => False
  end.

(** A request that creates a lesson. *)
Definition is_create (e : event) : bool :=
  match e with
  | Sent (CreateLesson _ _ _ _) => true
  | _ => false
  end.

(** The number of requests that create a lesson. *)
Definition creates (t : list event) : nat := length (filter is_create t).

(** A directory [upload_single_episode] will try to upload: it has a
    transcript that is text, its [episode.txt] (if any) is text, and its
    title is not in the lesson index. *)
Definition uploadable (dir : str) (existing : LingqApi.mapping)
  (f : filesystem) : Prop :=
  (exists t, lookup_file dir Utils.transcript_txt f = Some (Text t))
  /\ (forall data, lookup_file dir Utils.episode_txt f <> Some (Binary data))
  /\ dict_get Json.key_eqb (Json.Str (Main.title_of dir)) existing = None.

(** A file name that [find_mp3] accepts: something, then an extension
    that reads [.mp3] in any mix of cases. *)
Definition mp3_name (name : str) : Prop :=
  exists stem ext,
    name = stem ++ ext /\ stem <> [] /\ lower_ascii ext = lit ".mp3".

(** The values a form sends under the key [key], in order. *)
Definition values_of (key : str) (data : list (str * str)) : list str :=
  map snd (filter (fun kv => Py.eqb (fst kv) key) data).

End Spec.

(* ===================================================================== *)
(** * Concrete worlds and directories used in the examples *)
(* ===================================================================== *)

Module Examples.
Import Py Sys.

(** No request gets an answer. *)
Definition offline : world := fun _ _ => Unreachable.

Definition cfg : Config.t := Config.config (Some (lit "secret")) None.

Definition dir_0315 : str := lit "2024-03-15-journal".

Definition meta_0315 : str :=
  join [newline]
    [lit "url: https://francaisfacile.rfi.fr/fr/podcasts/20240315-journal";
     lit "mp3: "; lit "transcript: "; lit "image: "].

(** An episode directory with its metadata record only. *)
Definition no_transcript : state :=
  {| fs := Some [(dir_0315, Dir [(Utils.episode_txt, Text meta_0315)])];
     trace := [] |}.

(** The same directory with a transcript. *)
Definition with_transcript : state :=
  {| fs := Some [(dir_0315,
                  Dir [(Utils.episode_txt, Text meta_0315);
                       (Utils.transcript_txt, Text (lit "Bonjour."))])];
     trace := [] |}.

(** A remote index that already has the lesson of 15 March 2024. *)
Definition known : LingqApi.mapping :=
  [(Json.Str (Main.title_of dir_0315), Json.Int 42)].

Definition no_soup : soup :=
  {| anchors := []; m_transcription := None; og_image := None;
     figure_img := None |}.


(** Every request is answered with the same three bytes, in two chunks. *)
Definition media_server : world :=
  fun _ _ =>
    Answer {| status_code := 200; text := []; parsed := no_soup;
              json := None; chunks := [[73; 68]; [51]]%N;
              stream_breaks := false |}.

Definition empty_disk : state := {| fs := None; trace := [] |}.

Definition audio_url : str :=
  lit "https://aod-fle.akamaized.net/rfi/journal_20240315.mp3".

Definition audio_name : str := lit "journal_20240315.mp3".

(** The directory of 15 March 2024 with its audio file. *)
Definition with_audio : state :=
  {| fs := Some [(dir_0315, Dir [(audio_name, Binary [73; 68; 51]%N)])];
     trace := [] |}.

Definition march (d : Z) : datetime := {| year := 2024; month := 3; day := d |}.

Definition episode_url (d : Z) : str :=
  lit "https://francaisfacile.rfi.fr/fr/podcasts/journal-en-fran%C3%A7ais-facile/202403"
  ++ str_of_Z d ++ lit "-journal".

Definition link (d : Z) : anchor :=
  {| href := lit "/fr/podcasts/journal-en-fran%C3%A7ais-facile/202403"
             ++ str_of_Z d ++ lit "-journal";
     absolute := Some (episode_url d);
     parsed_date := Some (march d) |}.

Definition listing_page (days : list Z) : reply :=
  Answer {| status_code := 200; text := [];
            parsed := {| anchors := map link days; m_transcription := None;
                         og_image := None; figure_img := None |};
            json := None; chunks := []; stream_breaks := false |}.

(** A site with two listing pages: the second one repeats the last link of
    the first; every later page repeats the second. *)
Definition listing_server : world :=
  fun _ r =>
    match r with
    | Get url =>
        if Py.eqb url (Config.RFI_BASE_URL cfg)
        then listing_page [15; 14; 13]%Z
        else listing_page [13; 12]%Z
    | _ => Unreachable
    end.


(** Three complete episode directories, listed in no particular order. *)
Definition episode_dir (content : str) : node :=
  Dir [(Utils.transcript_txt, Text content);
       (Utils.episode_txt, Text meta_0315)].

Definition three_days : state :=
  {| fs := Some [(lit "2024-03-15-journal", episode_dir (lit "Vendredi."));
                 (lit "2024-03-13-journal", episode_dir (lit "Mercredi."));
                 (lit "2024-03-14-journal", episode_dir (lit "Jeudi."))];
     trace := [] |}.

Definition upload_two : Main.args :=
  {| Main.limit := 2; Main.pages := 3; Main.since := None;
     Main.date := None |}.

(** The page of an episode with audio, transcript and cover image. *)
Definition episode_page : response :=
  {| status_code := 200;
     text := lit "<audio src=" ++ [dquote] ++ audio_url ++ [dquote] ++ lit ">";
     parsed := {| anchors := [];
                  m_transcription :=
                    Some {| paragraphs := [lit "Bonjour  a tous."; lit " ";
                                           lit "Voici le journal."];
                            full_text := lit "Bonjour a tous. Voici le journal." |};
                  og_image := Some (Some (lit "https://img.rfi.fr/a.jpg"));
                  figure_img := None |};
     json := None; chunks := [[73; 68]; [51]]%N; stream_breaks := false |}.

Definition episode_site : world := fun _ _ => Answer episode_page.

(** A page whose [og:image] content runs over two lines. *)
Definition two_line_image : str :=
  lit "https://img.rfi.fr/a.jpg" ++ [newline]
  ++ lit "url: https://example.org/other".

Definition two_line_page : response :=
  {| status_code := 200; text := [];
     parsed := {| anchors := []; m_transcription := None;
                  og_image := Some (Some two_line_image);
                  figure_img := None |};
     json := None; chunks := []; stream_breaks := false |}.

Definition two_line_site : world := fun _ _ => Answer two_line_page.

Definition folder_0315 : str := lit "2024-03-15-20240315-journal".

(** A server that answers every page request with one lesson and a
    pointer to a next page, in the [results] envelope. *)
Definition endless_page : response :=
  {| status_code := 200; text := []; parsed := no_soup;
     json := Some (Json.Dict
                     [(lit "results",
                       Json.List [Json.Dict [(lit "title", Json.Str (lit "Journal"));
                                             (lit "id", Json.Int 7)]]);
                      (lit "next", Json.Str (lit "more"))]);
     chunks := []; stream_breaks := false |}.

Definition endless : world := fun _ _ => Answer endless_page.

(** A lesson list given as a bare list, in the [data] envelope and in the
    [results] envelope. *)
Definition lesson (title : string) (id : Z) : Json.value :=
  Json.Dict [(lit "title", Json.Str (lit title)); (lit "id", Json.Int id)].

Definition json_page (v : Json.value) : reply :=
  Answer {| status_code := 200; text := []; parsed := no_soup;
            json := Some v; chunks := []; stream_breaks := false |}.

(** A course of three pages: the first two point to a next page, the
    third one does not. *)
Definition three_pages : world :=
  fun _ r =>
    match r with
    | ListLessons _ _ 1 =>
        json_page (Json.Dict [(lit "data", Json.List [lesson "a" 1]);
                              (lit "next", Json.Int 2)])
    | ListLessons _ _ 2 =>
        json_page (Json.Dict [(lit "results", Json.List [lesson "b" 2]);
                              (lit "next", Json.Str (lit "?page=3"))])
    | ListLessons _ _ _ =>
        json_page (Json.Dict [(lit "results", Json.List [lesson "c" 3]);
                              (lit "next", Json.Null)])
    | _ => Unreachable
    end.


(** A server whose streams break after the first two bytes. *)
Definition broken_stream : world :=
  fun _ _ =>
    Answer {| status_code := 200; text := []; parsed := no_soup;
              json := None; chunks := [[73; 68]]%N;
              stream_breaks := true |}.

(** Two episode directories of the same day. *)
Definition same_day : state :=
  {| fs := Some [(lit "2024-03-15-journal", episode_dir (lit "Matin."));
                 (lit "2024-03-15-journal-bis", episode_dir (lit "Soir."))];
     trace := [] |}.



(** 2 January 999, as [strptime] reads [09990102]. *)
Definition year_999 : datetime := {| year := 999; month := 1; day := 2 |}.

(** Two complete episode directories, named as [process_episode] names
    them, one of 2 January 999 and one of 15 March 2024. *)
Definition short_year : state :=
  {| fs := Some [(Spec.folder_name year_999 (lit "journal"),
                  episode_dir (lit "Autrefois."));
                 (Spec.folder_name (march 15) (lit "journal"),
                  episode_dir (lit "Vendredi."))];
     trace := [] |}.

(** A server that answers every request with the record of a new
    lesson, [{"id": 7}]. *)
Definition lesson_created : world :=
  fun _ _ => json_page (Json.Dict [(lit "id", Json.Int 7)]).

End Examples.

(* ===================================================================== *)
(** * Properties: strings *)
(* ===================================================================== *)

Section StringFacts.
Import Py Spec.

Lemma eqb_true_iff (a b : str) : Py.eqb a b = true <-> a = b.
Proof.
  unfold Py.eqb. destruct (list_eq_dec N.eq_dec a b); split; congruence.
Qed.

Lemma eqb_refl (a : str) : Py.eqb a a = true.
Proof. now apply eqb_true_iff. Qed.

Lemma eqb_false_iff (a b : str) : Py.eqb a b = false <-> a <> b.
Proof.
  unfold Py.eqb. destruct (list_eq_dec N.eq_dec a b); split; congruence.
Qed.

Lemma drop_while_snoc p (s : str) (c : N) :
  drop_while p (s ++ [c]) =
  if forallb p s then (if p c then [] else [c]) else drop_while p s ++ [c].
Proof.
  induction s as [|x s IH]; simpl; [reflexivity|].
  destruct (p x); simpl; [exact IH|reflexivity].
Qed.

Lemma drop_while_nil_iff p (s : str) :
  drop_while p s = [] <-> forallb p s = true.
Proof.
  induction s as [|x s IH]; simpl; [tauto|].
  destruct (p x); simpl; [exact IH|]. split; discriminate.
Qed.

(** [rstrip] read from the left. *)
Lemma rstrip_by_cons p (c : N) (s : str) :
  rstrip_by p (c :: s) =
  match rstrip_by p s with
  | [] => if p c then [] else [c]
  | r => c :: r
  end.
Proof.
  unfold rstrip_by. simpl. rewrite drop_while_snoc.
  destruct (forallb p (rev s)) eqn:E.
  - apply drop_while_nil_iff in E. rewrite E. simpl.
    destruct (p c); reflexivity.
  - destruct (drop_while p (rev s)) as [|y l] eqn:D.
    + apply drop_while_nil_iff in D. congruence.
    + rewrite rev_app_distr. simpl.
      destruct (rev l ++ [y]) eqn:R; [now destruct (rev l)|reflexivity].
Qed.

Lemma rstrip_by_nil p : rstrip_by p [] = [].
Proof. reflexivity. Qed.

(** What [rstrip] removes: a suffix of stripped characters, and what is
    left does not end with one. *)
Lemma rstrip_by_spec p (s : str) :
  exists suffix,
    s = rstrip_by p s ++ suffix /\ forallb p suffix = true /\
    (rstrip_by p s = [] \/
     exists r c, rstrip_by p s = r ++ [c] /\ p c = false).
Proof.
  induction s as [|c s (suffix & Hs & Hp & Hl)].
  - exists []. repeat split; auto.
  - rewrite rstrip_by_cons. destruct (rstrip_by p s) as [|y r] eqn:R.
    + destruct (p c) eqn:Pc.
      * exists (c :: suffix). simpl in *. rewrite Pc, Hp. subst s. auto.
      * exists suffix. simpl in *. subst s. repeat split; auto.
        right. exists [], c. auto.
    + exists suffix. simpl. rewrite Hs at 1. repeat split; auto.
      right. destruct Hl as [Hl|(r' & c' & Hr & Hc)]; [discriminate|].
      exists (c :: r'), c'. rewrite Hr. auto.
Qed.

Lemma split_not_nil sep (s : str) : split sep s <> [].
Proof.
  destruct s as [|c s]; simpl; [discriminate|].
  destruct (c =? sep)%N; [discriminate|].
  destruct (split sep s); discriminate.
Qed.

(** The last element of [split]: either the whole string, free of the
    separator, or what follows the last separator. *)

Lemma split_last sep (s : str) :
  (split sep s = [s] /\ no_char sep s) \/
  (exists p, s = p ++ [sep] ++ last (split sep s) [] /\
             no_char sep (last (split sep s) []) /\
             exists w w' ws, split sep s = w :: w' :: ws).
Proof.
  unfold no_char. induction s as [|c s IH]; simpl.
  - left. auto.
  - destruct (N.eqb_spec c sep) as [->|Hne].
    + right. pose proof (split_not_nil sep s) as Hnn.
      destruct (split sep s) as [|w ws] eqn:S; [congruence|].
      destruct IH as [[E Hno]|(p & E & Hno & _)].
      * exists []. inversion E; subst. simpl. repeat split; eauto.
      * exists (sep :: p). simpl. rewrite E at 1. repeat split; eauto.
    + destruct IH as [[E Hno]|(p & E & Hno & (w & w' & ws & S))].
      * left. rewrite E. split; [reflexivity|].
        rewrite Hno. rewrite (proj2 (N.eqb_neq sep c)); auto.
      * right. rewrite S in *. exists (c :: p). simpl in *.
        rewrite E at 1. repeat split; eauto.
Qed.

End StringFacts.

(* ===================================================================== *)
(** * Properties: the slug *)
(* ===================================================================== *)

Section Slug.
Import Py Scraper Spec.
#[local] Arguments N.eqb : simpl never.

Lemma alnum_not_hyphen c : is_alnum c = true -> (hyphen =? c)%N = false.
Proof.
  unfold is_alnum, in_range, hyphen. intros H. apply N.eqb_neq. intros <-.
  discriminate.
Qed.

Lemma not_alnum_false c : is_alnum c = true -> not_alnum c = false.
Proof. unfold not_alnum. now intros ->. Qed.

Lemma not_alnum_true c : is_alnum c = false -> not_alnum c = true.
Proof. unfold not_alnum. now intros ->. Qed.

(** After a run, the text continues with a letter or a digit. *)
Lemma sub_runs_true_head (t : str) :
  match sub_runs_from not_alnum hyphen true t with
  | [] => True
  | c :: _ => is_alnum c = true
  end.
Proof.
  induction t as [|c t IH]; simpl; [exact I|].
  destruct (is_alnum c) eqn:A.
  - now rewrite (not_alnum_false _ A).
  - now rewrite (not_alnum_true _ A).
Qed.

Lemma lstrip_sub_runs (t : str) :
  lstrip_by (N.eqb hyphen) (sub_runs not_alnum hyphen t)
  = sub_runs_from not_alnum hyphen true t.
Proof.
  unfold sub_runs, lstrip_by. destruct t as [|c t]; simpl; [reflexivity|].
  destruct (is_alnum c) eqn:A.
  - rewrite (not_alnum_false _ A). simpl.
    now rewrite (alnum_not_hyphen _ A).
  - rewrite (not_alnum_true _ A). simpl.
    pose proof (sub_runs_true_head t) as H.
    destruct (sub_runs_from not_alnum hyphen true t) as [|x l]; simpl; auto.
    now rewrite (alnum_not_hyphen _ H).
Qed.

Lemma join_cons_head sep (c : N) (w : str) (ws : list str) :
  join sep ((c :: w) :: ws) = c :: join sep (w :: ws).
Proof. destruct ws; reflexivity. Qed.

(** Words are never empty, and the first one starts where the string
    starts when that is a letter or a digit. *)
Lemma alnum_words_head (c : N) (t : str) :
  is_alnum c = true ->
  exists w ws, alnum_words (c :: t) = (c :: w) :: ws.
Proof.
  revert c. induction t as [|c' t IH]; intros c A; simpl; rewrite A.
  - eauto.
  - destruct (is_alnum c') eqn:A'.
    + destruct (IH c' A') as (w & ws & E). simpl in E. rewrite A' in E.
      rewrite E. eauto.
    + eauto.
Qed.

Lemma alnum_words_nonempty (t : str) : Forall (fun w => w <> []) (alnum_words t).
Proof.
  induction t as [|c t IH]; simpl; [constructor|].
  destruct (is_alnum c) eqn:A; [|exact IH].
  destruct t as [|c' t]; [repeat constructor; discriminate|].
  destruct (is_alnum c') eqn:A'.
  - destruct (alnum_words (c' :: t)) as [|w ws].
    + repeat constructor; discriminate.
    + inversion IH; subst. constructor; [discriminate|assumption].
  - constructor; [discriminate|assumption].
Qed.

Lemma join_nil_iff sep (ws : list str) :
  Forall (fun w => w <> []) ws -> join sep ws = [] -> ws = [].
Proof.
  intros H E. destruct H as [|w ws Hw Hws]; [reflexivity|].
  exfalso. destruct w; [congruence|]. destruct ws; discriminate.
Qed.

(** The right strip of the substituted text, in both states of the scan. *)
Lemma rstrip_sub_runs (t : str) :
  rstrip_by (N.eqb hyphen) (sub_runs_from not_alnum hyphen true t)
  = join [hyphen] (alnum_words t)
  /\ rstrip_by (N.eqb hyphen) (sub_runs_from not_alnum hyphen false t)
     = match t with
       | [] => []
       | c :: _ =>
           if is_alnum c then join [hyphen] (alnum_words t)
           else match alnum_words t with
                | [] => []
                | ws => hyphen :: join [hyphen] ws
                end
       end.
Proof.
  induction t as [|c t [IHt IHf]]; [split; reflexivity|].
  assert (Halnum : is_alnum c = true ->
     rstrip_by (N.eqb hyphen) (c :: sub_runs_from not_alnum hyphen false t)
     = join [hyphen] (alnum_words (c :: t))).
  { intros A. rewrite rstrip_by_cons, IHf, (alnum_not_hyphen _ A).
    simpl alnum_words. rewrite A.
    destruct t as [|c' t]; [reflexivity|].
    destruct (is_alnum c') eqn:A'.
    - destruct (alnum_words_head _ t A') as (w & ws & E). rewrite E.
      rewrite !join_cons_head. reflexivity.
    - pose proof (alnum_words_nonempty (c' :: t)) as NE.
      destruct (alnum_words (c' :: t)) as [|w ws]; reflexivity. }
  simpl sub_runs_from.
  destruct (is_alnum c) eqn:A.
  - rewrite (not_alnum_false _ A). split; auto.
  - rewrite (not_alnum_true _ A).
    assert (W : alnum_words (c :: t) = alnum_words t)
      by (simpl; now rewrite A).
    split.
    + rewrite IHt, W. reflexivity.
    + rewrite rstrip_by_cons, IHt, W, N.eqb_refl.
      pose proof (alnum_words_nonempty t) as NE.
      destruct (join [hyphen] (alnum_words t)) eqn:J.
      * now rewrite (join_nil_iff _ _ NE J).
      * destruct (alnum_words t); [discriminate|now rewrite J].
Qed.

Lemma strip_sub_runs (t : str) :
  strip_by (N.eqb hyphen) (sub_runs not_alnum hyphen t)
  = join [hyphen] (alnum_words t).
Proof.
  unfold strip_by. rewrite lstrip_sub_runs. apply rstrip_sub_runs.
Qed.

Lemma alnum_words_all (t : str) :
  t <> [] -> forallb is_alnum t = true -> alnum_words t = [t].
Proof.
  induction t as [|c t IH]; [congruence|]. intros _ H. simpl in H.
  apply andb_true_iff in H as [A H]. simpl. rewrite A.
  destruct t as [|c' t]; [reflexivity|].
  assert (A' : is_alnum c' = true) by (simpl in H; now apply andb_true_iff in H).
  rewrite A', IH; auto. discriminate.
Qed.

Lemma alnum_not_percent (t : str) :
  forallb is_alnum t = true -> existsb (N.eqb percent) t = false.
Proof.
  induction t as [|c t IH]; simpl; [reflexivity|]. intros H.
  apply andb_true_iff in H as [A H]. rewrite (IH H), orb_false_r.
  apply N.eqb_neq. intros <-. discriminate.
Qed.

(** C2, as the claim states it, fails: the slug keeps the case of the
    letters of the URL. On this URL the code answers [20240315-Journal],
    the claim [20240315-journal]. *)
Lemma C2_slug_keeps_upper_case :
  let url := lit "https://francaisfacile.rfi.fr/fr/podcasts/20240315-Journal" in
  safe_slug_from_url url = lit "20240315-Journal"
  /\ Spec.slug url = lit "20240315-journal"
  /\ safe_slug_from_url url <> Spec.slug url.
Proof. vm_compute. repeat split; discriminate. Qed.

(** C2, amended: the URL is cut into what precedes the last segment, the
    segment and trailing slashes; the slug is made of the maximal runs of
    ASCII letters and digits of the percent-decoded segment, in order and
    in their original case, joined by single hyphens (so it neither starts
    nor ends with a hyphen), and it is [episode] when there is no such
    run. A segment of letters and digits only is its own slug. *)
Theorem C2_safe_slug_from_url (url : str) :
  exists pre tail slashes,
    url = pre ++ tail ++ slashes
    /\ forallb (N.eqb slash) slashes = true
    /\ no_char slash tail
    /\ (pre = [] \/ exists p, pre = p ++ [slash])
    /\ (tail = [] -> pre = [])
    /\ safe_slug_from_url url
       = match alnum_words (unquote tail) with
         | [] => lit "episode"
         | ws => join [hyphen] ws
         end
    /\ (tail <> [] -> forallb is_alnum tail = true ->
        safe_slug_from_url url = tail).
Proof.
  destruct (rstrip_by_spec (N.eqb slash) url) as (slashes & Hu & Hs & Hr).
  set (r := rstrip_by (N.eqb slash) url) in *.
  assert (Hslug : safe_slug_from_url url
       = match alnum_words (unquote (last (split slash r) [])) with
         | [] => lit "episode"
         | ws => join [hyphen] ws
         end).
  { unfold safe_slug_from_url. fold r. rewrite strip_sub_runs.
    pose proof (alnum_words_nonempty (unquote (last (split slash r) []))) as NE.
    destruct (alnum_words (unquote (last (split slash r) []))) as [|w ws] eqn:W;
      [reflexivity|].
    destruct (join [hyphen] (w :: ws)) eqn:J; [|reflexivity].
    now apply join_nil_iff in J. }
  assert (Hall : forall tail, tail = last (split slash r) [] ->
            tail <> [] -> forallb is_alnum tail = true ->
            safe_slug_from_url url = tail).
  { intros tail -> Hne Hal. rewrite Hslug. unfold unquote.
    rewrite (alnum_not_percent _ Hal), (alnum_words_all _ Hne Hal).
    reflexivity. }
  destruct (split_last slash r) as [[E Hno]|(p & E & Hno & _)].
  - exists [], r, slashes. rewrite E in Hslug, Hall. simpl in Hslug, Hall.
    repeat split; auto.
  - exists (p ++ [slash]), (last (split slash r) []), slashes.
    repeat split; auto.
    + rewrite Hu at 1. rewrite E at 1. now rewrite <- !app_assoc.
    + right. eauto.
    + intros Ht. exfalso. rewrite Ht, app_nil_r in E.
      destruct Hr as [Hr|(r' & c & Hr & Hc)].
      * rewrite Hr in E. now destruct p.
      * rewrite Hr in E. simpl in E. apply app_inj_tail in E as [_ ->].
        discriminate.
Qed.

End Slug.

(* ===================================================================== *)
(** * Properties: uploading one episode *)
(* ===================================================================== *)

(** Runs the monadic glue of the goal, leaving the program's own functions
    folded. *)
Ltac mrun :=
  cbv [Sys.bind Sys.ret Sys.raise Sys.print Sys.send Sys.get_fs
       Sys.exists_file Sys.try_except];
  cbn [Sys.fs Sys.trace fst snd negb].

Section UploadOne.
Import Py Sys Utils Main.

Lemma lookup_file_Some dir name fs f :
  lookup_file dir name fs = Some f ->
  exists es, lookup_node dir fs = Some (Dir es)
             /\ dict_get Py.eqb name es = Some f.
Proof.
  unfold lookup_file. destruct (lookup_node dir fs) as [[|es]|]; try discriminate.
  eauto.
Qed.

Lemma requests_app (t u : list event) :
  requests (t ++ u) = requests t ++ requests u.
Proof. apply filter_app. Qed.

Lemma read_text_ok dir name content s :
  lookup_file dir name (fs s) = Some (Text content) ->
  read_text dir name s = (Ok (universal_newlines content), s).
Proof.
  intros H. apply lookup_file_Some in H as (es & Hn & Hg).
  unfold read_text. now rewrite Hn, Hg.
Qed.

(** [parse_episode_meta] only fails on an [episode.txt] that is not
    text. *)
Lemma parse_episode_meta_ok dir s :
  (forall data, lookup_file dir episode_txt (fs s) <> Some (Binary data)) ->
  exists meta, parse_episode_meta dir s = (Ok meta, s).
Proof.
  intros H. unfold parse_episode_meta. mrun.
  destruct (lookup_file dir episode_txt (fs s)) as [[t|data]|] eqn:E; mrun.
  - rewrite (read_text_ok _ _ _ _ E). eauto.
  - now destruct (H data).
  - eauto.
Qed.

Variable w : world.
Variable config : Config.t.

(** C1, amended: when [transcript.txt] is missing the call sends nothing,
    leaves the files alone, prints the two lines of the skip and returns
    [False], which [cmd_upload] does not count as a success. *)
Theorem C1_missing_transcript (episode_dir : str)
  (existing : LingqApi.mapping) (s : state) :
  lookup_file episode_dir transcript_txt (fs s) = None ->
  exists s',
    upload_single_episode w config episode_dir existing s = (Ok false, s')
    /\ fs s' = fs s
    /\ trace s' = trace s ++ [Printed (Process episode_dir);
                              Printed SkipNoTranscript]
    /\ requests (trace s') = requests (trace s)
    /\ forall n, fst (upload_all w config [episode_dir] existing n s) = Ok n.
Proof.
  intros H.
  assert (E : upload_single_episode w config episode_dir existing s
      = (Ok false,
         {| fs := fs s;
            trace := trace s ++ [Printed (Process episode_dir);
                                 Printed SkipNoTranscript] |})).
  { unfold upload_single_episode. mrun. rewrite H. mrun.
    now rewrite <- app_assoc. }
  eexists. split; [exact E|]. simpl. repeat split.
  - rewrite requests_app. simpl. apply app_nil_r.
  - intros n. unfold upload_all, bind. rewrite E. reflexivity.
Qed.


End UploadOne.

Section UploadOneExamples.
Import Py Sys Utils Main Examples.

Lemma C1_missing_transcript_witness :
  lookup_file dir_0315 transcript_txt (fs no_transcript) = None
  /\ exists s',
       upload_single_episode offline cfg dir_0315 known no_transcript
       = (Ok false, s')
       /\ fs s' = fs no_transcript
       /\ trace s' = trace no_transcript ++ [Printed (Process dir_0315);
                                             Printed SkipNoTranscript]
       /\ requests (trace s') = requests (trace no_transcript)
       /\ forall n,
            fst (upload_all offline cfg [dir_0315] known n no_transcript)
            = Ok n.
Proof.
  split; [reflexivity|].
  apply (C1_missing_transcript offline cfg dir_0315 known no_transcript).
  reflexivity.
Defined.

(** C1, as the claim states it, fails: without [transcript.txt] the call
    returns [False], and the loop of [cmd_upload] leaves its counter of
    successes at 0. *)
Lemma C1_skip_returns_false :
  lookup_file dir_0315 transcript_txt (fs no_transcript) = None
  /\ fst (upload_single_episode offline cfg dir_0315 [] no_transcript)
     = Ok false
  /\ fst (upload_single_episode offline cfg dir_0315 [] no_transcript)
     <> Ok true
  /\ fst (upload_all offline cfg [dir_0315] [] 0 no_transcript) = Ok 0.
Proof. vm_compute. repeat split; discriminate. Qed.



End UploadOneExamples.

(* ===================================================================== *)
(** * Properties: dictionaries and files *)
(* ===================================================================== *)

Section DictFacts.
Import Py.
Variables K V : Type.
Variable keq : K -> K -> bool.
Hypothesis keq_eq : forall a b, keq a b = true <-> a = b.

Lemma keq_refl k : keq k k = true.
Proof. now apply keq_eq. Qed.

Lemma dict_get_set_same (k : K) (v : V) (d : dict K V) :
  dict_get keq k (dict_set keq k v d) = Some v.
Proof.
  induction d as [|[k' v'] d IH]; simpl.
  - now rewrite keq_refl.
  - destruct (keq k k') eqn:E; simpl; rewrite E; auto.
Qed.

Lemma dict_get_set_other (k k' : K) (v : V) (d : dict K V) :
  k <> k' -> dict_get keq k' (dict_set keq k v d) = dict_get keq k' d.
Proof.
  intros Hne. induction d as [|[k0 v0] d IH]; simpl.
  - destruct (keq k' k) eqn:E; [|reflexivity].
    apply keq_eq in E. congruence.
  - destruct (keq k k0) eqn:E; simpl.
    + apply keq_eq in E. subst k0.
      destruct (keq k' k) eqn:E'; [|reflexivity].
      apply keq_eq in E'. congruence.
    + now rewrite IH.
Qed.

Lemma dict_get_app_None (k : K) (d d' : dict K V) :
  dict_get keq k d = None -> dict_get keq k (d ++ d') = dict_get keq k d'.
Proof.
  induction d as [|[k0 v0] d IH]; simpl; [reflexivity|].
  destruct (keq k k0); [discriminate|exact IH].
Qed.

Lemma dict_get_In (k : K) (v : V) (d : dict K V) :
  dict_get keq k d = Some v -> In (k, v) d.
Proof.
  induction d as [|[k0 v0] d IH]; simpl; [discriminate|].
  destruct (keq k k0) eqn:E.
  - apply keq_eq in E. intros [= ->]. left. now subst.
  - auto.
Qed.

Lemma dict_get_None_notin (k : K) (d : dict K V) :
  dict_get keq k d = None -> ~ In k (map fst d).
Proof.
  induction d as [|[k0 v0] d IH]; simpl; [tauto|].
  destruct (keq k k0) eqn:E; [discriminate|].
  intros H [->|Hin]; [|now apply IH].
  now rewrite keq_refl in E.
Qed.

(** The keys after [d[k] = v]: the same ones, in the same order, with [k]
    appended when it is new. *)
Lemma dict_set_keys (k : K) (v : V) (d : dict K V) :
  map fst (dict_set keq k v d)
  = match dict_get keq k d with
    | Some _ => map fst d
    | None => map fst d ++ [k]
    end.
Proof.
  induction d as [|[k0 v0] d IH]; simpl; [reflexivity|].
  destruct (keq k k0) eqn:E; simpl; [reflexivity|].
  rewrite IH. now destruct (dict_get keq k d).
Qed.

Lemma dict_set_NoDup (k : K) (v : V) (d : dict K V) :
  NoDup (map fst d) -> NoDup (map fst (dict_set keq k v d)).
Proof.
  intros H. rewrite dict_set_keys.
  destruct (dict_get keq k d) eqn:G; [assumption|].
  apply NoDup_app; [assumption|repeat constructor; simpl; tauto|].
  intros x Hx [<-|[]]. now apply dict_get_None_notin in G.
Qed.

End DictFacts.

Section Files.
Import Py Sys Scraper.

Lemma str_eq (a b : str) : Py.eqb a b = true <-> a = b.
Proof. apply eqb_true_iff. Qed.

Lemma mkdir_p_existing dir es s :
  lookup_node dir (fs s) = Some (Dir es) -> mkdir_p dir s = (Ok tt, s).
Proof. unfold mkdir_p. now intros ->. Qed.

(** What a successful [mkdir] leaves: the directory, and no trace. *)
Lemma mkdir_p_ok dir s r s' :
  mkdir_p dir s = (r, s') ->
  trace s' = trace s
  /\ ((r = Ok tt /\ exists es, lookup_node dir (fs s') = Some (Dir es))
      \/ (r = Raise FileExistsError /\ s' = s)).
Proof.
  unfold mkdir_p. destruct (lookup_node dir (fs s)) as [[f|es]|] eqn:E;
    intros [= <- <-]; (split; [reflexivity|]).
  - now right.
  - left. eauto.
  - left. split; [reflexivity|]. exists []. simpl. unfold lookup_node in *.
    simpl. rewrite (dict_get_app_None _ _ _ _ _ _ E). simpl.
    now rewrite eqb_refl.
Qed.

Lemma write_file_ok dir name f s r s' :
  write_file dir name f s = (r, s') ->
  r = Ok tt ->
  trace s' = trace s /\ lookup_file dir name (fs s') = Some f.
Proof.
  unfold write_file. destruct (lookup_node dir (fs s)) as [[f'|es]|] eqn:E;
    intros [= <- <-]; try discriminate. intros _. split; [reflexivity|].
  unfold lookup_file, lookup_node in *. simpl.
  rewrite (dict_get_set_same _ _ _ str_eq).
  apply (dict_get_set_same _ _ _ str_eq).
Qed.

Variable w : world.

Lemma download_file_existing url dir name f s :
  lookup_file dir name (fs s) = Some f ->
  download_file w url dir name s
  = (Ok tt, {| fs := fs s; trace := trace s ++ [Printed (SkipExists name)] |}).
Proof.
  intros H. pose proof H as H'.
  apply lookup_file_Some in H' as (es & Hn & _).
  unfold download_file. mrun. rewrite (mkdir_p_existing _ _ _ Hn), H.
  reflexivity.
Qed.

Lemma download_file_leaves_file url dir name s s1 :
  download_file w url dir name s = (Ok tt, s1) ->
  exists f, lookup_file dir name (fs s1) = Some f.
Proof.
  unfold download_file. mrun.
  destruct (mkdir_p dir s) as [r s0] eqn:M.
  apply mkdir_p_ok in M as [Ht [[-> _]|[-> ->]]]; [|discriminate].
  destruct (lookup_file dir name (fs s0)) as [f|] eqn:L.
  - intros [= <-]. simpl. eauto.
  - destruct (w (trace s0) (GetStream url)) as [|resp]; [discriminate|].
    unfold raise_for_status.
    destruct ((400 <=? status_code resp)%Z && (status_code resp <? 600)%Z);
      [discriminate|].
    mrun.
    match goal with
    | |- context [write_file dir name ?f ?s] =>
        destruct (write_file dir name f s) as [r s2] eqn:W
    end.
    destruct r as [[]| |]; try discriminate.
    apply write_file_ok in W as [_ W]; [|reflexivity].
    destruct (stream_breaks resp); [discriminate|].
    intros [= <-]. simpl. eauto.
Qed.

(** C6: when the destination exists the call succeeds without a request
    and without touching the files (it prints the skip line); and after a
    first successful call the file exists, so a second call with the same
    arguments sends nothing either. *)
Theorem C6_download_file_idempotent (url dir name : str) (s : state) :
  (forall f, lookup_file dir name (fs s) = Some f ->
     exists s', download_file w url dir name s = (Ok tt, s')
                /\ fs s' = fs s
                /\ requests (trace s') = requests (trace s))
  /\ (forall s1, download_file w url dir name s = (Ok tt, s1) ->
        exists s2, download_file w url dir name s1 = (Ok tt, s2)
                   /\ fs s2 = fs s1
                   /\ requests (trace s2) = requests (trace s1)).
Proof.
  assert (skip : forall f s0, lookup_file dir name (fs s0) = Some f ->
     exists s', download_file w url dir name s0 = (Ok tt, s')
                /\ fs s' = fs s0
                /\ requests (trace s') = requests (trace s0)).
  { intros f s0 H. rewrite (download_file_existing url _ _ _ _ H).
    eexists. split; [reflexivity|]. simpl. split; [reflexivity|].
    rewrite requests_app. apply app_nil_r. }
  split.
  - intros f. apply skip.
  - intros s1 H. apply download_file_leaves_file in H as [f Hf].
    now apply (skip f).
Qed.

End Files.

Section FilesExamples.
Import Py Sys Scraper Examples.

Lemma C6_download_file_idempotent_witness :
  (lookup_file dir_0315 audio_name (fs with_audio)
   = Some (Binary [73; 68; 51]%N)
   /\ exists s',
        download_file media_server audio_url dir_0315 audio_name with_audio
        = (Ok tt, s')
        /\ fs s' = fs with_audio
        /\ requests (trace s') = requests (trace with_audio))
  /\ (exists s1,
        download_file media_server audio_url dir_0315 audio_name empty_disk
        = (Ok tt, s1)
        /\ requests (trace s1) = [Sent (GetStream audio_url)]
        /\ exists s2,
             download_file media_server audio_url dir_0315 audio_name s1
             = (Ok tt, s2)
             /\ fs s2 = fs s1
             /\ requests (trace s2) = requests (trace s1)).
Proof.
  split.
  - split; [reflexivity|].
    destruct (C6_download_file_idempotent media_server audio_url dir_0315
                audio_name with_audio) as [H _].
    apply (H (Binary [73; 68; 51]%N)). reflexivity.
  - destruct (C6_download_file_idempotent media_server audio_url dir_0315
                audio_name empty_disk) as [_ H].
    exists (snd (download_file media_server audio_url dir_0315 audio_name
                   empty_disk)).
    split; [reflexivity|]. split; [reflexivity|].
    apply H. reflexivity.
Defined.

End FilesExamples.

(* ===================================================================== *)
(** * Properties: sorting and dates *)
(* ===================================================================== *)

Section SortFacts.
Import Py.
Variable A : Type.
Variable before : A -> A -> bool.
Hypothesis before_total : forall a b, before a b = false -> before b a = true.
Hypothesis before_trans :
  forall a b c, before a b = true -> before b c = true -> before a c = true.

#[local] Abbreviation R := (fun a b : A => before a b = true).

Lemma insert_sorted_perm (x : A) (l : list A) :
  Permutation (insert_sorted before x l) (x :: l).
Proof.
  induction l as [|y l IH]; simpl; [reflexivity|].
  destruct (before x y); [reflexivity|].
  rewrite IH. apply perm_swap.
Qed.

Lemma stable_sort_perm (l : list A) : Permutation (stable_sort before l) l.
Proof.
  induction l as [|x l IH]; simpl; [reflexivity|].
  rewrite insert_sorted_perm. now constructor.
Qed.

Lemma insert_sorted_sorted (x : A) (l : list A) :
  StronglySorted R l -> StronglySorted R (insert_sorted before x l).
Proof.
  induction 1 as [|y l Hs IH Hy]; simpl.
  - repeat constructor.
  - destruct (before x y) eqn:E.
    + constructor; [now constructor|]. constructor; [exact E|].
      apply Forall_forall. intros z Hz. apply (before_trans _ y); [exact E|].
      now apply (proj1 (Forall_forall _ _) Hy).
    + constructor; [exact IH|].
      apply Forall_forall. intros z Hz.
      apply (Permutation_in _ (insert_sorted_perm x l)) in Hz.
      destruct Hz as [<-|Hz]; [now apply before_total|].
      now apply (proj1 (Forall_forall _ _) Hy).
Qed.

Lemma stable_sort_sorted (l : list A) : StronglySorted R (stable_sort before l).
Proof.
  induction l as [|x l IH]; simpl; [constructor|].
  now apply insert_sorted_sorted.
Qed.

Lemma sorted_filter (p : A -> bool) (l : list A) :
  StronglySorted R l -> StronglySorted R (filter p l).
Proof.
  induction 1 as [|x l Hs IH Hx]; simpl; [constructor|].
  destruct (p x); [|exact IH]. constructor; [exact IH|].
  apply Forall_forall. intros z Hz. apply filter_In in Hz as [Hz _].
  now apply (proj1 (Forall_forall _ _) Hx).
Qed.

Lemma sorted_app_inv (l1 l2 : list A) :
  StronglySorted R (l1 ++ l2) ->
  StronglySorted R l1 /\ forall x y, In x l1 -> In y l2 -> R x y.
Proof.
  induction l1 as [|a l1 IH]; simpl; intros H.
  - split; [constructor|]. intros x y [].
  - inversion H as [|? ? Hs Ha]; subst. destruct (IH Hs) as [S1 S2].
    split.
    + constructor; [exact S1|]. apply Forall_forall. intros z Hz.
      apply (proj1 (Forall_forall _ _) Ha). apply in_or_app. now left.
    + intros x y [<-|Hx] Hy; [|now apply S2].
      apply (proj1 (Forall_forall _ _) Ha). apply in_or_app. now right.
Qed.


(** In a sorted list whose elements are distinct, what [firstn] leaves out
    comes after everything it keeps. *)
Lemma firstn_first (n : nat) (l : list A) (x y : A) :
  StronglySorted R l -> In x (firstn n l) -> In y l -> ~ In y (firstn n l) ->
  R x y.
Proof.
  intros H Hx Hy Hny. rewrite <- (firstn_skipn n l) in H, Hy.
  apply sorted_app_inv in H as [_ H]. apply H; [exact Hx|].
  apply in_app_or in Hy as [Hy|Hy]; [contradiction|exact Hy].
Qed.

End SortFacts.

Section DateFacts.
Import Py.

Lemma dt_ltb_spec (a b : datetime) :
  dt_ltb a b = true <->
  (year a < year b
   \/ (year a = year b
       /\ (month a < month b \/ (month a = month b /\ day a < day b))))%Z.
Proof.
  unfold dt_ltb.
  rewrite !orb_true_iff, !andb_true_iff, !orb_true_iff, !andb_true_iff,
    !Z.ltb_lt, !Z.eqb_eq. tauto.
Qed.

Lemma dt_geb_spec (a b : datetime) :
  dt_geb a b = true <-> ~ dt_ltb a b = true.
Proof. unfold dt_geb. destruct (dt_ltb a b); simpl; split; congruence. Qed.

Lemma dt_geb_total (a b : datetime) : dt_geb a b = false -> dt_geb b a = true.
Proof.
  intros H. apply dt_geb_spec. rewrite dt_ltb_spec.
  assert (H' : dt_ltb a b = true)
    by (unfold dt_geb in H; now destruct (dt_ltb a b)).
  apply dt_ltb_spec in H'. lia.
Qed.

Lemma dt_geb_trans (a b c : datetime) :
  dt_geb a b = true -> dt_geb b c = true -> dt_geb a c = true.
Proof.
  rewrite !dt_geb_spec, !dt_ltb_spec. lia.
Qed.


End DateFacts.

(* ===================================================================== *)
(** * Properties: the listing *)
(* ===================================================================== *)

Section Listing.
Import Py Sys Spec Scraper.

Lemma newer_first_total a b : newer_first a b = false -> newer_first b a = true.
Proof. apply dt_geb_total. Qed.

Lemma newer_first_trans a b c :
  newer_first a b = true -> newer_first b c = true -> newer_first a c = true.
Proof. apply dt_geb_trans. Qed.

Lemma episodes_of_perm (collected : dict str datetime) :
  Permutation (episodes_of collected) (map swap collected).
Proof. apply stable_sort_perm. Qed.

Lemma episodes_of_sorted (collected : dict str datetime) :
  StronglySorted (fun a b => newer_first a b = true) (episodes_of collected).
Proof.
  apply stable_sort_sorted; [apply newer_first_total|apply newer_first_trans].
Qed.

Lemma map_snd_swap (collected : dict str datetime) :
  map snd (map swap collected) = map fst collected.
Proof. rewrite map_map. reflexivity. Qed.

Lemma episodes_of_NoDup (collected : dict str datetime) :
  NoDup (map fst collected) -> NoDup (map snd (episodes_of collected)).
Proof.
  intros H. rewrite <- map_snd_swap in H.
  eapply Permutation_NoDup; [|exact H].
  apply Permutation_map, Permutation_sym, episodes_of_perm.
Qed.




(** With distinct keys, the pairs of a dictionary are its lookups. *)
Lemma dict_In_get (url : str) (d : datetime) (collected : dict str datetime) :
  NoDup (map fst collected) ->
  (In (url, d) collected <-> dict_get Py.eqb url collected = Some d).
Proof.
  intros H. split; [|apply (dict_get_In _ _ _ str_eq)].
  induction collected as [|[k v] c IH]; simpl; [tauto|].
  inversion H as [|? ? Hk Hc]; subst. intros [[= -> ->]|Hin].
  - now rewrite eqb_refl.
  - destruct (Py.eqb url k) eqn:E; [|auto].
    apply eqb_true_iff in E. subst k. exfalso. apply Hk.
    change url with (fst (url, d)). now apply in_map.
Qed.


Variable w : world.
Variable config : Config.t.

(** [find_episode_links] raises only on an anchor whose date parsed and
    whose [href] cannot be joined. *)
Lemma add_anchors_None (l : list anchor) (found : dict str datetime) :
  add_anchors l found = None ->
  exists a, In a l /\ parsed_date a <> None /\ absolute a = None.
Proof.
  revert found. induction l as [|a l IH]; intros found; [discriminate|].
  cbn [add_anchors]. unfold add_anchor.
  destruct (parsed_date a) as [d|] eqn:Pa.
  - destruct (absolute a) as [url|] eqn:Ab.
    + intros H. destruct (IH _ H) as (b & Hb & Hp & Hu).
      exists b. split; [now right|auto].
    + intros _. exists a. split; [now left|]. rewrite Pa. split; [discriminate|].
      exact Ab.
  - intros H. destruct (IH _ H) as (b & Hb & Hp & Hu).
    exists b. split; [now right|auto].
Qed.

Lemma find_episode_links_joinable (page : soup) :
  joinable page -> find_episode_links page <> None.
Proof.
  intros J. unfold find_episode_links.
  destruct (add_anchors (anchors page) []) eqn:E; [discriminate|].
  apply add_anchors_None in E as (a & Ha & Hp & Hu).
  now elim (J a Ha Hp).
Qed.

(** One round of the page loop, by the reply it gets: a request that
    fails is caught, the [ValueError] of [urljoin] is not. *)
Lemma listing_round_run (page : Z) (collected : dict str datetime) (s : state) :
  let sent := {| fs := fs s;
                 trace := trace s ++ [Sent (Get (listing_url config page))] |} in
  try_except (listing_round w config page collected) is_RequestException
    (fun e => print (WarnListingPage page e) ;;; ret (collected, false)) s
  = match w (trace s) (Get (listing_url config page)) with
    | Unreachable =>
        (Ok (collected, false),
         {| fs := fs s;
            trace := trace sent
                     ++ [Printed (WarnListingPage page ConnectionError)] |})
    | Answer resp =>
        if error_status resp
        then (Ok (collected, false),
              {| fs := fs s;
                 trace := trace sent
                          ++ [Printed (WarnListingPage page
                                         (HTTPError (status_code resp)))] |})
        else
          match find_episode_links (parsed resp) with
          | Some links =>
              (Ok (fold_left add_link links collected,
                   Nat.eqb (length (fold_left add_link links collected))
                     (length collected)), sent)
          | None => (Raise ValueError, sent)
          end
    end.
Proof.
  unfold listing_round, session_get, raise_for_status, error_status. mrun.
  destruct (w (trace s) (Get (listing_url config page))) as [|resp]; mrun;
    [reflexivity|].
  destruct ((400 <=? status_code resp)%Z && (status_code resp <? 600)%Z);
    [reflexivity|].
  now destruct (find_episode_links (parsed resp)).
Qed.




End Listing.

Section ListingExamples.
Import Py Sys Scraper Examples.



End ListingExamples.

(* ===================================================================== *)
(** * Properties: what a computation may print, send and raise *)
(* ===================================================================== *)

Section Steps.
Import Py Sys Spec.

Variable P : event -> Prop.
Variable Q : exn -> Prop.

Lemma steps_ret {A} (a : A) : steps P Q (ret a).
Proof.
  intros s r s' [= <- <-]. repeat split; auto. exists [].
  now rewrite app_nil_r.
Qed.

Lemma steps_raise {A} (e : exn) : Q e -> steps P Q (@raise A e).
Proof.
  intros H s r s' [= <- <-]. repeat split; auto. exists [].
  now rewrite app_nil_r.
Qed.

Lemma steps_print (m : message) : P (Printed m) -> steps P Q (print m).
Proof.
  intros H s r s' [= <- <-]. simpl. repeat split; auto.
  exists [Printed m]. auto.
Qed.

Lemma steps_send (w : world) (rq : request) :
  P (Sent rq) -> steps P Q (send w rq).
Proof.
  intros H s r s' [= <- <-]. simpl. repeat split; auto.
  exists [Sent rq]. auto.
Qed.

Lemma steps_exists_file (dir name : str) : steps P Q (exists_file dir name).
Proof.
  intros s r s' [= <- <-]. repeat split; auto. exists [].
  now rewrite app_nil_r.
Qed.

Lemma steps_bind {A B} (c : M A) (k : A -> M B) :
  steps P Q c -> (forall a, steps P Q (k a)) -> steps P Q (bind c k).
Proof.
  intros Hc Hk s r s'. unfold bind. destruct (c s) as [ra s1] eqn:E.
  destruct (Hc _ _ _ E) as (F1 & (ev1 & T1 & A1) & R1).
  destruct ra as [a|e|].
  - intros E2. destruct (Hk a _ _ _ E2) as (F2 & (ev2 & T2 & A2) & R2).
    split; [congruence|]. split; [|exact R2].
    exists (ev1 ++ ev2). rewrite T2, T1, app_assoc. split; [reflexivity|].
    now apply Forall_app.
  - intros [= <- <-]. eauto.
  - contradiction.
Qed.

(** The handler runs for the exceptions the clause names; the others go
    through. *)
Lemma steps_try_except {A} (Q' : exn -> Prop) (c : M A)
  (handles : exn -> bool) (h : exn -> M A) :
  steps P Q' c ->
  (forall e, Q' e -> handles e = true -> steps P Q (h e)) ->
  (forall e, Q' e -> handles e = false -> Q e) ->
  steps P Q (try_except c handles h).
Proof.
  intros Hc Hh Hq s r s'. unfold try_except.
  destruct (c s) as [ra s1] eqn:E.
  destruct (Hc _ _ _ E) as (F1 & (ev1 & T1 & A1) & R1).
  destruct ra as [a|e|].
  - intros [= <- <-]. eauto.
  - destruct (handles e) eqn:Hd.
    + intros E2.
      destruct (Hh e R1 Hd _ _ _ E2) as (F2 & (ev2 & T2 & A2) & R2).
      split; [congruence|]. split; [|exact R2].
      exists (ev1 ++ ev2). rewrite T2, T1, app_assoc. split; [reflexivity|].
      now apply Forall_app.
    + intros [= <- <-]. repeat split; eauto.
  - contradiction.
Qed.

Lemma steps_weaken {A} (Q' : exn -> Prop) (c : M A) :
  steps P Q' c -> (forall e, Q' e -> Q e) -> steps P Q c.
Proof.
  intros Hc Hq s r s' E. destruct (Hc _ _ _ E) as (F & T & R).
  repeat split; auto. destruct r; auto.
Qed.

End Steps.

(** Breaks a goal [steps P Q c] along the structure of [c]. *)
Ltac steps :=
  repeat
    match goal with
    | |- Spec.steps _ _ (Sys.ret _) => apply steps_ret
    | |- Spec.steps _ _ (Sys.print _) => apply steps_print
    | |- Spec.steps _ _ (Sys.send _ _) => apply steps_send
    | |- Spec.steps _ _ (Sys.exists_file _ _) => apply steps_exists_file
    | |- Spec.steps _ _ (Sys.raise _) => apply steps_raise
    | |- Spec.steps _ _ (Sys.bind _ _) => apply steps_bind; [|intros ?]
    | |- Spec.steps _ _ (if ?b then _ else _) => destruct b
    | |- Spec.steps _ _ (match ?x with _ => _ end) => destruct x
    end.

(* ===================================================================== *)
(** * Properties: the upload batch *)
(* ===================================================================== *)

Section UploadBatch.
Import Py Sys Spec Utils LingqApi Main.

Lemma quiet_silent (evs : list event) :
  Forall quiet evs -> processed evs = [] /\ failures evs = 0.
Proof.
  unfold failures, processed.
  induction 1 as [|e evs He Hevs [IH1 IH2]]; [auto|].
  simpl. rewrite IH1.
  destruct e as [rq|m]; [auto|].
  destruct m; simpl in *; try contradiction; try discriminate; auto.
Qed.

Lemma processed_app (t u : list event) :
  processed (t ++ u) = processed t ++ processed u.
Proof. apply flat_map_app. Qed.

Lemma failures_app (t u : list event) :
  failures (t ++ u) = failures t + failures u.
Proof. unfold failures. now rewrite filter_app, length_app. Qed.

Variable w : world.
Variable config : Config.t.

Lemma steps_raise_for_status (resp : response) :
  steps quiet catchable (raise_for_status resp).
Proof.
  unfold raise_for_status, Scraper.raise_for_status. steps; reflexivity.
Qed.

Lemma steps_open_rb (dir : str) (name : option str) :
  steps quiet catchable (open_rb dir name).
Proof. unfold open_rb. steps; reflexivity. Qed.

Lemma steps_create_lesson episode_dir lang title text collection_pk status
  level tags original_url audio_file external_audio duration image_file :
  steps quiet catchable
    (create_lesson w config episode_dir lang title text collection_pk status
       level tags original_url audio_file external_audio duration image_file).
Proof.
  unfold create_lesson. steps;
    try apply steps_open_rb; try apply steps_raise_for_status;
    try reflexivity.
Qed.

Lemma steps_update_lesson_metadata lang lesson_id shelves tags :
  steps quiet catchable (update_lesson_metadata w lang lesson_id shelves tags).
Proof.
  unfold update_lesson_metadata.
  apply steps_try_except with (Q' := catchable).
  - steps; try apply steps_raise_for_status; reflexivity.
  - intros e _ _. steps; reflexivity.
  - auto.
Qed.

Lemma steps_generate_audio_timestamps lang lesson_id :
  steps quiet catchable (generate_audio_timestamps w lang lesson_id).
Proof.
  unfold generate_audio_timestamps. steps; try reflexivity.
  apply steps_try_except with (Q' := catchable).
  - steps; try apply steps_raise_for_status; reflexivity.
  - intros e _ _. steps; reflexivity.
  - auto.
Qed.

Lemma steps_create_and_finish episode_dir title text original_url status year
  mp3_file image_file :
  steps quiet catchable
    (create_and_finish w config episode_dir title text original_url status
       year mp3_file image_file).
Proof.
  unfold create_and_finish. steps;
    try apply steps_create_lesson;
    try apply steps_update_lesson_metadata;
    try apply steps_generate_audio_timestamps;
    reflexivity.
Qed.

Lemma bind_Ok_inv {A B} (c : M A) (k : A -> M B) s b s' :
  bind c k s = (Ok b, s') ->
  exists a s1, c s = (Ok a, s1) /\ k a s1 = (Ok b, s').
Proof.
  unfold bind. destruct (c s) as [[a|e|] s1]; try discriminate. eauto.
Qed.

Lemma create_and_finish_true episode_dir title text original_url status year
  mp3_file image_file s b s' :
  create_and_finish w config episode_dir title text original_url status year
    mp3_file image_file s = (Ok b, s') ->
  b = true.
Proof.
  unfold create_and_finish. intros H.
  repeat (apply bind_Ok_inv in H as (? & ? & _ & H)).
  now injection H as <- _.
Qed.

(** [find_mp3] only reads, and succeeds on a directory. *)
Lemma find_mp3_reads dir s r s' :
  find_mp3 dir s = (r, s') ->
  s' = s /\ r <> OutOfFuel
  /\ forall es, lookup_node dir (fs s) = Some (Dir es) -> exists o, r = Ok o.
Proof.
  unfold find_mp3, iterdir, bind, ret.
  destruct (lookup_node dir (fs s)) as [[f|es]|]; intros [= <- <-];
    repeat split; try discriminate; eauto; discriminate.
Qed.

Lemma read_text_reads dir name s r s' :
  read_text dir name s = (r, s') -> s' = s /\ r <> OutOfFuel.
Proof.
  unfold read_text.
  destruct (lookup_node dir (fs s)) as [[f|es]|];
    [| destruct (dict_get Py.eqb name es) as [[t|data]|] |];
    intros [= <- <-]; split; auto; discriminate.
Qed.

Lemma parse_episode_meta_reads dir s r s' :
  parse_episode_meta dir s = (r, s') -> s' = s /\ r <> OutOfFuel.
Proof.
  unfold parse_episode_meta. mrun.
  destruct (lookup_file dir episode_txt (fs s)); mrun.
  - destruct (read_text dir episode_txt s) as [r1 s1] eqn:E.
    apply read_text_reads in E as [-> Hr].
    destruct r1; intros [= <- <-]; split; auto; discriminate.
  - intros [= <- <-]. split; auto; discriminate.
Qed.

(** One call of [upload_single_episode]: the files are left alone, the
    trace grows by the [[PROCESS]] line of the directory and by lines and
    requests that name no other directory; the call terminates; and when
    the two text files are readable it returns a Boolean, [False] exactly
    when it printed one report of failure. *)
Lemma upload_single_episode_inv episode_dir existing s r s' :
  upload_single_episode w config episode_dir existing s = (r, s') ->
  fs s' = fs s
  /\ r <> OutOfFuel
  /\ exists evs,
       trace s' = trace s ++ Printed (Process episode_dir) :: evs
       /\ processed evs = []
       /\ (readable episode_dir (fs s) ->
           exists b, r = Ok b /\ failures evs = if b then 0 else 1).
Proof.
  unfold upload_single_episode. mrun.
  set (s0 := {| fs := fs s;
                trace := trace s ++ [Printed (Process episode_dir)] |}).
  assert (T0 : forall evs, trace s0 ++ evs
                 = trace s ++ Printed (Process episode_dir) :: evs)
    by (intros evs; simpl; now rewrite <- app_assoc).
  destruct (lookup_file episode_dir transcript_txt (fs s)) as [f|] eqn:Lt;
    mrun.
  2:{ intros [= <- <-]. simpl. repeat split; [discriminate|].
      exists [Printed SkipNoTranscript]. rewrite <- app_assoc.
      repeat split; eauto. }
  destruct (parse_episode_meta episode_dir s0) as [r1 s1] eqn:E1.
  pose proof E1 as E1'. apply parse_episode_meta_reads in E1' as [-> Hr1].
  assert (Raised : forall (e : exn),
            (readable episode_dir (fs s) -> False) ->
            fs s0 = fs s /\ @Raise bool e <> OutOfFuel
            /\ exists evs,
                 trace s0 = trace s ++ Printed (Process episode_dir) :: evs
                 /\ processed evs = []
                 /\ (readable episode_dir (fs s) ->
                     exists b : bool, Raise e = Ok b
                               /\ failures evs = if b then 0 else 1)).
  { intros e Hno. repeat split; [discriminate|]. exists [].
    repeat split; auto. intros Hr. contradiction. }
  destruct r1 as [meta|e|]; [| |contradiction].
  2:{ intros [= <- <-]. apply Raised. intros Hr.
      destruct (parse_episode_meta_ok episode_dir s0) as [meta Hm];
        [intros data; apply Hr|congruence]. }
  destruct (read_text episode_dir transcript_txt s0) as [r2 s2] eqn:E2.
  pose proof E2 as E2'. apply read_text_reads in E2' as [-> Hr2].
  destruct r2 as [content|e|]; [| |contradiction].
  2:{ intros [= <- <-]. apply Raised. intros Hr.
      destruct f as [t|data]; [|now destruct (Hr data)].
      rewrite (read_text_ok _ _ _ s0 Lt) in E2. discriminate. }
  destruct (dict_get Json.key_eqb (Json.Str (title_prefix ++ firstn 10 episode_dir))
              existing) as [id|]; mrun.
  { intros [= <- <-]. simpl. repeat split; [discriminate|].
    eexists. rewrite <- app_assoc. repeat split; eauto. }
  destruct (find_mp3 episode_dir s0) as [r3 s3] eqn:E3.
  apply find_mp3_reads in E3 as (-> & Hr3 & Hdir).
  destruct r3 as [mp3_file|e|]; [| |contradiction].
  2:{ intros [= <- <-]. apply Raised. intros _.
      apply lookup_file_Some in Lt as (es & Hn & _).
      destruct (Hdir es Hn) as [o Ho]. discriminate. }
  cbn [fs]. 
  match goal with
  | |- context [create_and_finish ?a ?b ?c ?d ?e ?f ?g ?h ?i ?j s0] =>
      destruct (create_and_finish a b c d e f g h i j s0) as [r4 s4] eqn:E4;
      pose proof (steps_create_and_finish c d e f g h i j _ _ _ E4)
        as (F4 & (evs & T4 & Q4) & R4)
  end.
  apply quiet_silent in Q4 as [Q4p Q4f].
  destruct r4 as [b|e|]; [| |contradiction].
  - intros [= <- <-]. apply create_and_finish_true in E4 as ->.
    repeat split; [exact F4|discriminate|].
    exists evs. rewrite T4, T0. repeat split; eauto.
  - unfold catchable in R4. rewrite R4. intros [= <- <-]. cbn [fs trace].
    repeat split; [exact F4|discriminate|].
    exists (evs ++ [Printed (ErrorUploadFailed e)]).
    rewrite T4, <- app_assoc, T0.
    rewrite processed_app, failures_app, Q4p, Q4f.
    repeat split; eauto.
Qed.

(** The [for ep in targets] loop. *)
Lemma upload_all_inv targets existing n s r s' :
  upload_all w config targets existing n s = (r, s') ->
  fs s' = fs s
  /\ r <> OutOfFuel
  /\ (exists done rest,
        targets = done ++ rest
        /\ processed (trace s') = processed (trace s) ++ done
        /\ (forall count, r = Ok count -> rest = []))
  /\ ((forall d, In d targets -> readable d (fs s)) ->
      exists count,
        r = Ok count /\ n <= count
        /\ count + failures (trace s')
           = n + length targets + failures (trace s)).
Proof.
  revert n s. induction targets as [|ep rest IH]; intros n s.
  - simpl. intros [= <- <-]. repeat split; [discriminate| |].
    + exists [], []. repeat split; auto. now rewrite app_nil_r.
    + intros _. exists n. repeat split; lia.
  - cbn [upload_all]. unfold bind at 1.
    destruct (upload_single_episode w config ep existing s) as [r1 s1] eqn:E1.
    apply upload_single_episode_inv in E1
      as (F1 & R1 & evs & T1 & P1 & B1).
    assert (Pr1 : processed (trace s1) = processed (trace s) ++ [ep]).
    { rewrite T1, processed_app. simpl. now rewrite P1. }
    destruct r1 as [ok|e|]; [| |contradiction].
    + intros E2.
      apply IH in E2 as (F2 & R2 & (done & rest' & D2 & P2 & L2) & B2).
      split; [congruence|]. split; [exact R2|]. split.
      * exists (ep :: done), rest'. rewrite P2, Pr1, <- app_assoc, D2.
        repeat split; auto.
      * intros Hread.
        destruct (B1 (Hread ep (or_introl eq_refl))) as (b & [= <-] & Fb).
        destruct B2 as (count & -> & Hle & Hc).
        { intros d Hd. rewrite F1. apply Hread. now right. }
        exists count. split; [reflexivity|].
        rewrite T1, failures_app in Hc.
        change (failures (Printed (Process ep) :: evs)) with (failures evs)
          in Hc.
        cbn [length]. destruct ok; split; lia.
    + intros [= <- <-]. split; [exact F1|]. split; [discriminate|]. split.
      * exists [ep], rest. repeat split; auto. discriminate.
      * intros Hread.
        destruct (B1 (Hread ep (or_introl eq_refl))) as (b & [=] & _).
Qed.


End UploadBatch.

Section BatchExamples.
Import Py Sys Spec Main Examples.



End BatchExamples.

(* ===================================================================== *)
(** * Properties: the order of the upload *)
(* ===================================================================== *)

Section NameOrder.
Import Py Sys Spec Utils.

Lemma str_ltb_asym (a b : str) : str_ltb a b = true -> str_ltb b a = false.
Proof.
  revert b. induction a as [|x a IH]; intros [|y b]; simpl; try congruence.
  intros H. apply orb_true_iff in H as [H|H].
  - apply N.ltb_lt in H.
    rewrite (proj2 (N.ltb_ge y x)) by lia.
    rewrite (proj2 (N.eqb_neq y x)) by lia. reflexivity.
  - apply andb_true_iff in H as [E H]. apply N.eqb_eq in E. subst y.
    rewrite N.ltb_irrefl, N.eqb_refl. simpl. now apply IH.
Qed.

Lemma str_ltb_trans (a b c : str) :
  str_ltb a b = true -> str_ltb b c = true -> str_ltb a c = true.
Proof.
  revert b c. induction a as [|x a IH]; intros [|y b] [|z c]; simpl;
    try congruence.
  intros H1 H2.
  apply orb_true_iff in H1 as [H1|H1]; apply orb_true_iff in H2 as [H2|H2];
    apply orb_true_iff;
    repeat match goal with
           | H : (_ && _ = true) |- _ => apply andb_true_iff in H as [? ?]
           | H : (_ =? _)%N = true |- _ => apply N.eqb_eq in H; subst
           | H : (_ <? _)%N = true |- _ => apply N.ltb_lt in H
           end.
  - left. apply N.ltb_lt. lia.
  - left. now apply N.ltb_lt.
  - left. now apply N.ltb_lt.
  - right. rewrite N.eqb_refl. simpl. eapply IH; eassumption.
Qed.

(** Two strings are equal or one is below the other. *)
Lemma str_ltb_total (a b : str) :
  str_ltb a b = false -> str_ltb b a = false -> a = b.
Proof.
  revert b. induction a as [|x a IH]; intros [|y b]; simpl; try congruence.
  intros H1 H2.
  apply orb_false_iff in H1 as [L1 E1]. apply orb_false_iff in H2 as [L2 E2].
  apply N.ltb_ge in L1, L2. assert (x = y) by lia. subst y.
  rewrite N.eqb_refl in E1, E2. simpl in *. f_equal. now apply IH.
Qed.

Lemma str_leb_total (a b : str) : str_leb a b = false -> str_leb b a = true.
Proof.
  unfold str_leb. intros H. apply negb_false_iff in H.
  now rewrite (str_ltb_asym _ _ H).
Qed.

Lemma str_leb_trans (a b c : str) :
  str_leb a b = true -> str_leb b c = true -> str_leb a c = true.
Proof.
  unfold str_leb. rewrite !negb_true_iff. intros H1 H2.
  destruct (str_ltb c a) eqn:H3; [|reflexivity].
  destruct (str_ltb a b) eqn:H4.
  - now rewrite (str_ltb_trans _ _ _ H3 H4) in H2.
  - rewrite (str_ltb_total _ _ H4 H1) in H3. congruence.
Qed.

Lemma name_leb_total a b : name_leb a b = false -> name_leb b a = true.
Proof. apply str_leb_total. Qed.

Lemma name_leb_trans a b c :
  name_leb a b = true -> name_leb b c = true -> name_leb a c = true.
Proof. apply str_leb_trans. Qed.

Lemma sorted_map_fst (l : list (str * node)) :
  StronglySorted (fun a b => name_leb a b = true) l ->
  StronglySorted (fun x y => str_leb x y = true) (map fst l).
Proof.
  induction 1 as [|e l Hs IH He]; simpl; constructor; [exact IH|].
  apply Forall_forall. intros x Hx. apply in_map_iff in Hx as (e' & <- & He').
  exact (proj1 (Forall_forall _ _) He e' He').
Qed.

Lemma permutation_filter {A} (p : A -> bool) (l l' : list A) :
  Permutation l l' -> Permutation (filter p l) (filter p l').
Proof.
  induction 1 as [|x l l' _ IH|x y l|l l' l'' _ IH1 _ IH2]; simpl.
  - constructor.
  - destruct (p x); [now constructor|exact IH].
  - destruct (p x), (p y); try reflexivity. apply perm_swap.
  - now transitivity (filter p l').
Qed.

Lemma filter_map_fst (p : str -> bool) (l : list (str * node)) :
  filter p (map fst l) = map fst (filter (fun e => p (fst e)) l).
Proof.
  induction l as [|e l IH]; simpl; [reflexivity|].
  destruct (p (fst e)); simpl; now rewrite IH.
Qed.

Lemma filter_filter {A} (p q : A -> bool) (l : list A) :
  filter q (filter p l) = filter (fun x => p x && q x) l.
Proof.
  induction l as [|x l IH]; simpl; [reflexivity|].
  destruct (p x); simpl; [destruct (q x); now rewrite IH|exact IH].
Qed.

End NameOrder.
Section DateNames.
Import Py Sys Spec.

Lemma digit_ltb (a b : Z) :
  (digit a <? digit b)%N = (a mod 10 <? b mod 10)%Z.
Proof.
  unfold digit.
  pose proof (Z.mod_pos_bound a 10 eq_refl).
  pose proof (Z.mod_pos_bound b 10 eq_refl).
  destruct (Z.ltb_spec (a mod 10) (b mod 10)).
  - apply N.ltb_lt. lia.
  - apply N.ltb_ge. lia.
Qed.

Lemma digit_eqb (a b : Z) :
  (digit a =? digit b)%N = (a mod 10 =? b mod 10)%Z.
Proof.
  unfold digit.
  pose proof (Z.mod_pos_bound a 10 eq_refl).
  pose proof (Z.mod_pos_bound b 10 eq_refl).
  destruct (Z.eqb_spec (a mod 10) (b mod 10)).
  - apply N.eqb_eq. lia.
  - apply N.eqb_neq. lia.
Qed.

(** The decimal form of the years 1000 to 9999, checked year by year. *)
Lemma year_digits_checked :
  forallb (fun n =>
             Py.eqb (str_of_Z (1000 + Z.of_nat n))
               [digit ((1000 + Z.of_nat n) / 1000);
                digit ((1000 + Z.of_nat n) / 100);
                digit ((1000 + Z.of_nat n) / 10);
                digit (1000 + Z.of_nat n)])
    (seq 0 (90 * 100)) = true.
Proof. vm_compute. reflexivity. Qed.

Lemma year_digits (y : Z) :
  (1000 <= y <= 9999)%Z ->
  str_of_Z y = [digit (y / 1000); digit (y / 100); digit (y / 10); digit y].
Proof.
  intros Hy. pose proof year_digits_checked as H.
  rewrite forallb_forall in H. specialize (H (Z.to_nat (y - 1000))).
  replace (1000 + Z.of_nat (Z.to_nat (y - 1000)))%Z with y in H by lia.
  apply eqb_true_iff, H, in_seq. lia.
Qed.

(** An older date gives a name that sorts first. *)
Lemma folder_name_order (d1 d2 : datetime) (slug1 slug2 : str) :
  four_digit_year d1 -> four_digit_year d2 -> dt_ltb d1 d2 = true ->
  str_ltb (folder_name d1 slug1) (folder_name d2 slug2) = true.
Proof.
  intros (Hy1 & Hm1 & Hd1) (Hy2 & Hm2 & Hd2) H.
  apply dt_ltb_spec in H.
  unfold folder_name, strftime_ymd.
  rewrite (year_digits _ Hy1), (year_digits _ Hy2). cbn [app str_ltb].
  rewrite !digit_ltb, !digit_eqb, N.ltb_irrefl, N.eqb_refl.
  cbn [orb andb].
  destruct d1 as [y1 m1 a1], d2 as [y2 m2 a2]. cbn [year month day] in *.
  repeat rewrite ?orb_true_iff, ?andb_true_iff, ?Z.ltb_lt, ?Z.eqb_eq.
  Z.to_euclidean_division_equations. lia.
Qed.

End DateNames.

Section UploadOrder.
Import Py Sys Spec Utils LingqApi Main.

Variable w : world.
Variable config : Config.t.

Lemma find_episodes_run (s : state) :
  find_episodes s
  = (Ok (map fst (filter is_episode
                    (stable_sort name_leb (entries_of (fs s))))), s).
Proof. unfold find_episodes. mrun. now destruct (fs s). Qed.

Lemma slice_to_nil {A} (n : Z) : slice_to n (@nil A) = [].
Proof. unfold slice_to. destruct (0 <=? n)%Z; apply firstn_nil. Qed.

(** The lesson index only sends requests and prints warnings. *)
Lemma lessons_loop_quiet fuel lang pk page m s r s' :
  lessons_loop w fuel lang pk page m s = (r, s') ->
  fs s' = fs s
  /\ exists evs, trace s' = trace s ++ evs /\ Forall quiet evs.
Proof.
  revert page m s. induction fuel as [|fuel IH]; intros page m s.
  - simpl. intros [= <- <-]. split; [reflexivity|]. exists [].
    now rewrite app_nil_r.
  - cbn [lessons_loop]. mrun.
    destruct (w (trace s) (ListLessons lang pk page)) as [|resp].
    + intros [= <- <-]. simpl. split; [reflexivity|]. eexists.
      rewrite <- app_assoc. split; [reflexivity|].
      repeat constructor.
    + destruct (lessons_round resp m) as [m' [| |e]].
      * intros H. apply IH in H as (F & evs & T & Q).
        split; [exact F|]. exists (Sent (ListLessons lang pk page) :: evs).
        rewrite T. simpl. rewrite <- app_assoc. split; [reflexivity|].
        constructor; [reflexivity|exact Q].
      * intros [= <- <-]. simpl. split; [reflexivity|]. eexists.
        split; [reflexivity|]. repeat constructor.
      * intros [= <- <-]. simpl. split; [reflexivity|]. eexists.
        rewrite <- app_assoc. split; [reflexivity|]. repeat constructor.
Qed.

(** What [cmd_upload] goes through, from the sorted episode directories. *)
Lemma select_targets_spec (a : args) (es : list (str * node)) :
  let candidates := map fst (filter (eligible a) es) in
  match select_targets a (map fst (filter is_episode es)) with
  | Some targets =>
      targets = if (limit a =? 0)%Z then candidates
                else slice_to (limit a) candidates
  | None => candidates = []
  end.
Proof.
  intros candidates.
  assert (E : truthy (date a) = true ->
              filter (starts_with (or_empty (date a)))
                (map fst (filter is_episode es)) = candidates).
  { intros Ht. unfold candidates, eligible. rewrite Ht.
    now rewrite filter_map_fst, filter_filter. }
  assert (E' : truthy (date a) = false ->
               map fst (filter is_episode es) = candidates).
  { intros Ht. unfold candidates, eligible. rewrite Ht. f_equal.
    apply filter_ext. intros e. now rewrite andb_true_r. }
  unfold select_targets. destruct (truthy (date a)).
  - rewrite (E eq_refl). now destruct candidates.
  - now rewrite (E' eq_refl).
Qed.

(** C9, amended: the candidates of [cmd_upload] are the eligible
    directories in ascending order of name; a positive limit keeps the
    first [N] of them, each one below every candidate left out; they are
    handed to [upload_single_episode] in that order, all of them when the
    command returns; and of two directories named after dates whose
    years have four digits (1000 to 9999), the one of the older date
    sorts first, so among such directories the oldest episodes come
    first. *)
Theorem C9_cmd_upload_order (fuel : nat) (a : args) (s : state)
  (r : result unit) (s' : state) :
  cmd_upload w config fuel a s = (r, s') ->
  exists candidates targets done rest,
    Permutation candidates (map fst (filter (eligible a) (entries_of (fs s))))
    /\ StronglySorted (fun x y => str_leb x y = true) candidates
    /\ ((0 < limit a)%Z ->
        targets = firstn (Z.to_nat (limit a)) candidates
        /\ forall x y, In x targets -> In y candidates -> ~ In y targets ->
                       str_leb x y = true)
    /\ (limit a = 0%Z -> targets = candidates)
    /\ targets = done ++ rest
    /\ processed (trace s') = processed (trace s) ++ done
    /\ (r = Ok tt -> rest = [])
    /\ (forall d1 d2 slug1 slug2,
          four_digit_year d1 -> four_digit_year d2 -> dt_ltb d1 d2 = true ->
          str_ltb (folder_name d1 slug1) (folder_name d2 slug2) = true).
Proof.
  intros Hrun.
  set (sorted := stable_sort name_leb (entries_of (fs s))).
  set (candidates := map fst (filter (eligible a) sorted)).
  set (targets := if (limit a =? 0)%Z then candidates
                  else slice_to (limit a) candidates).
  assert (Hperm : Permutation candidates
                    (map fst (filter (eligible a) (entries_of (fs s))))).
  { apply Permutation_map, permutation_filter, stable_sort_perm. }
  assert (Hsorted : StronglySorted (fun x y => str_leb x y = true) candidates).
  { apply sorted_map_fst, sorted_filter, stable_sort_sorted;
      [apply name_leb_total|apply name_leb_trans]. }
  assert (Hlimit : (0 < limit a)%Z ->
            targets = firstn (Z.to_nat (limit a)) candidates
            /\ forall x y, In x targets -> In y candidates ->
                           ~ In y targets -> str_leb x y = true).
  { intros Hpos.
    assert (E : targets = firstn (Z.to_nat (limit a)) candidates).
    { unfold targets, slice_to. destruct (Z.eqb_spec (limit a) 0); [lia|].
      destruct (Z.leb_spec 0 (limit a)); [reflexivity|lia]. }
    split; [exact E|]. rewrite E. intros x y.
    exact (firstn_first _ _ _ _ x y Hsorted). }
  assert (Hzero : limit a = 0%Z -> targets = candidates).
  { intros E. unfold targets. now rewrite E. }
  assert (Hdone : exists done rest,
            targets = done ++ rest
            /\ processed (trace s') = processed (trace s) ++ done
            /\ (r = Ok tt -> rest = [])).
  { revert Hrun. unfold cmd_upload, init. unfold bind at 1.
    destruct (truthy (Config.LINGQ_API_TOKEN config)).
    2:{ intros [= <- <-]. exists [], targets. rewrite app_nil_r.
        repeat split; auto. discriminate. }
    cbv [ret]. unfold bind at 1. rewrite find_episodes_run. fold sorted.
    pose proof (select_targets_spec a sorted) as Hsel. cbv zeta in Hsel.
    fold candidates in Hsel.
    destruct (select_targets a (map fst (filter is_episode sorted)))
      as [ts|].
    2:{ intros [= <- <-]. simpl. exists [], [].
        unfold targets. rewrite Hsel, slice_to_nil, processed_app. simpl.
        repeat split; auto. now destruct (limit a =? 0)%Z. }
    subst ts. fold targets. mrun.
    match goal with
    | |- context [get_collection_lessons w fuel ?l ?c ?s0] =>
        destruct (get_collection_lessons w fuel l c s0) as [r1 s1] eqn:E1
    end.
    apply lessons_loop_quiet in E1 as (F1 & ev1 & T1 & Q1).
    apply quiet_silent in Q1 as [Q1 _]. cbn [trace] in T1.
    assert (P1 : processed (trace s1) = processed (trace s)).
    { rewrite T1, !processed_app, Q1. simpl. now rewrite !app_nil_r. }
    destruct r1 as [existing|e|];
      try (intros [= <- <-]; exists [], targets; rewrite app_nil_r;
           repeat split; auto; discriminate).
    match goal with
    | |- context [upload_all w config targets existing 0 ?s2] =>
        destruct (upload_all w config targets existing 0 s2) as [r3 s3] eqn:E3
    end.
    apply upload_all_inv in E3 as (F3 & R3 & (done & rest & D3 & P3 & L3) & _).
    cbn [trace] in P3. rewrite processed_app, P1 in P3. simpl in P3.
    rewrite app_nil_r in P3.
    destruct r3 as [count|e|]; [| |contradiction].
    - intros [= <- <-]. simpl. exists done, rest.
      rewrite processed_app, P3. simpl. rewrite app_nil_r.
      repeat split; auto. intros _. now apply (L3 count).
    - intros [= <- <-]. exists done, rest. repeat split; auto. discriminate. }
  destruct Hdone as (done & rest & D & Pr & L).
  exists candidates, targets, done, rest.
  repeat split; auto; try (now apply Hlimit).
  apply folder_name_order.
Qed.

End UploadOrder.

Section UploadOrderExamples.
Import Py Sys Spec Utils Main Examples.

(** Of the three directories, with [--limit 2], the two oldest are gone
    through, the oldest first; the one of 15 March is left out. *)
Lemma C9_cmd_upload_order_witness :
  exists r s',
    cmd_upload offline cfg 1 upload_two three_days = (r, s')
    /\ processed (trace s')
       = [lit "2024-03-13-journal"; lit "2024-03-14-journal"]
    /\ exists candidates targets done rest,
         Permutation candidates
           (map fst (filter (eligible upload_two) (entries_of (fs three_days))))
         /\ targets = firstn 2 candidates
         /\ targets = done ++ rest
         /\ processed (trace s') = processed (trace three_days) ++ done.
Proof.
  exists (fst (cmd_upload offline cfg 1 upload_two three_days)),
    (snd (cmd_upload offline cfg 1 upload_two three_days)).
  split; [now destruct (cmd_upload offline cfg 1 upload_two three_days)|].
  split; [vm_compute; reflexivity|].
  destruct (C9_cmd_upload_order offline cfg 1 upload_two three_days
              (fst (cmd_upload offline cfg 1 upload_two three_days))
              (snd (cmd_upload offline cfg 1 upload_two three_days)))
    as (candidates & targets & done & rest & Hp & _ & Hl & _ & Hd & Hpr & _).
  - now destruct (cmd_upload offline cfg 1 upload_two three_days).
  - exists candidates, targets, done, rest.
    destruct (Hl eq_refl) as [Ht _]. auto.
Defined.

(** C9, as the claim states it, fails: ascending order of name is not
    always oldest first.  [strftime] prints the year 999 with three
    digits, so the directory of 2 January 999 is named [999-01-02-...]
    and sorts after the one of 15 March 2024: [cmd_upload] handles the
    episode of 2024 first, and with [--limit 1] it is the only target. *)
Lemma C9_short_year_sorts_last :
  dt_ltb year_999 (march 15) = true
  /\ folder_name year_999 (lit "journal") = lit "999-01-02-journal"
  /\ folder_name (march 15) (lit "journal") = lit "2024-03-15-journal"
  /\ processed (trace (snd (cmd_upload offline cfg 1 upload_two short_year)))
     = [lit "2024-03-15-journal"; lit "999-01-02-journal"]
  /\ processed
       (trace (snd (cmd_upload offline cfg 1
                      {| limit := 1; pages := 3; since := None; date := None |}
                      short_year)))
     = [lit "2024-03-15-journal"].
Proof. vm_compute. repeat split. Qed.

End UploadOrderExamples.

(* ===================================================================== *)
(** * Properties: the metadata record *)
(* ===================================================================== *)

Section Lines.
Import Py Sys Spec Utils Scraper.
#[local] Arguments N.eqb : simpl never.

Lemma no_char_app c (a b : str) :
  no_char c (a ++ b) <-> no_char c a /\ no_char c b.
Proof. unfold no_char. rewrite existsb_app. apply orb_false_iff. Qed.

Lemma universal_newlines_id (s : str) :
  no_char carriage_return s -> universal_newlines s = s.
Proof.
  unfold no_char. induction s as [|c s IH]; simpl; [reflexivity|].
  intros H. apply orb_false_iff in H as [Hc Hs].
  rewrite N.eqb_sym in Hc. rewrite Hc. now rewrite IH.
Qed.

Lemma split_no_sep sep (l : str) : no_char sep l -> split sep l = [l].
Proof.
  unfold no_char. induction l as [|c l IH]; simpl; [reflexivity|].
  intros H. apply orb_false_iff in H as [Hc Hl].
  rewrite N.eqb_sym in Hc. rewrite Hc, (IH Hl). reflexivity.
Qed.

Lemma split_app_sep sep (l rest : str) :
  no_char sep l -> split sep (l ++ sep :: rest) = l :: split sep rest.
Proof.
  unfold no_char. induction l as [|c l IH]; simpl.
  - now rewrite N.eqb_refl.
  - intros H. apply orb_false_iff in H as [Hc Hl].
    rewrite N.eqb_sym in Hc. rewrite Hc, (IH Hl). reflexivity.
Qed.

(** Four lines without a line feed, joined and split again. *)
Lemma split_join_four (l1 l2 l3 l4 : str) :
  no_char newline l1 -> no_char newline l2 -> no_char newline l3 ->
  no_char newline l4 ->
  split newline (join [newline] [l1; l2; l3; l4]) = [l1; l2; l3; l4].
Proof.
  intros H1 H2 H3 H4. cbn [join app].
  rewrite (split_app_sep _ _ _ H1), (split_app_sep _ _ _ H2),
    (split_app_sep _ _ _ H3), (split_no_sep _ _ H4).
  reflexivity.
Qed.

Lemma split_once_key sep (key value : str) :
  no_char sep key -> split_once sep (key ++ sep :: value) = Some (key, value).
Proof.
  unfold no_char. induction key as [|c key IH]; simpl.
  - now rewrite N.eqb_refl.
  - intros H. apply orb_false_iff in H as [Hc Hk].
    rewrite N.eqb_sym in Hc. rewrite Hc, (IH Hk). reflexivity.
Qed.

Lemma parse_line_key (meta : dict str str) (key value : str) :
  no_char colon key ->
  parse_line meta (key ++ colon :: value)
  = dict_set Py.eqb (strip key) (strip value) meta.
Proof.
  intros H. unfold parse_line, has_colon.
  rewrite existsb_app. cbn [existsb]. rewrite N.eqb_refl.
  cbn [orb]. rewrite orb_true_r.
  now rewrite (split_once_key _ _ _ H).
Qed.

(** Stripping a string without white space changes nothing. *)
Lemma drop_while_head p (s : str) :
  match s with [] => True | c :: _ => p c = false end -> drop_while p s = s.
Proof. destruct s as [|c s]; simpl; [reflexivity|]. now intros ->. Qed.

Lemma strip_by_none p (s : str) :
  forallb (fun c => negb (p c)) s = true -> strip_by p s = s.
Proof.
  intros H. unfold strip_by, lstrip_by, rstrip_by.
  assert (Hd : forall l : str,
             forallb (fun c => negb (p c)) l = true -> drop_while p l = l).
  { intros l Hl. apply drop_while_head. destruct l as [|c l]; [exact I|].
    simpl in Hl. apply andb_true_iff in Hl as [Hc _].
    now apply negb_true_iff. }
  rewrite (Hd s H), Hd; [apply rev_involutive|].
  rewrite forallb_forall in *. intros x Hx. apply H. now apply in_rev.
Qed.

Lemma strip_space_cons (s : str) : strip (32%N :: s) = strip s.
Proof. reflexivity. Qed.

(** White-space-free strings hold no line break. *)
Lemma no_space_no_linebreak (s : str) :
  forallb (fun c => negb (is_space c)) s = true -> no_linebreak s.
Proof.
  unfold no_linebreak, no_char. induction s as [|c s IH]; simpl; [auto|].
  intros H. apply andb_true_iff in H as [Hc Hs]. destruct (IH Hs) as [I1 I2].
  rewrite I1, I2, !orb_false_r. apply negb_true_iff in Hc.
  split; apply N.eqb_neq; intros <-; discriminate.
Qed.

End Lines.

Section Mp3Regex.
Import Py Sys Spec Scraper.
#[local] Arguments N.eqb : simpl never.

Lemma no_space_app (a b : str) : no_space a -> no_space b -> no_space (a ++ b).
Proof. unfold no_space. rewrite forallb_app. now intros -> ->. Qed.

Lemma take_while_all p (s : str) : forallb p (take_while p s) = true.
Proof.
  induction s as [|c s IH]; simpl; [reflexivity|].
  destruct (p c) eqn:E; simpl; [now rewrite E|reflexivity].
Qed.

Lemma starts_with_prefix (prefix s : str) :
  starts_with prefix s = true -> exists rest, s = prefix ++ rest.
Proof.
  revert s. induction prefix as [|a p IH]; intros s; simpl; [eauto|].
  destruct s as [|b s]; [discriminate|]. intros H.
  apply andb_true_iff in H as [E H]. apply N.eqb_eq in E. subst b.
  destruct (IH _ H) as [rest ->]. eauto.
Qed.

(** What [greedy_mp3] returns is made of characters of its argument. *)
Lemma greedy_mp3_chars p (r m : str) :
  greedy_mp3 r = Some m -> forallb p r = true -> forallb p m = true.
Proof.
  revert m. induction r as [|c r IH]; [discriminate|].
  cbn [greedy_mp3 forallb]. intros m H Hr.
  apply andb_true_iff in Hr as [Hc Hr].
  destruct (greedy_mp3 r) as [m'|].
  - injection H as <-. simpl. now rewrite Hc, (IH m' eq_refl Hr).
  - destruct (starts_with (lit ".mp3") r) eqn:S; [|discriminate].
    injection H as <-. apply starts_with_prefix in S as [rest ->].
    rewrite forallb_app in Hr. apply andb_true_iff in Hr as [Hr _].
    simpl. now rewrite Hc.
Qed.

Lemma url_char_no_space (m : str) : forallb url_char m = true -> no_space m.
Proof.
  unfold no_space. induction m as [|c m IH]; simpl; [reflexivity|].
  intros H. apply andb_true_iff in H as [Hc Hm]. rewrite (IH Hm).
  unfold url_char in Hc. apply andb_true_iff in Hc as [Hc _]. now rewrite Hc.
Qed.

Lemma match_rest_no_space (prefix rest m : str) :
  no_space prefix -> match_rest prefix rest = Some m -> no_space m.
Proof.
  intros Hp. unfold match_rest.
  destruct (starts_with (lit "://") rest); [|discriminate].
  destruct (greedy_mp3 (take_while url_char (skipn 3 rest))) as [g|] eqn:G;
    [|discriminate].
  intros [= <-]. apply no_space_app; [exact Hp|].
  change (no_space (lit "://" ++ g)).
  apply no_space_app; [reflexivity|]. apply url_char_no_space.
  apply (greedy_mp3_chars _ _ _ G), take_while_all.
Qed.

Lemma match_mp3_at_no_space (s m : str) :
  match_mp3_at s = Some m -> no_space m.
Proof.
  unfold match_mp3_at. destruct (starts_with (lit "http") s); [|discriminate].
  destruct (starts_with (lit "s") (skipn 4 s)).
  - destruct (match_rest (lit "https") (skipn 1 (skipn 4 s))) as [m'|] eqn:E.
    + intros [= <-]. now apply (match_rest_no_space (lit "https") _ _ eq_refl E).
    + apply match_rest_no_space. reflexivity.
  - apply match_rest_no_space. reflexivity.
Qed.

(** A match of [MP3_REGEX] holds no white space. *)
Lemma mp3_search_no_space (html m : str) :
  mp3_search html = Some m -> no_space m.
Proof.
  induction html as [|c html IH]; [discriminate|].
  cbn [mp3_search].
  destruct (match_mp3_at (c :: html)) as [m'|] eqn:E; [|exact IH].
  intros [= <-]. now apply (match_mp3_at_no_space _ _ E).
Qed.

End Mp3Regex.

Section Metadata.
Import Py Sys Spec Utils Scraper.

Variable w : world.

Lemma write_text_ok dir name data s s' :
  write_text dir name data s = (Ok tt, s') ->
  lookup_file dir name (fs s') = Some (Text data).
Proof.
  unfold write_text. destruct (encodable data).
  - intros H. now apply write_file_ok in H.
  - unfold bind, raise.
    destruct (write_file dir name (Text []) s) as [[[]|e|] s1]; discriminate.
Qed.

(** A completed run of [process_episode]: the page it fetched, the folder
    it returns, and the last write. *)
Lemma process_episode_inv date url download s folder s' :
  process_episode w date url download s = (Ok folder, s') ->
  exists resp s_mid,
    w (trace s) (Get url) = Answer resp
    /\ folder = folder_name date (safe_slug_from_url url)
    /\ write_text folder episode_txt
         (join [newline]
            (metadata_lines url (mp3_search (text resp))
               (extract_transcript (parsed resp))
               (extract_image_url (parsed resp)))) s_mid
       = (Ok tt, s').
Proof.
  unfold process_episode. intros H.
  apply bind_Ok_inv in H as ([] & s1 & M & H).
  apply mkdir_p_ok in M as [T1 _].
  apply bind_Ok_inv in H as (media & s2 & E & H).
  unfold extract_media, session_get in E.
  apply bind_Ok_inv in E as (resp & s3 & E1 & E2).
  apply bind_Ok_inv in E1 as (rep & s4 & Hs & Hr).
  unfold send in Hs. injection Hs as <- <-.
  destruct (w (trace s1) (Get url)) as [|resp'] eqn:Hw; [discriminate|].
  injection Hr as -> <-.
  apply bind_Ok_inv in E2 as ([] & s5 & _ & E2).
  injection E2 as <- <-.
  apply bind_Ok_inv in H as ([] & s6 & _ & H).
  apply bind_Ok_inv in H as ([] & s7 & _ & H).
  apply bind_Ok_inv in H as ([] & s8 & _ & H).
  apply bind_Ok_inv in H as ([] & s9 & W & H).
  injection H as <- <-.
  exists resp, s8. rewrite <- T1. repeat split; auto.
Qed.

Lemma lit_no_linebreak_line (prefix value : str) :
  no_linebreak prefix -> no_linebreak value -> no_linebreak (prefix ++ value).
Proof.
  unfold no_linebreak. intros [P1 P2] [V1 V2].
  split; apply no_char_app; auto.
Qed.

Lemma or_empty_mp3_no_space (html : str) :
  no_space (or_empty (mp3_search html)).
Proof.
  destruct (mp3_search html) as [m|] eqn:E; [|reflexivity].
  exact (mp3_search_no_space _ _ E).
Qed.

(** The four lines of the record hold no line break when the episode URL
    and the image URL hold none. *)
Lemma metadata_lines_clean (url html : str) (transcript image_url : option str) :
  no_linebreak url -> no_linebreak (or_empty image_url) ->
  Forall no_linebreak
    (metadata_lines url (mp3_search html) transcript image_url).
Proof.
  intros Hu Hi. unfold metadata_lines.
  assert (L : forall k : string, no_linebreak (lit k) ->
                forall v, no_linebreak v -> no_linebreak (lit k ++ v))
    by (intros k Hk v Hv; now apply lit_no_linebreak_line).
  repeat apply Forall_cons; [| | | |apply Forall_nil].
  - apply L; [split; reflexivity|exact Hu].
  - apply L; [split; reflexivity|].
    apply no_space_no_linebreak, or_empty_mp3_no_space.
  - apply L; [split; reflexivity|].
    destruct (truthy transcript); split; reflexivity.
  - apply L; [split; reflexivity|exact Hi].
Qed.

(** What a reader of the record sees: the four lines. *)
Lemma metadata_read_back (l1 l2 l3 l4 : str) :
  Forall no_linebreak [l1; l2; l3; l4] ->
  let content := join [newline] [l1; l2; l3; l4] in
  universal_newlines content = content
  /\ split newline content = [l1; l2; l3; l4].
Proof.
  intros H.
  inversion H as [|? ? [N1 R1] H']; subst.
  inversion H' as [|? ? [N2 R2] H'']; subst.
  inversion H'' as [|? ? [N3 R3] H''']; subst.
  inversion H''' as [|? ? [N4 R4] _]; subst.
  split; [|now apply split_join_four].
  apply universal_newlines_id. cbn [join].
  assert (C : forall a b : str,
             no_char carriage_return a -> no_char carriage_return b ->
             no_char carriage_return (a ++ [newline] ++ b)).
  { intros a b Ha Hb. apply no_char_app. split; [exact Ha|].
    apply no_char_app. split; [reflexivity|exact Hb]. }
  auto.
Qed.

(** The record of a completed run, under the two conditions on the
    URLs. *)
Lemma process_episode_record date url download s folder s' resp :
  process_episode w date url download s = (Ok folder, s') ->
  w (trace s) (Get url) = Answer resp ->
  no_linebreak url ->
  no_linebreak (or_empty (extract_image_url (parsed resp))) ->
  let lines := metadata_lines url (mp3_search (text resp))
                 (extract_transcript (parsed resp))
                 (extract_image_url (parsed resp)) in
  folder = folder_name date (safe_slug_from_url url)
  /\ lookup_file folder episode_txt (fs s')
     = Some (Text (join [newline] lines))
  /\ universal_newlines (join [newline] lines) = join [newline] lines
  /\ split newline (join [newline] lines) = lines.
Proof.
  intros Hrun Hw Hu Hi lines.
  apply process_episode_inv in Hrun as (resp' & s_mid & Hw' & Hf & Hwr).
  rewrite Hw in Hw'. injection Hw' as <-.
  apply write_text_ok in Hwr. fold lines in Hwr.
  split; [exact Hf|]. split; [exact Hwr|].
  exact (metadata_read_back _ _ _ _
           (metadata_lines_clean url _ _ _ Hu Hi)).
Qed.

(** C7, amended: after a completed run whose episode URL and extracted
    image URL hold no line break, [episode.txt] exists and reads as
    exactly four lines, [url], [mp3], [transcript] and [image] in that
    order, the value being empty for an absent audio URL, transcript or
    image URL, whichever of the three were extracted. *)
Theorem C7_episode_txt_four_lines (date : datetime) (url : str)
  (download : bool) (s : state) (folder : str) (s' : state) (resp : response) :
  process_episode w date url download s = (Ok folder, s') ->
  w (trace s) (Get url) = Answer resp ->
  no_linebreak url ->
  no_linebreak (or_empty (extract_image_url (parsed resp))) ->
  folder = folder_name date (safe_slug_from_url url)
  /\ exists content,
       lookup_file folder episode_txt (fs s') = Some (Text content)
       /\ universal_newlines content = content
       /\ split newline content
          = [ lit "url: " ++ url;
              lit "mp3: " ++ or_empty (mp3_search (text resp));
              lit "transcript: "
                ++ (if truthy (extract_transcript (parsed resp))
                    then lit "transcript.txt" else []);
              lit "image: " ++ or_empty (extract_image_url (parsed resp)) ]
       /\ (mp3_search (text resp) = None ->
           nth 1 (split newline content) [] = lit "mp3: ")
       /\ (extract_transcript (parsed resp) = None ->
           nth 2 (split newline content) [] = lit "transcript: ")
       /\ (extract_image_url (parsed resp) = None ->
           nth 3 (split newline content) [] = lit "image: ").
Proof.
  intros Hrun Hw Hu Hi.
  destruct (process_episode_record _ _ _ _ _ _ _ Hrun Hw Hu Hi)
    as (Hf & Hl & Hn & Hs).
  split; [exact Hf|]. eexists. split; [exact Hl|]. split; [exact Hn|].
  rewrite Hs. unfold metadata_lines. split; [reflexivity|].
  repeat split; intros ->; reflexivity.
Qed.

Lemma strip_no_space (v : str) : no_space v -> strip v = v.
Proof. apply strip_by_none. Qed.

Lemma parse_four_lines (v1 v2 v3 v4 : str) :
  fold_left parse_line
    [lit "url: " ++ v1; lit "mp3: " ++ v2; lit "transcript: " ++ v3;
     lit "image: " ++ v4] []
  = [ (lit "url", strip v1); (lit "mp3", strip v2);
      (lit "transcript", strip v3); (lit "image", strip v4) ].
Proof.
  cbn [fold_left].
  change (lit "url: " ++ v1) with (lit "url" ++ colon :: 32%N :: v1).
  change (lit "mp3: " ++ v2) with (lit "mp3" ++ colon :: 32%N :: v2).
  change (lit "transcript: " ++ v3)
    with (lit "transcript" ++ colon :: 32%N :: v3).
  change (lit "image: " ++ v4) with (lit "image" ++ colon :: 32%N :: v4).
  rewrite !parse_line_key by reflexivity.
  rewrite !strip_space_cons.
  change (strip (lit "url")) with (lit "url").
  change (strip (lit "mp3")) with (lit "mp3").
  change (strip (lit "transcript")) with (lit "transcript").
  change (strip (lit "image")) with (lit "image").
  reflexivity.
Qed.

(** C10, amended: when the episode URL holds no line break and no white
    space at either end, and the extracted image URL holds no line break,
    [parse_episode_meta] on the directory of a completed run returns a
    mapping whose [url] entry is the episode URL and whose [mp3] entry is
    the extracted audio URL, or the empty string when there was none. *)
Theorem C10_metadata_round_trip (date : datetime) (url : str)
  (download : bool) (s : state) (folder : str) (s' : state) (resp : response) :
  process_episode w date url download s = (Ok folder, s') ->
  w (trace s) (Get url) = Answer resp ->
  no_linebreak url ->
  strip url = url ->
  no_linebreak (or_empty (extract_image_url (parsed resp))) ->
  exists meta,
    parse_episode_meta folder s' = (Ok meta, s')
    /\ dict_get Py.eqb (lit "url") meta = Some url
    /\ dict_get Py.eqb (lit "mp3") meta
       = Some (or_empty (mp3_search (text resp))).
Proof.
  intros Hrun Hw Hu Hstrip Hi.
  destruct (process_episode_record _ _ _ _ _ _ _ Hrun Hw Hu Hi)
    as (_ & Hl & Hn & Hs).
  eexists. split.
  - unfold parse_episode_meta. mrun. rewrite Hl. mrun.
    rewrite (read_text_ok _ _ _ _ Hl), Hn, Hs. reflexivity.
  - unfold metadata_lines. rewrite parse_four_lines, Hstrip.
    rewrite (strip_no_space _ (or_empty_mp3_no_space (text resp))).
    split; reflexivity.
Qed.

End Metadata.

Section MetadataExamples.
Import Py Sys Spec Utils Scraper Examples.

Lemma episode_run :
  process_episode episode_site (march 15) (episode_url 15) true empty_disk
  = (Ok folder_0315,
     snd (process_episode episode_site (march 15) (episode_url 15) true
            empty_disk)).
Proof. vm_compute. reflexivity. Qed.

Lemma C7_episode_txt_four_lines_witness :
  exists content,
    lookup_file folder_0315 episode_txt
      (fs (snd (process_episode episode_site (march 15) (episode_url 15) true
                  empty_disk)))
    = Some (Text content)
    /\ split newline content
       = [ lit "url: " ++ episode_url 15;
           lit "mp3: " ++ audio_url;
           lit "transcript: transcript.txt";
           lit "image: https://img.rfi.fr/a.jpg" ].
Proof.
  destruct (C7_episode_txt_four_lines episode_site (march 15) (episode_url 15)
              true empty_disk folder_0315 _ episode_page episode_run eq_refl)
    as (_ & content & Hl & _ & Hs & _).
  - split; vm_compute; reflexivity.
  - split; vm_compute; reflexivity.
  - exists content. split; [exact Hl|]. rewrite Hs. vm_compute. reflexivity.
Defined.

(** C7, as the claim states it, fails: the [og:image] content of this page
    holds a line feed, the run completes, and [episode.txt] has five
    lines. *)
Lemma C7_five_lines :
  let run := process_episode two_line_site (march 15) (episode_url 15) true
               empty_disk in
  fst run = Ok folder_0315
  /\ exists content,
       lookup_file folder_0315 episode_txt (fs (snd run)) = Some (Text content)
       /\ length (split newline content) = 5
       /\ split newline content
          = [ lit "url: " ++ episode_url 15;
              lit "mp3: ";
              lit "transcript: ";
              lit "image: https://img.rfi.fr/a.jpg";
              lit "url: https://example.org/other" ].
Proof.
  split; [vm_compute; reflexivity|].
  eexists. split; [vm_compute; reflexivity|]. split; vm_compute; reflexivity.
Qed.

Lemma C10_metadata_round_trip_witness :
  exists meta,
    fst (parse_episode_meta folder_0315
           (snd (process_episode episode_site (march 15) (episode_url 15) true
                   empty_disk)))
    = Ok meta
    /\ dict_get Py.eqb (lit "url") meta = Some (episode_url 15)
    /\ dict_get Py.eqb (lit "mp3") meta = Some audio_url.
Proof.
  destruct (C10_metadata_round_trip episode_site (march 15) (episode_url 15)
              true empty_disk folder_0315 _ episode_page episode_run eq_refl)
    as (meta & Hp & Hu & Hm).
  - split; vm_compute; reflexivity.
  - vm_compute. reflexivity.
  - split; vm_compute; reflexivity.
  - exists meta. rewrite Hp. split; [reflexivity|]. split; [exact Hu|].
    rewrite Hm. vm_compute. reflexivity.
Defined.

(** C10, as the claim states it, fails: the episode URL holds no line
    break and no outer white space, the run completes, and the second
    line of the image URL replaces the [url] entry. *)
Lemma C10_url_entry_replaced :
  let run := process_episode two_line_site (march 15) (episode_url 15) true
               empty_disk in
  fst run = Ok folder_0315
  /\ no_linebreak (episode_url 15)
  /\ strip (episode_url 15) = episode_url 15
  /\ exists meta,
       fst (parse_episode_meta folder_0315 (snd run)) = Ok meta
       /\ dict_get Py.eqb (lit "url") meta
          = Some (lit "https://example.org/other")
       /\ dict_get Py.eqb (lit "url") meta <> Some (episode_url 15).
Proof.
  split; [vm_compute; reflexivity|].
  split; [split; vm_compute; reflexivity|].
  split; [vm_compute; reflexivity|].
  eexists. split; [vm_compute; reflexivity|].
  split; vm_compute; [reflexivity|discriminate].
Qed.

End MetadataExamples.

(* ===================================================================== *)
(** * Properties: the lesson index *)
(* ===================================================================== *)

Section LessonIndex.
Import Py Sys Spec LingqApi.

(** Whether the loop over the lessons of a page raises does not depend on
    the mapping built so far. *)
Lemma add_lessons_outcome (results : list Json.value) (m m' : mapping) :
  snd (add_lessons results m) = snd (add_lessons results m').
Proof.
  revert m m'. induction results as [|lesson rest IH]; intros m m';
    [reflexivity|].
  destruct lesson as [| | | | |d]; try reflexivity. cbn [add_lessons].
  destruct (Json.truthy (Json.get (lit "title") d)
            && Json.truthy (Json.or_else (Json.get (lit "id") d)
                              (Json.get (lit "pk") d))); [|apply IH].
  destruct (Json.hashable (Json.get (lit "title") d));
    [apply IH|reflexivity].
Qed.

Lemma lessons_round_outcome (resp : response) (m : mapping) :
  snd (lessons_round resp m) = snd (lessons_round resp []).
Proof.
  unfold lessons_round.
  destruct (status_code resp =? 404)%Z; [reflexivity|].
  destruct ((400 <=? status_code resp)%Z && (status_code resp <? 600)%Z);
    [reflexivity|].
  destruct (json resp) as [data|]; [|reflexivity].
  destruct (negb (Json.truthy (_normalize_collection_list data)));
    [reflexivity|].
  destruct (iterate (_normalize_collection_list data)) as [lessons|];
    [|reflexivity].
  pose proof (add_lessons_outcome lessons m []) as H.
  destruct (add_lessons lessons m) as [m1 [e1|]],
           (add_lessons lessons []) as [m2 [e2|]]; simpl in H;
    try discriminate; try (injection H as ->); try reflexivity.
  destruct data; try reflexivity.
  now destruct (negb (Json.truthy (Json.get (lit "next") d))).
Qed.

Lemma page_requests_S lang pk p n :
  page_requests lang pk p (S n)
  = Sent (ListLessons lang pk p) :: page_requests lang pk (p + 1) n.
Proof.
  unfold page_requests. cbn [seq map]. rewrite Z.add_0_r. f_equal.
  rewrite <- seq_shift, map_map. apply map_ext. intros i.
  do 2 f_equal. lia.
Qed.

Lemma requests_page_requests lang pk p n :
  requests (page_requests lang pk p n) = page_requests lang pk p n.
Proof.
  unfold page_requests, requests. induction (seq 0 n) as [|i l IH];
    simpl; [reflexivity|]. now rewrite IH.
Qed.

Lemma length_page_requests lang pk p n :
  length (page_requests lang pk p n) = n.
Proof. unfold page_requests. now rewrite length_map, length_seq. Qed.

Variable w : world.

(** As long as the replies do not stop it, the loop goes from page to
    page, sending one request each time and printing nothing. *)
Lemma lessons_loop_runs (n fuel : nat) lang pk (p : Z) (m : mapping) (s : state) :
  (forall i, i < n -> stops (reply_from w (trace s) lang pk p i) = false) ->
  n <= fuel ->
  exists m1,
    lessons_loop w fuel lang pk p m s
    = lessons_loop w (fuel - n) lang pk (p + Z.of_nat n) m1
        {| fs := fs s; trace := trace s ++ page_requests lang pk p n |}.
Proof.
  revert fuel p m s. induction n as [|n IH]; intros fuel p m s Hgo Hle.
  - exists m. rewrite Nat.sub_0_r, Z.add_0_r. unfold page_requests.
    simpl. rewrite app_nil_r. now destruct s.
  - destruct fuel as [|fuel]; [lia|]. cbn [lessons_loop]. mrun.
    pose proof (Hgo 0 (Nat.lt_0_succ n)) as H0.
    unfold reply_from, page_requests in H0. simpl in H0.
    rewrite app_nil_r, Z.add_0_r in H0.
    destruct (w (trace s) (ListLessons lang pk p)) as [|resp];
      [discriminate|].
    cbn [stops] in H0. rewrite <- (lessons_round_outcome resp m) in H0.
    destruct (lessons_round resp m) as [m' [| |e]]; try discriminate.
    destruct (IH fuel (p + 1)%Z m'
                {| fs := fs s;
                   trace := trace s ++ [Sent (ListLessons lang pk p)] |})
      as [m1 ->].
    + intros i Hi. specialize (Hgo (S i) (proj1 (Nat.succ_lt_mono _ _) Hi)).
      unfold reply_from in *. cbn [trace].
      rewrite page_requests_S in Hgo. rewrite <- app_assoc. simpl.
      replace (p + 1 + Z.of_nat i)%Z with (p + Z.of_nat (S i))%Z by lia.
      exact Hgo.
    + lia.
    + exists m1. cbn [fs trace Nat.sub]. rewrite page_requests_S.
      rewrite <- app_assoc. simpl.
      replace (p + 1 + Z.of_nat n)%Z with (p + Z.of_nat (S n))%Z by lia.
      reflexivity.
Qed.

(** A reply that stops the loop ends the call after this one request. *)
Lemma lessons_loop_stops fuel lang pk (p : Z) (m : mapping) (s : state) :
  stops (w (trace s) (ListLessons lang pk p)) = true ->
  exists m' s',
    lessons_loop w (S fuel) lang pk p m s = (Ok m', s')
    /\ fs s' = fs s
    /\ requests (trace s')
       = requests (trace s) ++ [Sent (ListLessons lang pk p)].
Proof.
  intros H. cbn [lessons_loop]. mrun.
  destruct (w (trace s) (ListLessons lang pk p)) as [|resp].
  - do 2 eexists. split; [reflexivity|]. simpl. split; [reflexivity|].
    rewrite !requests_app. simpl. now rewrite app_nil_r.
  - cbn [stops] in H. rewrite <- (lessons_round_outcome resp m) in H.
    destruct (lessons_round resp m) as [m' [| |e]]; [discriminate| |].
    + do 2 eexists. split; [reflexivity|]. simpl. split; [reflexivity|].
      now rewrite requests_app.
    + do 2 eexists. split; [reflexivity|]. simpl. split; [reflexivity|].
      rewrite !requests_app. simpl. now rewrite app_nil_r.
Qed.

Lemma page_requests_snoc lang pk p n :
  page_requests lang pk p (S n)
  = page_requests lang pk p n
    ++ [Sent (ListLessons lang pk (p + Z.of_nat n))].
Proof. unfold page_requests. now rewrite seq_S, map_app. Qed.

(** The replies that end the pagination. *)
Lemma stops_cases :
  stops Unreachable = true
  /\ (forall resp, status_code resp = 404%Z -> stops (Answer resp) = true)
  /\ (forall resp data,
        json resp = Some data ->
        Json.truthy (_normalize_collection_list data) = false ->
        stops (Answer resp) = true)
  /\ (forall resp d,
        json resp = Some (Json.Dict d) ->
        Json.truthy (Json.get (lit "next") d) = false ->
        stops (Answer resp) = true)
  /\ (forall resp l, json resp = Some (Json.List l) ->
        stops (Answer resp) = true).
Proof.
  split; [reflexivity|].
  assert (G : forall resp,
            (forall data, json resp = Some data ->
               Json.truthy (_normalize_collection_list data) = false
               \/ (exists d, data = Json.Dict d
                             /\ Json.truthy (Json.get (lit "next") d) = false)
               \/ exists l, data = Json.List l) ->
            (status_code resp = 404%Z \/ json resp <> None) ->
            stops (Answer resp) = true).
  { intros resp H Hn. unfold stops, lessons_round.
    destruct (status_code resp =? 404)%Z eqn:E4; [reflexivity|].
    destruct ((400 <=? status_code resp)%Z && (status_code resp <? 600)%Z);
      [reflexivity|].
    destruct (json resp) as [data|]; [|reflexivity].
    specialize (H data eq_refl).
    destruct (Json.truthy (_normalize_collection_list data)) eqn:T;
      [|reflexivity].
    cbn [negb].
    destruct (iterate (_normalize_collection_list data)); [|reflexivity].
    destruct (add_lessons l []) as [m' [e|]]; [reflexivity|].
    destruct H as [H|[(d & -> & H)|(l' & ->)]];
      [discriminate|now rewrite H|reflexivity]. }
  repeat split.
  - intros resp H. unfold stops, lessons_round. now rewrite H.
  - intros resp data Hj Ht. apply G; [|right; congruence].
    intros data' Hd. left. congruence.
  - intros resp d Hj Ht. apply G; [|right; congruence].
    intros data' Hd. right. left. exists d. split; congruence.
  - intros resp l Hj. apply G; [|right; congruence].
    intros data' Hd. right. right. exists l. congruence.
Qed.

(** C8, amended: the call terminates when the server sends a reply that
    ends the pagination. If the first such reply is the one to request
    number [k + 1], the loop makes exactly [k + 1] rounds, one request
    each, for the pages 1 to [k + 1] (with less fuel than that the model
    runs dry). The replies that end the pagination include: no reply,
    status 404, an empty result list in any envelope, a JSON object
    without a true [next] entry, and a bare list. *)
Theorem C8_pagination_stops (lang : str) (pk : Z) (s : state) (k : nat) :
  (forall i, i < k -> stops (nth_reply w s lang pk i) = false) ->
  stops (nth_reply w s lang pk k) = true ->
  (forall fuel, k < fuel ->
     exists m s',
       get_collection_lessons w fuel lang pk s = (Ok m, s')
       /\ fs s' = fs s
       /\ requests (trace s')
          = requests (trace s) ++ page_requests lang pk 1 (S k))
  /\ (forall fuel, fuel <= k ->
        fst (get_collection_lessons w fuel lang pk s) = OutOfFuel)
  /\ stops Unreachable = true
  /\ (forall resp, status_code resp = 404%Z -> stops (Answer resp) = true)
  /\ (forall resp data,
        json resp = Some data ->
        Json.truthy (_normalize_collection_list data) = false ->
        stops (Answer resp) = true)
  /\ (forall resp d,
        json resp = Some (Json.Dict d) ->
        Json.truthy (Json.get (lit "next") d) = false ->
        stops (Answer resp) = true)
  /\ (forall resp l, json resp = Some (Json.List l) ->
        stops (Answer resp) = true).
Proof.
  intros Hgo Hstop. split; [|split; [|exact stops_cases]].
  - intros fuel Hk. unfold get_collection_lessons.
    destruct (lessons_loop_runs k fuel lang pk 1 [] s Hgo (Nat.lt_le_incl _ _ Hk))
      as [m1 ->].
    destruct (fuel - k) as [|f] eqn:F; [lia|].
    match goal with
    | |- context [lessons_loop w (S f) lang pk ?p m1 ?s1] =>
        destruct (lessons_loop_stops f lang pk p m1 s1 Hstop)
          as (m' & s' & -> & Hf & Hr)
    end.
    exists m', s'. split; [reflexivity|]. split; [exact Hf|].
    rewrite Hr. cbn [trace]. rewrite requests_app, requests_page_requests.
    now rewrite page_requests_snoc, app_assoc.
  - intros fuel Hk. unfold get_collection_lessons.
    destruct (lessons_loop_runs fuel fuel lang pk 1 [] s) as [m1 ->];
      [intros i Hi; apply Hgo; lia|lia|].
    now rewrite Nat.sub_diag.
Qed.

(** Without such a reply the loop never ends. *)
Lemma lessons_loop_endless fuel lang pk (s : state) :
  (forall i, stops (nth_reply w s lang pk i) = false) ->
  fst (get_collection_lessons w fuel lang pk s) = OutOfFuel.
Proof.
  intros Hgo. unfold get_collection_lessons.
  destruct (lessons_loop_runs fuel fuel lang pk 1 [] s) as [m1 ->];
    [intros i _; apply Hgo|lia|].
  now rewrite Nat.sub_diag.
Qed.

End LessonIndex.

Section LessonIndexExamples.
Import Py Sys Spec LingqApi Examples.

Lemma C8_pagination_stops_witness :
  (forall i, i < 2 ->
     stops (nth_reply three_pages empty_disk (lit "fr") 2570591 i) = false)
  /\ stops (nth_reply three_pages empty_disk (lit "fr") 2570591 2) = true
  /\ exists m s',
       get_collection_lessons three_pages 3 (lit "fr") 2570591 empty_disk
       = (Ok m, s')
       /\ requests (trace s')
          = [ Sent (ListLessons (lit "fr") 2570591 1);
              Sent (ListLessons (lit "fr") 2570591 2);
              Sent (ListLessons (lit "fr") 2570591 3) ]
       /\ fst (get_collection_lessons three_pages 2 (lit "fr") 2570591
                 empty_disk) = OutOfFuel.
Proof.
  assert (Hgo : forall i, i < 2 ->
            stops (nth_reply three_pages empty_disk (lit "fr") 2570591 i)
            = false).
  { intros [|[|i]] Hi; [reflexivity|reflexivity|lia]. }
  assert (Hstop : stops (nth_reply three_pages empty_disk (lit "fr")
                           2570591 2) = true) by reflexivity.
  split; [exact Hgo|]. split; [exact Hstop|].
  destruct (C8_pagination_stops three_pages (lit "fr") 2570591 empty_disk 2
              Hgo Hstop) as (Hrun & Hdry & _).
  destruct (Hrun 3 (Nat.lt_succ_diag_r 2)) as (m & s' & Hr & _ & Hq).
  exists m, s'. split; [exact Hr|]. split; [exact Hq|].
  apply Hdry. apply Nat.le_refl.
Defined.

(** C8, as the claim states it, fails: every reply of this server is in
    the [results] envelope, with one lesson and a [next] pointer, and the
    call returns for no number of rounds. *)
Lemma C8_endless_pagination :
  ~ exists fuel m s',
      get_collection_lessons endless fuel (lit "fr") 2570591 empty_disk
      = (Ok m, s').
Proof.
  intros (fuel & m & s' & H).
  pose proof (lessons_loop_endless endless fuel (lit "fr") 2570591
                empty_disk (fun i => eq_refl)) as E.
  rewrite H in E. discriminate.
Qed.

End LessonIndexExamples.

(* ===================================================================== *)
(** * Further properties: the listing *)
(* ===================================================================== *)

Section MoreDictFacts.
Import Py.
Variables K V : Type.
Variable keq : K -> K -> bool.
Hypothesis keq_eq : forall a b, keq a b = true <-> a = b.

Lemma dict_set_In (k k' : K) (v v' : V) (d : dict K V) :
  In (k', v') (dict_set keq k v d) -> (k' = k /\ v' = v) \/ In (k', v') d.
Proof.
  induction d as [|[k0 v0] d IH]; simpl.
  - intros [[= <- <-]|[]]. now left.
  - destruct (keq k k0) eqn:E; simpl.
    + apply keq_eq in E. subst k0. intros [[= <- <-]|H]; auto.
    + intros [H|H]; auto. destruct (IH H); auto.
Qed.

Lemma dict_In_get_gen (k : K) (v : V) (d : dict K V) :
  NoDup (map fst d) -> In (k, v) d -> dict_get keq k d = Some v.
Proof.
  induction d as [|[k0 v0] d IH]; simpl; [tauto|]. intros H.
  inversion H as [|? ? Hk Hd]; subst. intros [[= -> ->]|Hin].
  - now rewrite (proj2 (keq_eq k k) eq_refl).
  - destruct (keq k k0) eqn:E; [|auto].
    apply keq_eq in E. subst k0. exfalso. apply Hk.
    change k with (fst (k, v)). now apply in_map.
Qed.

End MoreDictFacts.

Section Links.
Import Py Sys Spec Scraper.

Lemma add_anchors_NoDup (l : list anchor) (found found' : dict str datetime) :
  add_anchors l found = Some found' ->
  NoDup (map fst found) -> NoDup (map fst found').
Proof.
  revert found. induction l as [|a l IH]; intros found.
  - now intros [= <-].
  - cbn [add_anchors]. unfold add_anchor.
    destruct (parsed_date a) as [d|]; [|apply IH].
    destruct (absolute a) as [url|]; [|discriminate].
    intros H Hnd. apply (IH _ H). now apply (dict_set_NoDup _ _ _ str_eq).
Qed.

Lemma add_anchors_In (l : list anchor) (found found' : dict str datetime)
  url d :
  add_anchors l found = Some found' ->
  In (url, d) found' ->
  In (url, d) found
  \/ exists a, In a l /\ absolute a = Some url /\ parsed_date a = Some d.
Proof.
  revert found. induction l as [|a l IH]; intros found.
  - intros [= <-]. auto.
  - cbn [add_anchors]. unfold add_anchor.
    destruct (parsed_date a) as [d'|] eqn:Pa.
    + destruct (absolute a) as [u|] eqn:Ab; [|discriminate].
      intros H Hin. destruct (IH _ H Hin) as [Hf|(b & Hb & Hu & Hd)].
      * apply (dict_set_In _ _ _ str_eq) in Hf as [[-> ->]|Hf]; [|auto].
        right. exists a. split; [now left|auto].
      * right. exists b. split; [now right|auto].
    + intros H Hin. destruct (IH _ H Hin) as [Hf|(b & Hb & Hu & Hd)];
        [auto|]. right. exists b. split; [now right|auto].
Qed.

(** Anchors that do not set [url] leave its entry alone. *)
Lemma add_anchors_other (l : list anchor) (found found' : dict str datetime)
  url :
  add_anchors l found = Some found' ->
  (forall b, In b l -> absolute b = Some url -> parsed_date b = None) ->
  dict_get Py.eqb url found' = dict_get Py.eqb url found.
Proof.
  revert found. induction l as [|a l IH]; intros found.
  - now intros [= <-].
  - cbn [add_anchors]. unfold add_anchor. intros H Hother.
    assert (Hl : forall b, In b l -> absolute b = Some url ->
                           parsed_date b = None)
      by (intros b Hb; apply Hother; now right).
    destruct (parsed_date a) as [d|] eqn:Pa; [|exact (IH _ H Hl)].
    destruct (absolute a) as [u|] eqn:Ab; [|discriminate].
    rewrite (IH _ H Hl). apply (dict_get_set_other _ _ _ str_eq).
    intros ->. specialize (Hother a (or_introl eq_refl) Ab). congruence.
Qed.

Lemma add_anchors_app (pre post : list anchor) (found found' : dict str datetime) :
  add_anchors (pre ++ post) found = Some found' ->
  exists mid, add_anchors pre found = Some mid
              /\ add_anchors post mid = Some found'.
Proof.
  revert found. induction pre as [|a pre IH]; intros found.
  - intros H. exists found. split; [reflexivity|exact H].
  - cbn [app add_anchors].
    destruct (add_anchor found a); [apply IH|discriminate].
Qed.

(** X1: [find_episode_links] raises ([ValueError], from [urljoin]) only
    on a page with an anchor whose date parses and whose [href] cannot be
    joined, and never on a page without one.  The links it returns have
    no URL twice and are sorted by date, newest first; each of them comes
    from an anchor with that URL and a date that parsed; and for every
    URL the date is that of the last anchor of the page with this URL
    whose date parsed, so an anchor with a malformed date adds nothing
    and changes nothing. *)
Theorem X1_find_episode_links (page : soup) :
  match find_episode_links page with
  | Some links =>
      NoDup (map snd links)
      /\ StronglySorted (fun a b => dt_geb (fst a) (fst b) = true) links
      /\ (forall d url, In (d, url) links ->
            exists a, In a (anchors page) /\ absolute a = Some url
                      /\ parsed_date a = Some d)
      /\ (forall pre a post d url,
            anchors page = pre ++ a :: post ->
            parsed_date a = Some d ->
            absolute a = Some url ->
            (forall b, In b post -> absolute b = Some url ->
                       parsed_date b = None) ->
            In (d, url) links)
  | None =>
      exists a, In a (anchors page) /\ parsed_date a <> None
                /\ absolute a = None
  end
  /\ (joinable page -> find_episode_links page <> None).
Proof.
  split; [|apply find_episode_links_joinable].
  unfold find_episode_links.
  destruct (add_anchors (anchors page) []) as [found|] eqn:E;
    [|now apply add_anchors_None in E].
  assert (Hnd : NoDup (map fst found))
    by (apply (add_anchors_NoDup _ _ _ E); constructor).
  assert (Hin : forall d url, In (d, url) (episodes_of found)
                              <-> In (url, d) found).
  { intros d url. split; intros H.
    - apply (Permutation_in _ (episodes_of_perm found)) in H.
      now apply in_map_iff in H as ([u d'] & [= <- <-] & H).
    - apply (Permutation_in _ (Permutation_sym (episodes_of_perm found))).
      apply in_map_iff. now exists (url, d). }
  split; [now apply episodes_of_NoDup|].
  split; [apply episodes_of_sorted|]. split.
  - intros d url H. apply Hin in H.
    apply (add_anchors_In _ _ _ _ _ E) in H as [[]|H]. exact H.
  - intros pre a post d url Ha Hd Hu Hpost. apply Hin.
    apply dict_In_get; [exact Hnd|].
    rewrite Ha in E. apply add_anchors_app in E as (mid & _ & E).
    cbn [add_anchors] in E. unfold add_anchor in E. rewrite Hd, Hu in E.
    rewrite (add_anchors_other _ _ _ _ E Hpost).
    apply (dict_get_set_same _ _ _ str_eq).
Qed.

End Links.

Section ListingLoop.
Import Py Sys Spec Scraper.

Variable w : world.
Variable config : Config.t.

Lemma listing_requests_app (a b : list Z) :
  listing_requests config (a ++ b)
  = listing_requests config a ++ listing_requests config b.
Proof. apply map_app. Qed.

Lemma listing_warnings_app (t u : list event) :
  listing_warnings (t ++ u) = listing_warnings t ++ listing_warnings u.
Proof. apply filter_app. Qed.




(** When no page can be fetched the loop goes through all of them. *)
Lemma listing_loop_all_fail (pages : list Z) (collected : dict str datetime)
  (s : state) :
  (forall t url, fails (w t (Get url)) = true) ->
  exists s',
    listing_loop w config pages collected s = (Ok collected, s')
    /\ requests (trace s') = requests (trace s) ++ listing_requests config pages
    /\ length (listing_warnings (trace s'))
       = length (listing_warnings (trace s)) + length pages.
Proof.
  intros Hf. revert s. induction pages as [|page rest IH]; intros s.
  - exists s. simpl. rewrite app_nil_r. repeat split; auto.
  - cbn [listing_loop]. unfold bind at 1. rewrite listing_round_run.
    specialize (Hf (trace s) (listing_url config page)).
    assert (Next : forall e,
              exists s',
                listing_loop w config rest collected
                  {| fs := fs s;
                     trace := (trace s ++ [Sent (Get (listing_url config page))])
                              ++ [Printed (WarnListingPage page e)] |}
                = (Ok collected, s')
                /\ requests (trace s')
                   = requests (trace s)
                     ++ listing_requests config (page :: rest)
                /\ length (listing_warnings (trace s'))
                   = length (listing_warnings (trace s)) + length (page :: rest)).
    { intros e.
      match goal with
      | |- context [listing_loop w config rest collected ?s1] =>
          destruct (IH s1) as (s' & E & R & W)
      end.
      exists s'. split; [exact E|]. cbn [trace] in R, W. split.
      - rewrite R, !requests_app. simpl. rewrite app_nil_r, <- app_assoc.
        reflexivity.
      - rewrite W, !listing_warnings_app, !length_app. simpl. lia. }
    cbv zeta.
    destruct (w (trace s) (Get (listing_url config page))) as [|resp].
    + cbn [fst snd trace]. apply Next.
    + simpl in Hf. rewrite Hf. cbn [fst snd trace]. apply Next.
Qed.

(** X3: when every request for a listing page fails (no answer, or an
    error status), [fetch_listing] still tries each of the [max(1, pages)]
    pages, prints one warning per page, and returns the empty list. *)
Theorem X3_fetch_listing_all_pages_fail (limit : option Z)
  (since : option datetime) (pages : Z) (s : state) :
  (forall t url, fails (w t (Get url)) = true) ->
  exists s',
    fetch_listing w config limit since pages s = (Ok [], s')
    /\ requests (trace s')
       = requests (trace s)
         ++ listing_requests config (range (Z.max 1 pages))
    /\ length (listing_warnings (trace s'))
       = length (listing_warnings (trace s)) + Z.to_nat (Z.max 1 pages).
Proof.
  intros Hf.
  destruct (listing_loop_all_fail (range (Z.max 1 pages)) [] s Hf)
    as (s' & E & R & W).
  exists s'. split.
  - unfold fetch_listing, bind. rewrite E. unfold ret. f_equal. f_equal.
    unfold select, episodes_of. simpl.
    destruct since; destruct limit as [n|]; try reflexivity;
      destruct (n =? 0)%Z; try reflexivity; apply slice_to_nil.
  - split; [exact R|]. rewrite W. unfold range.
    now rewrite length_map, length_seq.
Qed.

End ListingLoop.

Section ListingLoopExamples.
Import Py Sys Spec Scraper Examples.

Lemma X3_fetch_listing_all_pages_fail_witness :
  exists s',
    fetch_listing offline cfg (Some 5%Z) None 3 empty_disk = (Ok [], s')
    /\ requests (trace s')
       = requests (trace empty_disk)
         ++ listing_requests cfg (range (Z.max 1 3))
    /\ length (listing_warnings (trace s'))
       = length (listing_warnings (trace empty_disk)) + Z.to_nat (Z.max 1 3).
Proof.
  apply (X3_fetch_listing_all_pages_fail offline cfg (Some 5%Z) None 3
           empty_disk).
  intros t url. reflexivity.
Defined.

End ListingLoopExamples.

Section EarlyStop.
Import Py Sys Spec Scraper.

Lemma dict_mem_keys (k : str) (d d' : dict str datetime) :
  map fst d = map fst d' -> dict_mem Py.eqb k d = dict_mem Py.eqb k d'.
Proof.
  unfold dict_mem. revert d'.
  induction d as [|[k0 v0] d IH]; intros [|[k1 v1] d']; simpl;
    try discriminate; [reflexivity|].
  intros [= <- H]. destruct (Py.eqb k k0); [reflexivity|]. now apply IH.
Qed.

Lemma dict_set_length (k : str) (v : datetime) (d : dict str datetime) :
  length (dict_set Py.eqb k v d)
  = if dict_mem Py.eqb k d then length d else S (length d).
Proof.
  rewrite <- (length_map fst), (dict_set_keys _ _ Py.eqb). unfold dict_mem.
  destruct (dict_get Py.eqb k d);
    [|rewrite length_app; simpl]; rewrite length_map; lia.
Qed.

Lemma dict_set_known_keys (k : str) (v : datetime) (d : dict str datetime) :
  dict_mem Py.eqb k d = true ->
  map fst (dict_set Py.eqb k v d) = map fst d.
Proof.
  unfold dict_mem. rewrite (dict_set_keys _ _ Py.eqb).
  now destruct (dict_get Py.eqb k d).
Qed.

Lemma forallb_pointwise {A} (p q : A -> bool) (l : list A) :
  (forall x, p x = q x) -> forallb p l = forallb q l.
Proof.
  intros H. induction l as [|x l IH]; simpl; [reflexivity|].
  now rewrite H, IH.
Qed.

Lemma fold_add_link_grows (chunk : list (datetime * str))
  (collected : dict str datetime) :
  (length collected <= length (fold_left add_link chunk collected))%nat.
Proof.
  revert collected. induction chunk as [|e chunk IH]; simpl; [auto|].
  intros c. specialize (IH (add_link c e)).
  pose proof (dict_set_length (snd e) (fst e) c) as L.
  change (dict_set Py.eqb (snd e) (fst e) c) with (add_link c e) in L.
  destruct (dict_mem Py.eqb (snd e) c); lia.
Qed.

(** A page leaves the number of collected URLs unchanged exactly when each
    of its links was collected before; the keys then stay as they are. *)
Lemma fold_add_link_length (chunk : list (datetime * str))
  (collected : dict str datetime) :
  Nat.eqb (length (fold_left add_link chunk collected)) (length collected)
  = forallb (fun e => dict_mem Py.eqb (snd e) collected) chunk
  /\ (forallb (fun e => dict_mem Py.eqb (snd e) collected) chunk = true ->
      map fst (fold_left add_link chunk collected) = map fst collected).
Proof.
  revert collected. induction chunk as [|e chunk IH]; intros c; simpl.
  - split; [apply Nat.eqb_refl|reflexivity].
  - destruct (dict_mem Py.eqb (snd e) c) eqn:M; simpl.
    + destruct (IH (add_link c e)) as [L Kk].
      pose proof (dict_set_known_keys (snd e) (fst e) c M) as Same.
      assert (F : forallb (fun e0 => dict_mem Py.eqb (snd e0) (add_link c e))
                    chunk
                  = forallb (fun e0 => dict_mem Py.eqb (snd e0) c) chunk).
      { apply forallb_pointwise. intros x. now apply dict_mem_keys. }
      rewrite <- F. split.
      * rewrite <- L. f_equal. unfold add_link.
        now rewrite <- !(length_map fst), Same.
      * intros H. now rewrite (Kk H).
    + split; [|discriminate]. apply Nat.eqb_neq.
      pose proof (fold_add_link_grows chunk (add_link c e)) as G.
      pose proof (dict_set_length (snd e) (fst e) c) as L.
      change (dict_set Py.eqb (snd e) (fst e) c) with (add_link c e) in L.
      rewrite M in L. lia.
Qed.

Variable w : world.
Variable config : Config.t.

(** X4: when a listing page is fetched and its links can be read, the
    loop over the pages ends with this page exactly when every link of
    the page has a URL that was collected before (the dates of those
    URLs are then updated and no URL is added); in that case no later
    page is requested.  When at least one URL is new the loop goes on
    with the next page.  A page with an anchor that [urljoin] refuses
    ends the loop, and the call, with [ValueError]. *)
Theorem X4_listing_loop_early_stop (page : Z) (rest : list Z)
  (collected : dict str datetime) (s : state) (resp : response) :
  w (trace s) (Get (listing_url config page)) = Answer resp ->
  error_status resp = false ->
  let sent := {| fs := fs s;
                 trace := trace s ++ [Sent (Get (listing_url config page))] |} in
  match find_episode_links (parsed resp) with
  | Some links =>
      let collected' := fold_left add_link links collected in
      listing_loop w config (page :: rest) collected s
      = (if forallb (fun e => dict_mem Py.eqb (snd e) collected) links
         then (Ok collected', sent)
         else listing_loop w config rest collected' sent)
      /\ (forallb (fun e => dict_mem Py.eqb (snd e) collected) links = true ->
          map fst collected' = map fst collected)
  | None =>
      listing_loop w config (page :: rest) collected s
      = (Raise ValueError, sent)
  end.
Proof.
  intros Hw Hst. cbv zeta.
  destruct (find_episode_links (parsed resp)) as [links|] eqn:Hl.
  - destruct (fold_add_link_length links collected) as [L Kk].
    split; [|exact Kk].
    cbn [listing_loop]. unfold bind at 1.
    rewrite (listing_round_run w config), Hw, Hst, Hl. cbn [fst snd].
    rewrite L. now destruct (forallb _ _).
  - cbn [listing_loop]. unfold bind at 1.
    now rewrite (listing_round_run w config), Hw, Hst, Hl.
Qed.

End EarlyStop.

Section EarlyStopExamples.
Import Py Sys Spec Scraper Examples.

Lemma X4_listing_loop_early_stop_witness :
  let collected := [(episode_url 13, march 13); (episode_url 12, march 12)] in
  let links := [(march 13, episode_url 13); (march 12, episode_url 12)] in
  listing_loop listing_server cfg [1; 2; 3]%Z collected empty_disk
  = (if forallb (fun e => dict_mem Py.eqb (snd e) collected) links
     then (Ok (fold_left add_link links collected),
           {| fs := None; trace := [] ++ [Sent (Get (listing_url cfg 1))] |})
     else listing_loop listing_server cfg [2; 3]%Z
            (fold_left add_link links collected)
            {| fs := None; trace := [] ++ [Sent (Get (listing_url cfg 1))] |})
  /\ (forallb (fun e => dict_mem Py.eqb (snd e) collected) links = true ->
      map fst (fold_left add_link links collected) = map fst collected).
Proof.
  exact (X4_listing_loop_early_stop listing_server cfg 1 [2; 3]%Z
           [(episode_url 13, march 13); (episode_url 12, march 12)]
           empty_disk
           {| status_code := 200; text := [];
              parsed := {| anchors := map link [13; 12]%Z;
                           m_transcription := None; og_image := None;
                           figure_img := None |};
              json := None; chunks := []; stream_breaks := false |}
           eq_refl eq_refl).
Defined.

End EarlyStopExamples.

Section Stability.
Import Py Sys Spec Scraper.




Variable w : world.
Variable config : Config.t.



End Stability.

Section StabilityExamples.
Import Py Sys Spec Scraper Examples.


End StabilityExamples.

(* ===================================================================== *)
(** * Further properties: what is read off an episode page *)
(* ===================================================================== *)

Section Mp3Match.
Import Py Sys Spec Scraper.
#[local] Arguments N.eqb : simpl never.

Lemma starts_with_app (prefix rest : str) :
  starts_with prefix (prefix ++ rest) = true.
Proof.
  induction prefix as [|c p IH]; simpl; [reflexivity|].
  now rewrite N.eqb_refl.
Qed.

Lemma starts_with_skipn (prefix s : str) :
  starts_with prefix s = true -> s = prefix ++ skipn (length prefix) s.
Proof.
  intros H. destruct (starts_with_prefix _ _ H) as [rest ->].
  now rewrite skipn_app, skipn_all, Nat.sub_diag.
Qed.

Lemma take_while_split p (s : str) :
  exists rest, s = take_while p s ++ rest.
Proof.
  induction s as [|c s [rest IH]]; simpl; [now exists []|].
  destruct (p c); [exists rest; simpl; now rewrite <- IH|now exists (c :: s)].
Qed.

Lemma take_while_app p (a b : str) :
  forallb p a = true -> take_while p (a ++ b) = a ++ take_while p b.
Proof.
  induction a as [|c a IH]; simpl; [reflexivity|]. intros H.
  apply andb_true_iff in H as [-> H]. now rewrite IH.
Qed.

(** What [greedy_mp3] returns: a prefix of its argument, made of a
    non-empty text and [.mp3]. *)
Lemma greedy_mp3_shape (r m : str) :
  greedy_mp3 r = Some m ->
  exists body rest, m = body ++ lit ".mp3" /\ r = m ++ rest /\ body <> [].
Proof.
  revert m. induction r as [|c r IH]; [discriminate|].
  cbn [greedy_mp3]. intros m H.
  destruct (greedy_mp3 r) as [m'|].
  - injection H as <-. destruct (IH m' eq_refl) as (body & rest & -> & E & _).
    exists (c :: body), rest. repeat split; [now rewrite E at 1|discriminate].
  - destruct (starts_with (lit ".mp3") r) eqn:S; [|discriminate].
    injection H as <-. apply starts_with_prefix in S as [rest ->].
    exists [c], rest. repeat split. discriminate.
Qed.

(** [greedy_mp3] finds a match whenever there is one. *)
Lemma greedy_mp3_finds (body rest : str) :
  body <> [] -> greedy_mp3 (body ++ lit ".mp3" ++ rest) <> None.
Proof.
  induction body as [|c body IH]; [congruence|]. intros _.
  cbn [app greedy_mp3].
  destruct (greedy_mp3 (body ++ lit ".mp3" ++ rest)) eqn:G; [discriminate|].
  destruct body as [|c' body].
  - cbn [app]. now rewrite starts_with_app.
  - exfalso. apply IH; [discriminate|reflexivity].
Qed.

Lemma match_rest_shape (prefix rest m : str) :
  match_rest prefix rest = Some m ->
  exists body post,
    m = prefix ++ lit "://" ++ body ++ lit ".mp3"
    /\ prefix ++ rest = m ++ post
    /\ body <> [] /\ forallb url_char body = true.
Proof.
  unfold match_rest.
  destruct (starts_with (lit "://") rest) eqn:S; [|discriminate].
  destruct (greedy_mp3 (take_while url_char (skipn 3 rest))) as [g|] eqn:G;
    [|discriminate].
  intros [= <-].
  destruct (greedy_mp3_shape _ _ G) as (body & r1 & -> & E & Hne).
  destruct (take_while_split url_char (skipn 3 rest)) as [r2 E2].
  pose proof (greedy_mp3_chars url_char _ _ G (take_while_all _ _)) as Hc.
  rewrite forallb_app in Hc. apply andb_true_iff in Hc as [Hc _].
  exists body, (r1 ++ r2). repeat split; auto.
  rewrite (starts_with_skipn _ _ S) at 1.
  change (length (lit "://")) with 3%nat.
  rewrite E2, E. simpl. rewrite <- ?app_assoc. simpl.
  rewrite <- ?app_assoc. reflexivity.
Qed.

Lemma match_rest_finds (prefix body post : str) :
  body <> [] -> forallb url_char body = true ->
  match_rest prefix (lit "://" ++ body ++ lit ".mp3" ++ post) <> None.
Proof.
  intros Hne Hc. unfold match_rest. rewrite starts_with_app.
  change (skipn 3 (lit "://" ++ body ++ lit ".mp3" ++ post))
    with (body ++ lit ".mp3" ++ post).
  rewrite (take_while_app _ _ _ Hc).
  change (take_while url_char (lit ".mp3" ++ post))
    with (lit ".mp3" ++ take_while url_char post).
  pose proof (greedy_mp3_finds body (take_while url_char post) Hne) as G.
  destruct (greedy_mp3 _); [discriminate|congruence].
Qed.

Lemma match_mp3_at_shape (s m : str) :
  match_mp3_at s = Some m ->
  exists scheme body post,
    (scheme = lit "http" \/ scheme = lit "https")
    /\ m = scheme ++ lit "://" ++ body ++ lit ".mp3"
    /\ s = m ++ post /\ body <> [] /\ forallb url_char body = true.
Proof.
  unfold match_mp3_at.
  destruct (starts_with (lit "http") s) eqn:S; [|discriminate].
  apply starts_with_skipn in S. change (length (lit "http")) with 4%nat in S.
  assert (Plain : match_rest (lit "http") (skipn 4 s) = Some m ->
                  exists scheme body post,
                    (scheme = lit "http" \/ scheme = lit "https")
                    /\ m = scheme ++ lit "://" ++ body ++ lit ".mp3"
                    /\ s = m ++ post /\ body <> []
                    /\ forallb url_char body = true).
  { intros H. destruct (match_rest_shape _ _ _ H) as (body & post & E & P & R).
    exists (lit "http"), body, post. rewrite <- S in P. auto. }
  destruct (starts_with (lit "s") (skipn 4 s)) eqn:S2; [|exact Plain].
  destruct (match_rest (lit "https") (skipn 1 (skipn 4 s))) as [m'|] eqn:E;
    [|exact Plain].
  intros [= <-]. destruct (match_rest_shape _ _ _ E) as (body & post & Em & P & R).
  exists (lit "https"), body, post. split; [auto|]. split; [exact Em|].
  split; [|exact R]. rewrite <- P, S at 1.
  apply starts_with_skipn in S2. change (length (lit "s")) with 1%nat in S2.
  rewrite S2 at 1. reflexivity.
Qed.

Lemma match_mp3_at_finds (scheme body post : str) :
  scheme = lit "http" \/ scheme = lit "https" ->
  body <> [] -> forallb url_char body = true ->
  match_mp3_at (scheme ++ lit "://" ++ body ++ lit ".mp3" ++ post) <> None.
Proof.
  intros [->| ->] Hne Hc; unfold match_mp3_at.
  - change (starts_with (lit "http")
              (lit "http" ++ lit "://" ++ body ++ lit ".mp3" ++ post))
      with true. cbv iota.
    change (skipn 4 (lit "http" ++ lit "://" ++ body ++ lit ".mp3" ++ post))
      with (lit "://" ++ body ++ lit ".mp3" ++ post).
    change (starts_with (lit "s") (lit "://" ++ body ++ lit ".mp3" ++ post))
      with false. cbv iota.
    now apply match_rest_finds.
  - change (starts_with (lit "http")
              (lit "https" ++ lit "://" ++ body ++ lit ".mp3" ++ post))
      with true. cbv iota.
    change (skipn 4 (lit "https" ++ lit "://" ++ body ++ lit ".mp3" ++ post))
      with (lit "s" ++ lit "://" ++ body ++ lit ".mp3" ++ post).
    change (starts_with (lit "s")
              (lit "s" ++ lit "://" ++ body ++ lit ".mp3" ++ post))
      with true. cbv iota.
    change (skipn 1 (lit "s" ++ lit "://" ++ body ++ lit ".mp3" ++ post))
      with (lit "://" ++ body ++ lit ".mp3" ++ post).
    pose proof (match_rest_finds (lit "https") body post Hne Hc) as G.
    destruct (match_rest (lit "https") _); [discriminate|congruence].
Qed.

(** X7: what [MP3_REGEX.search] answers.  A match is a piece of the
    page that reads [http://] or [https://], then at least one character
    that is neither white space nor a double quote, then [.mp3]; and the
    search finds nothing only when the page holds no such piece. *)
Theorem X7_mp3_search (html : str) :
  match mp3_search html with
  | Some m =>
      exists pre scheme body post,
        html = pre ++ m ++ post
        /\ m = scheme ++ lit "://" ++ body ++ lit ".mp3"
        /\ (scheme = lit "http" \/ scheme = lit "https")
        /\ body <> [] /\ forallb url_char body = true
  | None =>
      forall pre scheme body post,
        (scheme = lit "http" \/ scheme = lit "https") ->
        body <> [] -> forallb url_char body = true ->
        html <> pre ++ (scheme ++ lit "://" ++ body ++ lit ".mp3") ++ post
  end.
Proof.
  induction html as [|c html IH].
  - cbn [mp3_search]. intros pre scheme body post Hs Hne Hc E.
    symmetry in E. apply app_eq_nil in E as [_ E].
    apply app_eq_nil in E as [E _].
    destruct Hs as [-> | ->]; discriminate.
  - cbn [mp3_search]. destruct (match_mp3_at (c :: html)) as [m|] eqn:M.
    + destruct (match_mp3_at_shape _ _ M)
        as (scheme & body & post & Hs & Em & E & Hne & Hc).
      exists [], scheme, body, post. auto.
    + destruct (mp3_search html) as [m|].
      * destruct IH as (pre & scheme & body & post & E & R).
        exists (c :: pre), scheme, body, post. split; [|exact R].
        simpl. now rewrite E.
      * intros pre scheme body post Hs Hne Hc E.
        destruct pre as [|c' pre].
        -- apply (match_mp3_at_finds scheme body post Hs Hne Hc).
           rewrite <- M, E. cbn [app]. now rewrite <- !app_assoc.
        -- injection E as _ E. exact (IH pre scheme body post Hs Hne Hc E).
Qed.

End Mp3Match.

Section Transcript.
Import Py Sys Spec Scraper.
#[local] Arguments N.eqb : simpl never.

Lemma drop_while_In p (s : str) (c : N) : In c (drop_while p s) -> In c s.
Proof.
  induction s as [|x s IH]; simpl; [auto|].
  destruct (p x); simpl; auto.
Qed.

Lemma drop_while_keeps p (s : str) (c : N) :
  In c s -> p c = false -> In c (drop_while p s).
Proof.
  induction s as [|x s IH]; simpl; [auto|]. intros [->|H] Hc.
  - rewrite Hc. now left.
  - destruct (p x); [auto|now right].
Qed.

Lemma strip_by_In p (s : str) (c : N) : In c (strip_by p s) -> In c s.
Proof.
  unfold strip_by, rstrip_by, lstrip_by. intros H.
  rewrite <- in_rev in H. apply drop_while_In in H.
  rewrite <- in_rev in H. now apply drop_while_In in H.
Qed.

Lemma strip_by_keeps p (s : str) (c : N) :
  In c s -> p c = false -> In c (strip_by p s).
Proof.
  unfold strip_by, rstrip_by, lstrip_by. intros H Hc.
  rewrite <- in_rev. apply drop_while_keeps; [|exact Hc].
  rewrite <- in_rev. now apply drop_while_keeps.
Qed.

Lemma drop_while_head_false p (s : str) :
  match drop_while p s with
  | [] => True
  | c :: _ => p c = false
  end.
Proof.
  induction s as [|x s IH]; simpl; [exact I|].
  destruct (p x) eqn:E; [exact IH|exact E].
Qed.

(** A stripped string neither starts nor ends with a stripped character. *)
Lemma strip_by_ends p (s : str) :
  strip_by p s = []
  \/ (p (hd 0%N (strip_by p s)) = false /\ p (last (strip_by p s) 0%N) = false).
Proof.
  unfold strip_by, lstrip_by.
  pose proof (drop_while_head_false p s) as Hh.
  destruct (drop_while p s) as [|c t]; [now left|]. right.
  destruct (rstrip_by_spec p (c :: t)) as (suffix & _ & _ & Hl).
  pose proof (rstrip_by_cons p c t) as Hc. rewrite Hh in Hc.
  split.
  - rewrite Hc. now destruct (rstrip_by p t).
  - destruct Hl as [Hl|(r & x & Hr & Hx)].
    + rewrite Hl in Hc. now destruct (rstrip_by p t).
    + rewrite Hr, last_last. exact Hx.
Qed.

Lemma sub_runs_from_In p r (b : bool) (s : str) (c : N) :
  In c (sub_runs_from p r b s) -> c = r \/ (In c s /\ p c = false).
Proof.
  revert b. induction s as [|x s IH]; intros b; simpl; [tauto|].
  destruct (p x) eqn:E.
  - destruct b; simpl; intros H.
    + destruct (IH _ H) as [|[? ?]]; auto.
    + destruct H as [<-|H]; [auto|]. destruct (IH _ H) as [|[? ?]]; auto.
  - intros [<-|H]; [auto|]. destruct (IH _ H) as [|[? ?]]; auto.
Qed.

Lemma sub_runs_from_keeps p r (b : bool) (s : str) (c : N) :
  In c s -> p c = false -> In c (sub_runs_from p r b s).
Proof.
  revert b. induction s as [|x s IH]; intros b; simpl; [tauto|].
  intros [->|H] Hc.
  - rewrite Hc. now left.
  - destruct (p x); [destruct b|]; simpl; auto.
Qed.

Lemma sub_runs_from_all p r (b : bool) (s : str) :
  forallb p s = true ->
  sub_runs_from p r b s = (if b then [] else match s with [] => [] | _ => [r] end).
Proof.
  revert b. induction s as [|x s IH]; intros b; simpl.
  - now destruct b.
  - intros H. apply andb_true_iff in H as [-> H].
    rewrite (IH true H). now destruct b.
Qed.

(** The white space left by [clean] is single spaces inside the text. *)
Lemma clean_space (raw : str) (c : N) :
  In c (clean raw) -> is_space c = true -> c = 32%N.
Proof.
  unfold clean, strip. intros H Hc. apply strip_by_In in H.
  apply sub_runs_from_In in H as [H|[_ H]]; congruence.
Qed.

Lemma clean_nil_iff (raw : str) :
  clean raw = [] <-> forallb is_space raw = true.
Proof.
  unfold clean, strip, sub_runs. split.
  - intros H. apply forallb_forall. intros c Hc.
    destruct (is_space c) eqn:E; [reflexivity|]. exfalso.
    pose proof (strip_by_keeps is_space _ c
                  (sub_runs_from_keeps is_space 32%N false raw c Hc E) E) as K.
    now rewrite H in K.
  - intros H. rewrite (sub_runs_from_all _ _ _ _ H).
    now destruct raw.
Qed.

Lemma non_empty_true (s : str) : non_empty s = true <-> s <> [].
Proof. destruct s; simpl; split; congruence. Qed.

Lemma join_In sep (parts : list str) (c : N) :
  In c (join sep parts) ->
  In c sep \/ exists p, In p parts /\ In c p.
Proof.
  induction parts as [|p ps IH]; [simpl; tauto|].
  destruct ps as [|q ps].
  - simpl. intros H. right. exists p. auto.
  - change (join sep (p :: q :: ps)) with (p ++ sep ++ join sep (q :: ps)).
    rewrite !in_app_iff. intros [H|[H|H]].
    + right. exists p. simpl. auto.
    + now left.
    + destruct (IH H) as [|(x & Hx & Hcx)]; [now left|].
      right. exists x. split; [now right|exact Hcx].
Qed.

Lemma join_hd sep (p : str) (ps : list str) :
  p <> [] -> hd 0%N (join sep (p :: ps)) = hd 0%N p.
Proof. destruct p; [congruence|]. now destruct ps. Qed.

Lemma last_app_ne (a b : str) : b <> [] -> last (a ++ b) 0%N = last b 0%N.
Proof.
  intros H. destruct (exists_last H) as (b' & x & ->).
  now rewrite app_assoc, !last_last.
Qed.

Lemma join_last sep (parts : list str) :
  parts <> [] -> Forall (fun p => p <> []) parts ->
  join sep parts <> []
  /\ last (join sep parts) 0%N = last (last parts []) 0%N.
Proof.
  induction parts as [|p ps IH]; [congruence|]. intros _ H.
  inversion H as [|? ? Hp Hps]; subst.
  destruct ps as [|q ps]; [simpl; auto|].
  destruct (IH ltac:(discriminate) Hps) as [Hne Hl].
  change (join sep (p :: q :: ps)) with (p ++ sep ++ join sep (q :: ps)).
  split.
  - destruct p; [congruence|discriminate].
  - rewrite !last_app_ne; auto.
    destruct sep; [exact Hne|discriminate].
Qed.

Lemma clean_ends (raw : str) :
  clean raw <> [] ->
  is_space (hd 0%N (clean raw)) = false
  /\ is_space (last (clean raw) 0%N) = false.
Proof.
  intros Hne.
  destruct (strip_by_ends is_space (sub_runs is_space 32 raw)) as [E|E];
    [|exact E].
  now elim Hne.
Qed.

Lemma paragraphs_blank (raws : list str) :
  filter non_empty (map clean raws) = [] <->
  Forall (fun p => forallb is_space p = true) raws.
Proof.
  induction raws as [|p ps IH]; simpl.
  - split; [constructor|reflexivity].
  - destruct (non_empty (clean p)) eqn:E.
    + split; [discriminate|]. intros H. inversion H as [|? ? Hp _]; subst.
      apply clean_nil_iff in Hp. apply non_empty_true in E. congruence.
    + rewrite IH. split; [|intros H; now inversion H].
      intros H. constructor; [|exact H]. apply clean_nil_iff.
      destruct (clean p); [reflexivity|discriminate].
Qed.

(** The shape of a transcript that was found. *)
Lemma extract_transcript_some (page : soup) (t : str) :
  extract_transcript page = Some t ->
  t <> []
  /\ is_space (hd 0%N t) = false
  /\ is_space (last t 0%N) = false
  /\ forall c, In c t -> is_space c = true -> c = 32%N \/ c = newline.
Proof.
  unfold extract_transcript.
  destruct (m_transcription page) as [trans|]; [|discriminate].
  assert (Clean : Forall (fun p => p <> [] /\ exists raw, p = clean raw)
                    (filter non_empty (map clean (paragraphs trans)))).
  { apply Forall_forall. intros p Hp. apply filter_In in Hp as [Hp Hn].
    apply in_map_iff in Hp as (raw & <- & _).
    split; [now apply non_empty_true|eauto]. }
  destruct (filter non_empty (map clean (paragraphs trans))) as [|p ps] eqn:F.
  - destruct (non_empty (clean (full_text trans))) eqn:N; [|discriminate].
    intros [= <-]. apply non_empty_true in N.
    destruct (clean_ends _ N) as [Hh Hl]. repeat split; auto.
    intros c Hc Hs. left. exact (clean_space _ _ Hc Hs).
  - intros Ht.
    change (Some (join [newline; newline] (p :: ps)) = Some t) in Ht.
    assert (Et : t = join [newline; newline] (p :: ps)) by congruence.
    clear Ht. subst t.
    assert (Hne : Forall (fun q => q <> []) (p :: ps)).
    { eapply Forall_impl; [|exact Clean]. now intros q [Hq _]. }
    destruct (join_last [newline; newline] (p :: ps) ltac:(discriminate) Hne)
      as [Hj Hl].
    inversion Clean as [|? ? [Hp (raw & ->)] Hps]; subst.
    split; [exact Hj|]. split; [|split].
    + rewrite join_hd by exact Hp. now apply clean_ends.
    + rewrite Hl.
      assert (Hin : In (last (clean raw :: ps) []) (clean raw :: ps))
        by (destruct (exists_last (l := clean raw :: ps) ltac:(discriminate))
              as (l' & x & ->); rewrite last_last; apply in_or_app;
            right; now left).
      rewrite Forall_forall in Clean.
      destruct (Clean _ Hin) as [Hq (raw' & Eq)]. rewrite Eq in *.
      now apply clean_ends.
    + intros c Hc Hs. apply join_In in Hc as [Hc|(q & Hq & Hc)].
      * right. destruct Hc as [<-|[<-|[]]]; reflexivity.
      * left. rewrite Forall_forall in Clean.
        destruct (Clean _ Hq) as [_ (raw' & ->)].
        exact (clean_space _ _ Hc Hs).
Qed.

(** X8: what [extract_transcript] answers.  It finds no transcript
    exactly when the page has no transcription block or when every
    paragraph of the block and its whole text are blank.  A transcript it
    returns is not empty, does not start or end with white space, and the
    only white space in it is the single space and the line feed. *)
Theorem X8_extract_transcript (page : soup) :
  (extract_transcript page = None <->
   m_transcription page = None
   \/ exists trans,
        m_transcription page = Some trans
        /\ Forall (fun p => forallb is_space p = true) (paragraphs trans)
        /\ forallb is_space (full_text trans) = true)
  /\ (forall t,
        extract_transcript page = Some t ->
        t <> []
        /\ is_space (hd 0%N t) = false
        /\ is_space (last t 0%N) = false
        /\ forall c, In c t -> is_space c = true -> c = 32%N \/ c = newline).
Proof.
  split; [|apply extract_transcript_some].
  unfold extract_transcript.
  destruct (m_transcription page) as [trans|]; [|tauto].
  pose proof (paragraphs_blank (paragraphs trans)) as Blank.
  destruct (filter non_empty (map clean (paragraphs trans))) as [|p ps] eqn:F.
  - destruct (non_empty (clean (full_text trans))) eqn:N.
    + split; [discriminate|]. intros [H|(tr & [= <-] & _ & H)]; [discriminate|].
      apply clean_nil_iff in H. apply non_empty_true in N. congruence.
    + split; [|reflexivity]. intros _. right.
      exists trans. split; [reflexivity|]. split; [now apply Blank|].
      apply clean_nil_iff. destruct (clean (full_text trans));
        [reflexivity|discriminate].
  - split; [discriminate|]. intros [H|(tr & [= <-] & H & _)]; [discriminate|].
    apply Blank in H. discriminate.
Qed.

End Transcript.

(* ===================================================================== *)
(** * Further properties: slugs *)
(* ===================================================================== *)

Section SlugShape.
Import Py Sys Spec Scraper.
#[local] Arguments N.eqb : simpl never.

(** The slug in terms of the words of the decoded last segment. *)
Lemma safe_slug_words (url : str) :
  safe_slug_from_url url
  = match alnum_words
            (unquote (last (split slash (rstrip_by (N.eqb slash) url)) [])) with
    | [] => lit "episode"
    | ws => join [hyphen] ws
    end.
Proof.
  unfold safe_slug_from_url. rewrite strip_sub_runs.
  set (t := unquote (last (split slash (rstrip_by (N.eqb slash) url)) [])).
  pose proof (alnum_words_nonempty t) as NE.
  destruct (alnum_words t) as [|w ws] eqn:W; [reflexivity|].
  destruct (join [hyphen] (w :: ws)) eqn:J; [|reflexivity].
  now apply join_nil_iff in J.
Qed.

Lemma alnum_words_alnum (t : str) :
  Forall (fun w => forallb is_alnum w = true) (alnum_words t).
Proof.
  induction t as [|c t IH]; simpl; [constructor|].
  destruct (is_alnum c) eqn:A; [|exact IH].
  destruct t as [|c' t]; [repeat constructor; simpl; now rewrite A|].
  destruct (is_alnum c') eqn:A'.
  - destruct (alnum_words (c' :: t)) as [|w ws].
    + repeat constructor. simpl. now rewrite A.
    + inversion IH; subst. constructor; [simpl; now rewrite A|assumption].
  - constructor; [simpl; now rewrite A|assumption].
Qed.

Lemma join_slug_chars (ws : list str) :
  Forall (fun w => forallb is_alnum w = true) ws ->
  forallb slug_char (join [hyphen] ws) = true.
Proof.
  assert (Word : forall w, forallb is_alnum w = true ->
                           forallb slug_char w = true).
  { intros w H. rewrite forallb_forall in *. intros c Hc.
    unfold slug_char. now rewrite (H c Hc). }
  induction 1 as [|w ws Hw Hws IH]; [reflexivity|].
  destruct ws as [|w' ws]; [now apply Word|].
  change (join [hyphen] (w :: w' :: ws))
    with (w ++ [hyphen] ++ join [hyphen] (w' :: ws)).
  rewrite !forallb_app, (Word w Hw), IH. reflexivity.
Qed.

Lemma slug_chars (url : str) :
  safe_slug_from_url url <> []
  /\ forallb slug_char (safe_slug_from_url url) = true.
Proof.
  rewrite safe_slug_words.
  set (t := unquote (last (split slash (rstrip_by (N.eqb slash) url)) [])).
  pose proof (alnum_words_nonempty t) as NE.
  pose proof (alnum_words_alnum t) as AL.
  destruct (alnum_words t) as [|w ws]; [split; [discriminate|reflexivity]|].
  split; [|now apply join_slug_chars].
  intros J. now apply join_nil_iff in J.
Qed.

(** X9: the slug is safe as a file name: it is never empty and holds
    nothing but ASCII letters, digits and hyphens, so no slash, no dot and
    no white space. *)
Theorem X9_safe_slug_charset (url : str) :
  let slug := safe_slug_from_url url in
  slug <> []
  /\ forallb slug_char slug = true
  /\ no_char slash slug /\ no_char dot slug /\ no_space slug
  /\ hd 0%N slug <> hyphen /\ last slug 0%N <> hyphen.
Proof.
  cbv zeta. destruct (slug_chars url) as [Hne Hc].
  assert (Not : forall c, slug_char c = false ->
                  existsb (N.eqb c) (safe_slug_from_url url) = false).
  { intros c Hx. destruct (existsb _ _) eqn:E; [|reflexivity].
    apply existsb_exists in E as (x & Hin & Ex). apply N.eqb_eq in Ex. subst x.
    rewrite forallb_forall in Hc. rewrite (Hc c Hin) in Hx. discriminate. }
  split; [exact Hne|]. split; [exact Hc|].
  split; [now apply Not|]. split; [now apply Not|]. split.
  - unfold no_space. apply forallb_forall. intros c Hin.
    rewrite forallb_forall in Hc. specialize (Hc c Hin).
    destruct (is_space c) eqn:S; [|reflexivity]. exfalso.
    unfold slug_char, is_alnum, is_space, in_range, hyphen in *.
    repeat match goal with
           | H : _ || _ = true |- _ => apply orb_true_iff in H as [H|H]
           | H : _ && _ = true |- _ => apply andb_true_iff in H as [? ?]
           | H : (_ <=? _)%N = true |- _ => apply N.leb_le in H
           | H : (_ =? _)%N = true |- _ => apply N.eqb_eq in H
           end; lia.
  - unfold safe_slug_from_url in *.
    destruct (strip_by_ends (N.eqb hyphen)
                (sub_runs not_alnum hyphen
                   (unquote (last (split slash (rstrip_by (N.eqb slash) url)) []))))
      as [E|[Hh Hl]].
    + rewrite E. split; discriminate.
    + destruct (strip_by _ _) eqn:E; [split; discriminate|].
      apply N.eqb_neq in Hh, Hl. split; congruence.
Qed.

Lemma alnum_words_word (w rest : str) :
  w <> [] -> forallb is_alnum w = true ->
  alnum_words (w ++ hyphen :: rest) = w :: alnum_words rest.
Proof.
  induction w as [|c w IH]; [congruence|]. intros _ H. simpl in H.
  apply andb_true_iff in H as [A H].
  destruct w as [|c' w].
  - cbn [app alnum_words]. rewrite A. reflexivity.
  - assert (A' : is_alnum c' = true)
      by (simpl in H; now apply andb_true_iff in H).
    change ((c :: c' :: w) ++ hyphen :: rest)
      with (c :: (c' :: w) ++ hyphen :: rest).
    cbn [alnum_words]. rewrite A.
    cbn [app]. rewrite A'.
    change (c' :: w ++ hyphen :: rest) with ((c' :: w) ++ hyphen :: rest).
    rewrite (IH ltac:(discriminate) H). reflexivity.
Qed.

Lemma alnum_words_join (ws : list str) :
  Forall (fun w => w <> []) ws ->
  Forall (fun w => forallb is_alnum w = true) ws ->
  alnum_words (join [hyphen] ws) = ws.
Proof.
  induction ws as [|w ws IH]; [reflexivity|]. intros Hn Ha.
  inversion Hn as [|? ? Hw Hws]; inversion Ha as [|? ? Aw Aws]; subst.
  destruct ws as [|w' ws]; [now apply alnum_words_all|].
  change (join [hyphen] (w :: w' :: ws))
    with (w ++ hyphen :: join [hyphen] (w' :: ws)).
  rewrite (alnum_words_word _ _ Hw Aw), (IH Hws Aws). reflexivity.
Qed.

Lemma rstrip_by_none p (s : str) :
  forallb (fun c => negb (p c)) s = true -> rstrip_by p s = s.
Proof.
  intros H. unfold rstrip_by.
  assert (E : drop_while p (rev s) = rev s).
  { apply drop_while_head. destruct (rev s) as [|c l] eqn:R; [exact I|].
    rewrite forallb_forall in H. apply negb_true_iff, H, in_rev.
    rewrite R. now left. }
  rewrite E. apply rev_involutive.
Qed.

(** X10: making a slug of a slug changes nothing. *)
Theorem X10_safe_slug_idempotent (url : str) :
  safe_slug_from_url (safe_slug_from_url url) = safe_slug_from_url url.
Proof.
  destruct (slug_chars url) as [Hne Hc].
  assert (Words : exists ws,
             safe_slug_from_url url = join [hyphen] ws /\ ws <> []
             /\ Forall (fun w => w <> []) ws
             /\ Forall (fun w => forallb is_alnum w = true) ws).
  { rewrite safe_slug_words.
    set (t := unquote (last (split slash (rstrip_by (N.eqb slash) url)) [])).
    pose proof (alnum_words_nonempty t) as NE.
    pose proof (alnum_words_alnum t) as AL.
    destruct (alnum_words t) as [|w ws].
    - exists [lit "episode"]. repeat split; try discriminate;
        repeat constructor; discriminate.
    - exists (w :: ws). repeat split; auto. discriminate. }
  destruct Words as (ws & E & Hws & NE & AL).
  set (s := safe_slug_from_url url) in *.
  assert (Not : forall c, slug_char c = false -> existsb (N.eqb c) s = false).
  { intros c Hx. destruct (existsb _ _) eqn:X; [|reflexivity].
    apply existsb_exists in X as (x & Hin & Ex). apply N.eqb_eq in Ex. subst x.
    rewrite forallb_forall in Hc. rewrite (Hc c Hin) in Hx. discriminate. }
  rewrite safe_slug_words.
  assert (R : rstrip_by (N.eqb slash) s = s).
  { apply rstrip_by_none. apply forallb_forall. intros c Hin.
    rewrite forallb_forall in Hc. specialize (Hc c Hin).
    apply negb_true_iff, N.eqb_neq. intros <-. discriminate. }
  rewrite R, (split_no_sep slash s (Not slash eq_refl)). cbn [last].
  unfold unquote. rewrite (Not percent eq_refl).
  rewrite E, (alnum_words_join ws NE AL).
  destruct ws; [congruence|reflexivity].
Qed.

End SlugShape.

(* ===================================================================== *)
(** * Further properties: downloads *)
(* ===================================================================== *)

Section Downloads.
Import Py Sys Spec Utils Scraper.

(** What [mkdir] does to the files of the directory it makes. *)
Lemma mkdir_p_run dir s s1 :
  mkdir_p dir s = (Ok tt, s1) ->
  trace s1 = trace s
  /\ (forall d name, lookup_file d name (fs s1) = lookup_file d name (fs s))
  /\ (forall es, lookup_node dir (fs s) = Some (Dir es) -> s1 = s)
  /\ (lookup_node dir (fs s) = None ->
      fs s1 = Some (entries_of (fs s) ++ [(dir, Dir [])]))
  /\ exists es, lookup_node dir (fs s1) = Some (Dir es).
Proof.
  unfold mkdir_p. destruct (lookup_node dir (fs s)) as [[f|es]|] eqn:E;
    intros [= <-]; [|].
  - split; [reflexivity|]. split; [reflexivity|]. split; [reflexivity|].
    split; [discriminate|eauto].
  - cbn [fs trace]. split; [reflexivity|]. split; [|split; [discriminate|]].
    + intros d name. unfold lookup_file, lookup_node in *. cbn [entries_of].
      destruct (dict_get Py.eqb d (entries_of (fs s))) as [n|] eqn:G.
      * clear E. induction (entries_of (fs s)) as [|[k v] l IH];
          [discriminate|]. simpl in *.
        destruct (Py.eqb d k); [now injection G as ->|auto].
      * rewrite (dict_get_app_None _ _ _ _ _ _ G). simpl.
        now destruct (Py.eqb d dir).
    + split; [reflexivity|]. exists []. unfold lookup_node in *.
      cbn [entries_of]. rewrite (dict_get_app_None _ _ _ _ _ _ E). simpl.
      now rewrite eqb_refl.
Qed.

Lemma mkdir_p_no_file dir s :
  (forall f, lookup_node dir (fs s) <> Some (File f)) ->
  exists s1, mkdir_p dir s = (Ok tt, s1).
Proof.
  intros H. unfold mkdir_p.
  destruct (lookup_node dir (fs s)) as [[f|es]|]; eauto.
  now elim (H f).
Qed.

Variable w : world.

(** [download_file] when the destination does not exist yet. *)
Lemma download_file_absent url dir name s s1 :
  mkdir_p dir s = (Ok tt, s1) ->
  lookup_file dir name (fs s) = None ->
  let sent := {| fs := fs s1; trace := trace s ++ [Sent (GetStream url)] |} in
  download_file w url dir name s
  = match w (trace s) (GetStream url) with
    | Unreachable => (Raise ConnectionError, sent)
    | Answer resp =>
        if error_status resp
        then (Raise (HTTPError (status_code resp)), sent)
        else (write_file dir name (Binary (concat (chunks resp))) ;;;
              (if stream_breaks resp then raise ConnectionError else ret tt) ;;;
              print (Saved name))%py sent
    end.
Proof.
  intros M L. unfold download_file. unfold bind at 1. rewrite M.
  destruct (mkdir_p_run _ _ _ M) as (T & F & _).
  unfold bind at 1, exists_file. rewrite F, L.
  unfold bind at 1, send. rewrite T.
  destruct (w (trace s) (GetStream url)) as [|resp]; [reflexivity|].
  unfold raise_for_status, error_status.
  destruct ((400 <=? status_code resp)%Z && (status_code resp <? 600)%Z);
    reflexivity.
Qed.

(** X11: when the destination is missing and the request fails (no
    answer, or an error status), [download_file] raises the request
    error after this one request and leaves no file behind; a directory
    that existed is left as it was. *)
Theorem X11_download_file_failure (url dir name : str) (s : state) :
  lookup_file dir name (fs s) = None ->
  (forall f, lookup_node dir (fs s) <> Some (File f)) ->
  fails (w (trace s) (GetStream url)) = true ->
  exists e s',
    download_file w url dir name s = (Raise e, s')
    /\ is_RequestException e = true
    /\ trace s' = trace s ++ [Sent (GetStream url)]
    /\ lookup_file dir name (fs s') = None
    /\ (forall es, lookup_node dir (fs s) = Some (Dir es) -> fs s' = fs s).
Proof.
  intros L NF Hf. destruct (mkdir_p_no_file dir s NF) as [s1 M].
  rewrite (download_file_absent url dir name s s1 M L).
  destruct (mkdir_p_run _ _ _ M) as (_ & F & Same & _).
  assert (Keep : forall es, lookup_node dir (fs s) = Some (Dir es) ->
                            fs s1 = fs s)
    by (intros es H; now rewrite (Same es H)).
  destruct (w (trace s) (GetStream url)) as [|resp]; simpl in Hf.
  - do 2 eexists. split; [reflexivity|]. cbn [fs trace].
    rewrite F. auto.
  - rewrite Hf. do 2 eexists. split; [reflexivity|]. cbn [fs trace].
    rewrite F. auto.
Qed.

(** X12: a download whose stream breaks raises, but the file stays, with
    the bytes received so far; since the file exists, every later call
    for this destination skips it without a request: the download is
    never completed. *)
Theorem X12_download_file_broken_stream (url dir name : str) (s : state)
  (resp : response) :
  lookup_file dir name (fs s) = None ->
  (forall f, lookup_node dir (fs s) <> Some (File f)) ->
  w (trace s) (GetStream url) = Answer resp ->
  error_status resp = false ->
  stream_breaks resp = true ->
  exists s1,
    download_file w url dir name s = (Raise ConnectionError, s1)
    /\ lookup_file dir name (fs s1) = Some (Binary (concat (chunks resp)))
    /\ forall (w' : world) (url' : str),
         exists s2,
           download_file w' url' dir name s1 = (Ok tt, s2)
           /\ fs s2 = fs s1
           /\ requests (trace s2) = requests (trace s1).
Proof.
  intros L NF Hw Hst Hbr. destruct (mkdir_p_no_file dir s NF) as [s1 M].
  rewrite (download_file_absent url dir name s s1 M L), Hw, Hst.
  destruct (mkdir_p_run _ _ _ M) as (_ & _ & _ & _ & es & D).
  unfold bind at 1.
  destruct (write_file dir name (Binary (concat (chunks resp)))
              {| fs := fs s1; trace := trace s ++ [Sent (GetStream url)] |})
    as [r s2] eqn:W.
  assert (R : r = Ok tt).
  { unfold write_file in W. cbn [fs] in W. rewrite D in W. now injection W. }
  subst r. apply write_file_ok in W as [_ W]; [|reflexivity].
  rewrite Hbr. exists s2. split; [reflexivity|]. split; [exact W|].
  intros w' url'. rewrite (download_file_existing w' url' _ _ _ _ W).
  eexists. split; [reflexivity|]. cbn [fs trace]. split; [reflexivity|].
  rewrite requests_app. apply app_nil_r.
Qed.

End Downloads.

Section DownloadsExamples.
Import Py Sys Spec Utils Scraper Examples.

Lemma X11_download_file_failure_witness :
  exists e s',
    download_file offline audio_url dir_0315 audio_name no_transcript
    = (Raise e, s')
    /\ is_RequestException e = true
    /\ trace s' = trace no_transcript ++ [Sent (GetStream audio_url)]
    /\ lookup_file dir_0315 audio_name (fs s') = None
    /\ (forall es, lookup_node dir_0315 (fs no_transcript) = Some (Dir es) ->
                   fs s' = fs no_transcript).
Proof.
  apply (X11_download_file_failure offline audio_url dir_0315 audio_name
           no_transcript).
  - reflexivity.
  - intros f. vm_compute. discriminate.
  - reflexivity.
Defined.

Lemma X12_download_file_broken_stream_witness :
  exists s1,
    download_file broken_stream audio_url dir_0315 audio_name empty_disk
    = (Raise ConnectionError, s1)
    /\ lookup_file dir_0315 audio_name (fs s1)
       = Some (Binary (concat [[73; 68]]%N))
    /\ forall (w' : world) (url' : str),
         exists s2,
           download_file w' url' dir_0315 audio_name s1 = (Ok tt, s2)
           /\ fs s2 = fs s1
           /\ requests (trace s2) = requests (trace s1).
Proof.
  apply (X12_download_file_broken_stream broken_stream audio_url dir_0315
           audio_name empty_disk
           {| status_code := 200; text := []; parsed := no_soup;
              json := None; chunks := [[73; 68]]%N;
              stream_breaks := true |}).
  - reflexivity.
  - intros f. vm_compute. discriminate.
  - reflexivity.
  - reflexivity.
  - reflexivity.
Defined.

End DownloadsExamples.

(* ===================================================================== *)
(** * Further properties: what one episode leaves on disk *)
(* ===================================================================== *)

Section KeepsFacts.
Import Py Sys Spec.

Variable R : state -> state -> Prop.
Hypothesis R_refl : forall s, R s s.
Hypothesis R_trans : forall a b c, R a b -> R b c -> R a c.

Lemma keeps_ret {A} (a : A) : keeps R (ret a).
Proof. intros s. apply R_refl. Qed.

Lemma keeps_raise {A} (e : exn) : keeps R (@raise A e).
Proof. intros s. apply R_refl. Qed.

Lemma keeps_bind {A B} (c : M A) (k : A -> M B) :
  keeps R c -> (forall a, keeps R (k a)) -> keeps R (bind c k).
Proof.
  intros Hc Hk s. specialize (Hc s). unfold bind.
  destruct (c s) as [[a|e|] s1]; cbn [snd] in *; [|exact Hc|exact Hc].
  exact (R_trans _ _ _ Hc (Hk a s1)).
Qed.

Lemma keeps_try_except {A} (c : M A) handles (h : exn -> M A) :
  keeps R c -> (forall e, keeps R (h e)) -> keeps R (try_except c handles h).
Proof.
  intros Hc Hh s. specialize (Hc s). unfold try_except.
  destruct (c s) as [[a|e|] s1]; cbn [snd] in *; [exact Hc| |exact Hc].
  destruct (handles e); [|exact Hc].
  exact (R_trans _ _ _ Hc (Hh e s1)).
Qed.

End KeepsFacts.

Section Touches.
Import Py Sys Spec Utils Scraper.

Variable dir : str.
Variable names : list str.
Variable silent : bool.

Lemma touches_refl (s : state) : touches dir names silent s s.
Proof. repeat split. Qed.

Lemma touches_trans (a b c : state) :
  touches dir names silent a b -> touches dir names silent b c ->
  touches dir names silent a c.
Proof.
  intros (N1 & F1 & Q1) (N2 & F2 & Q2). split; [|split].
  - intros d Hd. now rewrite N2, N1.
  - intros n Hn. now rewrite F2, F1.
  - intros Hq. now rewrite Q2, Q1.
Qed.

(** A step that leaves the files alone and sends nothing. *)
Lemma touches_same_fs (s s' : state) :
  fs s' = fs s -> requests (trace s') = requests (trace s) ->
  touches dir names silent s s'.
Proof. intros F T. unfold touches. rewrite F. auto. Qed.

Lemma keeps_print (m : message) : keeps (touches dir names silent) (print m).
Proof.
  intros s. apply touches_same_fs; [reflexivity|]. simpl.
  rewrite requests_app. apply app_nil_r.
Qed.

Lemma keeps_exists_file (d n : str) :
  keeps (touches dir names silent) (exists_file d n).
Proof. intros s. apply touches_refl. Qed.

Lemma lookup_node_snoc (d : str) (es : list (str * file)) (fs : filesystem) :
  d <> dir ->
  lookup_node d (Some (entries_of fs ++ [(dir, Dir es)])) = lookup_node d fs.
Proof.
  intros Hd. unfold lookup_node. cbn [entries_of].
  induction (entries_of fs) as [|[k v] l IH]; simpl.
  - destruct (Py.eqb d dir) eqn:E; [|reflexivity].
    apply str_eq in E. congruence.
  - now destruct (Py.eqb d k).
Qed.

Lemma keeps_mkdir_p : keeps (touches dir names silent) (mkdir_p dir).
Proof.
  intros s. destruct (mkdir_p dir s) as [r s1] eqn:M. cbn [snd].
  destruct (mkdir_p_ok _ _ _ _ M) as [T [[-> _]|[_ ->]]];
    [|apply touches_refl].
  destruct (mkdir_p_run _ _ _ M) as (_ & F & Same & New & _).
  split; [|split].
  - intros d Hd. destruct (lookup_node dir (fs s)) as [[f|es]|] eqn:E.
    + unfold mkdir_p in M. rewrite E in M. discriminate.
    + now rewrite (Same es eq_refl).
    + rewrite (New eq_refl). now apply lookup_node_snoc.
  - intros n _. apply F.
  - intros _. now rewrite T.
Qed.

Lemma keeps_write_file (name : str) (f : file) :
  In name names ->
  keeps (touches dir names silent) (write_file dir name f).
Proof.
  intros Hin s. unfold write_file.
  destruct (lookup_node dir (fs s)) as [[f'|es]|] eqn:E;
    [apply touches_refl| |apply touches_refl].
  cbn [snd]. split; [|split]; cbn [fs trace]; [| |reflexivity].
  - intros d Hd. unfold lookup_node. cbn [entries_of].
    apply (dict_get_set_other _ _ _ str_eq). congruence.
  - intros n Hn. unfold lookup_file. rewrite E.
    unfold lookup_node. cbn [entries_of].
    rewrite (dict_get_set_same _ _ _ str_eq).
    apply (dict_get_set_other _ _ _ str_eq). intros ->. now apply Hn.
Qed.

Lemma keeps_write_text (name data : str) :
  In name names ->
  keeps (touches dir names silent) (write_text dir name data).
Proof.
  intros Hin. unfold write_text. destruct (encodable data).
  - now apply keeps_write_file.
  - apply (keeps_bind _ touches_trans);
      [now apply keeps_write_file|].
    intros _. apply (keeps_raise _ touches_refl).
Qed.

End Touches.

Section TouchesDownload.
Import Py Sys Spec Utils Scraper.

Variable w : world.
Variable dir : str.
Variable names : list str.

Lemma keeps_send (rq : request) : keeps (touches dir names false) (send w rq).
Proof. intros s. repeat split. discriminate. Qed.

Lemma keeps_raise_for_status (silent : bool) (resp : response) :
  keeps (touches dir names silent) (raise_for_status resp).
Proof.
  unfold raise_for_status.
  destruct ((400 <=? status_code resp)%Z && (status_code resp <? 600)%Z);
    intros s; apply touches_refl.
Qed.

Lemma keeps_download_file (url name : str) :
  In name names ->
  keeps (touches dir names false) (download_file w url dir name).
Proof.
  intros Hin. unfold download_file.
  pose proof (touches_refl dir names false) as Rr.
  pose proof (touches_trans dir names false) as Rt.
  apply (keeps_bind _ Rt); [apply keeps_mkdir_p|]. intros _.
  apply (keeps_bind _ Rt); [apply keeps_exists_file|]. intros [|].
  - apply keeps_print.
  - apply (keeps_bind _ Rt); [apply keeps_send|]. intros [|resp].
    + apply (keeps_raise _ Rr).
    + apply (keeps_bind _ Rt); [apply keeps_raise_for_status|]. intros _.
      apply (keeps_bind _ Rt); [now apply keeps_write_file|]. intros _.
      apply (keeps_bind _ Rt); [|intros _; apply keeps_print].
      destruct (stream_breaks resp);
        [apply (keeps_raise _ Rr)|apply (keeps_ret _ Rr)].
Qed.

End TouchesDownload.

Section OneEpisode.
Import Py Sys Spec Utils Scraper.

Variable w : world.

(** [process_episode] up to the answer to the page request. *)
Lemma process_episode_run date url download s :
  let folder := folder_name date (safe_slug_from_url url) in
  process_episode w date url download s
  = match mkdir_p folder s with
    | (Ok _, s1) =>
        let sent := {| fs := fs s1; trace := trace s ++ [Sent (Get url)] |} in
        match w (trace s) (Get url) with
        | Unreachable => (Raise ConnectionError, sent)
        | Answer resp =>
            if error_status resp
            then (Raise (HTTPError (status_code resp)), sent)
            else after_page w url folder download
                   (mp3_search (text resp), extract_transcript (parsed resp),
                    extract_image_url (parsed resp)) sent
        end
    | (Raise e, s1) => (Raise e, s1)
    | (OutOfFuel, s1) => (OutOfFuel, s1)
    end.
Proof.
  cbv zeta. unfold process_episode, folder_name. unfold bind at 1.
  destruct (mkdir_p _ s) as [[[]|e|] s1] eqn:M; try reflexivity.
  apply mkdir_p_ok in M as [T _].
  unfold bind at 1, extract_media. unfold bind at 1, session_get.
  unfold bind at 1, send. rewrite T.
  destruct (w (trace s) (Get url)) as [|resp]; [reflexivity|].
  unfold ret at 1. unfold bind at 1, raise_for_status, error_status.
  destruct ((400 <=? status_code resp)%Z && (status_code resp <? 600)%Z);
    reflexivity.
Qed.

(** X13: when the directory of the episode can be made and the request
    for the page fails (no answer, or an error status), [process_episode]
    raises the request error after this one request; no file is written
    and nothing else changes, but the directory now exists: a failed
    fetch leaves a new, empty directory behind. *)
Theorem X13_process_episode_page_fails (date : datetime) (url : str)
  (download : bool) (s : state) :
  let folder := folder_name date (safe_slug_from_url url) in
  (forall f, lookup_node folder (fs s) <> Some (File f)) ->
  fails (w (trace s) (Get url)) = true ->
  exists e s',
    process_episode w date url download s = (Raise e, s')
    /\ is_RequestException e = true
    /\ trace s' = trace s ++ [Sent (Get url)]
    /\ (forall d name, lookup_file d name (fs s') = lookup_file d name (fs s))
    /\ (forall es, lookup_node folder (fs s) = Some (Dir es) -> fs s' = fs s)
    /\ (lookup_node folder (fs s) = None ->
        fs s' = Some (entries_of (fs s) ++ [(folder, Dir [])])).
Proof.
  intros folder NF Hf. rewrite process_episode_run. fold folder.
  destruct (mkdir_p_no_file folder s NF) as [s1 M]. rewrite M. cbv zeta.
  destruct (mkdir_p_run _ _ _ M) as (_ & F & Same & New & _).
  assert (Keep : forall es, lookup_node folder (fs s) = Some (Dir es) ->
                            fs s1 = fs s)
    by (intros es H; now rewrite (Same es H)).
  destruct (w (trace s) (Get url)) as [|resp]; simpl in Hf.
  - do 2 eexists. split; [reflexivity|]. cbn [fs trace]. auto.
  - rewrite Hf. do 2 eexists. split; [reflexivity|]. cbn [fs trace]. auto.
Qed.

Lemma keeps_after_page_quiet url folder media :
  keeps (touches folder [transcript_txt; episode_txt] true)
    (after_page w url folder false media).
Proof.
  destruct media as [[mp3_url transcript] image_url]. unfold after_page.
  rewrite andb_false_r.
  pose proof (touches_refl folder [transcript_txt; episode_txt] true) as Rr.
  pose proof (touches_trans folder [transcript_txt; episode_txt] true) as Rt.
  apply (keeps_bind _ Rt).
  { destruct (negb (truthy mp3_url)); [apply keeps_print|apply (keeps_ret _ Rr)]. }
  intros _. apply (keeps_bind _ Rt).
  { destruct (negb (truthy transcript)); [apply keeps_print|].
    apply keeps_write_text. simpl. auto. }
  intros _. apply (keeps_bind _ Rt); [apply (keeps_ret _ Rr)|].
  intros _. apply (keeps_bind _ Rt).
  { apply keeps_write_text. simpl. auto. }
  intros _. apply (keeps_ret _ Rr).
Qed.

(** X14: with [download=False] nothing is downloaded: the only request
    of [process_episode] is the one for the page (none at all when the
    directory cannot be made), whatever the page offers and however the
    call ends; and the only files that may change are [transcript.txt]
    and [episode.txt] of the episode's directory. *)
Theorem X14_process_episode_no_download (date : datetime) (url : str)
  (s : state) :
  let folder := folder_name date (safe_slug_from_url url) in
  let s' := snd (process_episode w date url false s) in
  requests (trace s')
  = requests (trace s)
    ++ match lookup_node folder (fs s) with
       | Some (File _) => []
       | _ => [Sent (Get url)]
       end
  /\ (forall d, d <> folder -> lookup_node d (fs s') = lookup_node d (fs s))
  /\ (forall n, n <> transcript_txt -> n <> episode_txt ->
        lookup_file folder n (fs s') = lookup_file folder n (fs s)).
Proof.
  intros folder. cbv zeta. rewrite process_episode_run. fold folder.
  pose proof (keeps_mkdir_p folder [transcript_txt; episode_txt] true s) as K.
  destruct (mkdir_p folder s) as [r s1] eqn:M. cbn [snd] in K.
  assert (NotIn : forall n, n <> transcript_txt -> n <> episode_txt ->
                            ~ In n [transcript_txt; episode_txt])
    by (intros n H1 H2 [E|[E|[]]]; congruence).
  destruct (mkdir_p_ok _ _ _ _ M) as [T [[-> _]|[-> ->]]].
  - assert (Req : match lookup_node folder (fs s) with
                  | Some (File _) => []
                  | _ => [Sent (Get url)]
                  end = [Sent (Get url)]).
    { unfold mkdir_p in M.
      destruct (lookup_node folder (fs s)) as [[f|es]|]; [discriminate| |];
        reflexivity. }
    rewrite Req. clear Req. cbv zeta.
    set (sent := {| fs := fs s1; trace := trace s ++ [Sent (Get url)] |}).
    assert (Ks : touches folder [transcript_txt; episode_txt] false s sent).
    { destruct K as (N & F & _). repeat split; auto. discriminate. }
    assert (Rs : requests (trace sent) = requests (trace s) ++ [Sent (Get url)])
      by (unfold sent; cbn [trace]; now rewrite requests_app).
    assert (Goal' : forall s2,
              touches folder [transcript_txt; episode_txt] true sent s2 ->
              requests (trace s2) = requests (trace s) ++ [Sent (Get url)]
              /\ (forall d, d <> folder ->
                            lookup_node d (fs s2) = lookup_node d (fs s))
              /\ (forall n, n <> transcript_txt -> n <> episode_txt ->
                            lookup_file folder n (fs s2)
                            = lookup_file folder n (fs s))).
    { intros s2 (N2 & F2 & Q2). destruct Ks as (N1 & F1 & _).
      split; [now rewrite Q2|]. split.
      - intros d Hd. now rewrite N2, N1.
      - intros n H1 H2. rewrite F2, F1; auto. }
    destruct (w (trace s) (Get url)) as [|resp];
      [apply Goal', touches_refl|].
    destruct (error_status resp); [apply Goal', touches_refl|].
    apply Goal', keeps_after_page_quiet.
  - cbn [snd]. unfold mkdir_p in M.
    destruct (lookup_node folder (fs s)) as [[f|es]|]; try discriminate.
    rewrite app_nil_r. auto.
Qed.

Lemma keeps_after_page url folder download mp3_url transcript image_url :
  keeps (touches folder
           ([transcript_txt; episode_txt; image_jpg]
            ++ match mp3_url with Some m => [path_name m] | None => [] end)
           false)
    (after_page w url folder download (mp3_url, transcript, image_url)).
Proof.
  unfold after_page.
  set (names := [transcript_txt; episode_txt; image_jpg]
                ++ match mp3_url with Some m => [path_name m] | None => [] end).
  pose proof (touches_refl folder names false) as Rr.
  pose proof (touches_trans folder names false) as Rt.
  apply (keeps_bind _ Rt).
  { destruct mp3_url as [[|c m]|]; cbn [truthy negb];
      try apply keeps_print.
    destruct download; [|apply (keeps_ret _ Rr)].
    apply keeps_download_file. unfold names. simpl. auto. }
  intros _. apply (keeps_bind _ Rt).
  { destruct (negb (truthy transcript)); [apply keeps_print|].
    apply keeps_write_text. unfold names. simpl. auto. }
  intros _. apply (keeps_bind _ Rt).
  { destruct (truthy image_url && download); [|apply (keeps_ret _ Rr)].
    apply (keeps_try_except _ Rt); [|intros e; apply keeps_print].
    apply keeps_download_file. unfold names. simpl. auto. }
  intros _. apply (keeps_bind _ Rt).
  { apply keeps_write_text. unfold names. simpl. auto. }
  intros _. apply (keeps_ret _ Rr).
Qed.

(** X15: [process_episode] stays inside the directory of its episode:
    however the call ends, every other entry of the data directory is
    what it was, and inside the directory the only files that may change
    are [transcript.txt], [episode.txt], [image.jpg] and the file named
    after the audio URL found on the page. *)
Theorem X15_process_episode_stays_in_folder (date : datetime) (url : str)
  (download : bool) (s : state) :
  let folder := folder_name date (safe_slug_from_url url) in
  let s' := snd (process_episode w date url download s) in
  (forall d, d <> folder -> lookup_node d (fs s') = lookup_node d (fs s))
  /\ (forall n,
        ~ In n ([transcript_txt; episode_txt; image_jpg]
                ++ audio_names (w (trace s) (Get url))) ->
        lookup_file folder n (fs s') = lookup_file folder n (fs s)).
Proof.
  intros folder. cbv zeta. rewrite process_episode_run. fold folder.
  set (names := [transcript_txt; episode_txt; image_jpg]
                ++ audio_names (w (trace s) (Get url))).
  pose proof (keeps_mkdir_p folder names false s) as K.
  destruct (mkdir_p folder s) as [r s1] eqn:M. cbn [snd] in K.
  assert (Goal' : forall s2,
            touches folder names false s s2 ->
            (forall d, d <> folder ->
                       lookup_node d (fs s2) = lookup_node d (fs s))
            /\ (forall n, ~ In n names ->
                          lookup_file folder n (fs s2)
                          = lookup_file folder n (fs s)))
    by (intros s2 (N2 & F2 & _); auto).
  destruct r as [[]|e|]; [|now apply Goal'|now apply Goal'].
  cbv zeta.
  set (sent := {| fs := fs s1; trace := trace s ++ [Sent (Get url)] |}).
  assert (Ks : touches folder names false s sent).
  { destruct K as (N & F & _). repeat split; auto. discriminate. }
  destruct (w (trace s) (Get url)) as [|resp] eqn:Hw;
    [now apply Goal'|].
  destruct (error_status resp); [now apply Goal'|].
  apply Goal'. apply (touches_trans _ _ _ _ _ _ Ks).
  unfold names, audio_names. rewrite ?Hw.
  pose proof (keeps_after_page url folder download (mp3_search (text resp))
                (extract_transcript (parsed resp))
                (extract_image_url (parsed resp)) sent) as KA.
  destruct (mp3_search (text resp)); exact KA.
Qed.

End OneEpisode.

Section OneEpisodeExamples.
Import Py Sys Spec Utils Scraper Examples.

Lemma X13_process_episode_page_fails_witness :
  exists e s',
    process_episode offline (march 15) (episode_url 15) true empty_disk
    = (Raise e, s')
    /\ is_RequestException e = true
    /\ trace s' = trace empty_disk ++ [Sent (Get (episode_url 15))]
    /\ (forall d name,
          lookup_file d name (fs s') = lookup_file d name (fs empty_disk))
    /\ (forall es,
          lookup_node (folder_name (march 15)
                         (safe_slug_from_url (episode_url 15)))
            (fs empty_disk) = Some (Dir es) ->
          fs s' = fs empty_disk)
    /\ (lookup_node (folder_name (march 15)
                       (safe_slug_from_url (episode_url 15)))
          (fs empty_disk) = None ->
        fs s' = Some (entries_of (fs empty_disk)
                      ++ [(folder_name (march 15)
                             (safe_slug_from_url (episode_url 15)), Dir [])])).
Proof.
  apply (X13_process_episode_page_fails offline (march 15) (episode_url 15)
           true empty_disk).
  - intros f. vm_compute. discriminate.
  - reflexivity.
Defined.

End OneEpisodeExamples.

Section ScrapeThenRead.
Import Py Sys Spec Utils Scraper.

Variable w : world.

Lemma touches_other_file dir names silent s s' name :
  touches dir names silent s s' -> ~ In name names ->
  lookup_file dir name (fs s') = lookup_file dir name (fs s).
Proof. intros (_ & F & _) Hn. now apply F. Qed.

(** The two text files after a completed run that found a transcript. *)
Lemma after_page_files url folder download mp3_url t image_url s0 out s' :
  t <> [] ->
  after_page w url folder download (mp3_url, Some t, image_url) s0
  = (Ok out, s') ->
  lookup_file folder transcript_txt (fs s') = Some (Text t)
  /\ exists record, lookup_file folder episode_txt (fs s') = Some (Text record).
Proof.
  intros Hne. unfold after_page. intros H.
  apply bind_Ok_inv in H as ([] & s1 & _ & H).
  apply bind_Ok_inv in H as ([] & s2 & W & H).
  apply bind_Ok_inv in H as ([] & s3 & I & H).
  apply bind_Ok_inv in H as ([] & s4 & E & H).
  destruct t as [|c t]; [congruence|]. cbn [truthy negb or_empty] in W.
  apply write_text_ok in W.
  assert (K3 : touches folder [image_jpg] false s2 s3).
  { pose proof (touches_refl folder [image_jpg] false) as Rr.
    pose proof (touches_trans folder [image_jpg] false) as Rt.
    assert (K : keeps (touches folder [image_jpg] false)
                  (if truthy image_url && download
                   then try_except
                          (download_file w (or_empty image_url) folder image_jpg)
                          is_RequestException
                          (fun err => print (WarnImage url err))
                   else ret tt)).
    { destruct (truthy image_url && download); [|apply (keeps_ret _ Rr)].
      apply (keeps_try_except _ Rt); [|intros e; apply keeps_print].
      apply keeps_download_file. simpl. auto. }
    specialize (K s2). now rewrite I in K. }
  assert (K4 : touches folder [episode_txt] false s3 s4).
  { pose proof (keeps_write_text folder [episode_txt] false episode_txt
                  (join [newline]
                     (metadata_lines url mp3_url (Some (c :: t)) image_url))
                  ltac:(simpl; auto) s3) as K.
    now rewrite E in K. }
  injection H as _ <-. split.
  - rewrite (touches_other_file _ _ _ _ _ transcript_txt K4),
      (touches_other_file _ _ _ _ _ transcript_txt K3); [exact W| |];
      intros [X|[]]; discriminate.
  - apply write_text_ok in E. eauto.
Qed.

Lemma find_episodes_lists (s : state) (dir : str) (f g : file) :
  lookup_file dir transcript_txt (fs s) = Some f ->
  lookup_file dir episode_txt (fs s) = Some g ->
  exists eps, find_episodes s = (Ok eps, s) /\ In dir eps.
Proof.
  intros Hf Hg. rewrite find_episodes_run. eexists. split; [reflexivity|].
  apply lookup_file_Some in Hf as (es & Hn & Ht).
  apply lookup_file_Some in Hg as (es' & Hn' & He).
  rewrite Hn in Hn'. injection Hn' as <-.
  apply (dict_get_In _ _ _ str_eq) in Hn.
  change dir with (fst (dir, Dir es)). apply in_map, filter_In. split.
  - eapply Permutation_in; [|exact Hn].
    apply Permutation_sym, stable_sort_perm.
  - unfold is_episode, has_file, dict_mem. cbn [snd]. now rewrite Ht, He.
Qed.

(** X16: what the scraper writes, the uploader finds.  After a completed
    run of [process_episode] on a page with a transcript,
    [transcript.txt] reads back as exactly the extracted transcript, and
    [find_episodes] lists the directory of the episode. *)
Theorem X16_scraped_transcript_reads_back (date : datetime) (url : str)
  (download : bool) (s : state) (folder : str) (s' : state) (resp : response)
  (t : str) :
  process_episode w date url download s = (Ok folder, s') ->
  w (trace s) (Get url) = Answer resp ->
  extract_transcript (parsed resp) = Some t ->
  read_text folder transcript_txt s' = (Ok t, s')
  /\ exists eps, find_episodes s' = (Ok eps, s') /\ In folder eps.
Proof.
  intros Hrun Hw Ht.
  destruct (extract_transcript_some _ _ Ht) as (Hne & _ & _ & Hsp).
  pose proof (process_episode_inv w _ _ _ _ _ _ Hrun) as (_ & _ & _ & Hf & _).
  rewrite process_episode_run in Hrun. cbv zeta in Hrun.
  rewrite <- Hf in Hrun.
  destruct (mkdir_p folder s) as [[[]|e|] s1]; try discriminate.
  rewrite Hw, Ht in Hrun.
  destruct (error_status resp); [discriminate|].
  apply (after_page_files _ _ _ _ _ _ _ _ _ Hne) in Hrun
    as [Htr [record Hrec]].
  split; [|exact (find_episodes_lists _ _ _ _ Htr Hrec)].
  rewrite (read_text_ok _ _ _ _ Htr). f_equal. f_equal.
  apply universal_newlines_id. unfold no_char.
  destruct (existsb (N.eqb carriage_return) t) eqn:X; [|reflexivity].
  apply existsb_exists in X as (c & Hc & Ec). apply N.eqb_eq in Ec. subst c.
  destruct (Hsp _ Hc eq_refl); discriminate.
Qed.

End ScrapeThenRead.

Section ScrapeThenReadExamples.
Import Py Sys Spec Utils Scraper Examples.

Lemma X16_scraped_transcript_reads_back_witness :
  let s' := snd (process_episode episode_site (march 15) (episode_url 15) true
                   empty_disk) in
  read_text folder_0315 transcript_txt s'
  = (Ok (lit "Bonjour a tous." ++ [newline; newline]
         ++ lit "Voici le journal."), s')
  /\ exists eps, find_episodes s' = (Ok eps, s') /\ In folder_0315 eps.
Proof.
  apply (X16_scraped_transcript_reads_back episode_site (march 15)
           (episode_url 15) true empty_disk folder_0315 _ episode_page
           _ episode_run); reflexivity.
Defined.

End ScrapeThenReadExamples.

(* ===================================================================== *)
(** * Further properties: the LingQ client *)
(* ===================================================================== *)

Section IndexEntries.
Import Py Sys Spec LingqApi.

Lemma key_eqb_sym (a b : Json.value) : Json.key_eqb a b = Json.key_eqb b a.
Proof.
  destruct a, b; simpl; try reflexivity.
  - now destruct b, b0.
  - apply Z.eqb_sym.
  - destruct (Py.eqb s s0) eqn:E.
    + apply eqb_true_iff in E. subst. now rewrite eqb_refl.
    + symmetry. apply eqb_false_iff. apply eqb_false_iff in E. congruence.
Qed.

Lemma dict_set_keys_all (Q : Json.value -> Prop) (k v : Json.value)
  (m : mapping) :
  Forall (fun b => Q (fst b)) m -> Q k ->
  Forall (fun b => Q (fst b)) (dict_set Json.key_eqb k v m).
Proof.
  intros Hm Hk. induction Hm as [|[k' v'] m Hk' Hm IH]; simpl.
  - repeat constructor. exact Hk.
  - destruct (Json.key_eqb k k'); constructor; auto.
Qed.

Lemma dict_set_distinct (k v : Json.value) (m : mapping) :
  distinct_titles m -> distinct_titles (dict_set Json.key_eqb k v m).
Proof.
  unfold distinct_titles.
  induction 1 as [|[k' v'] m Hk' Hm IH]; simpl.
  - repeat constructor.
  - destruct (Json.key_eqb k k') eqn:E.
    + constructor; assumption.
    + constructor; [|exact IH].
      apply (dict_set_keys_all (fun x => Json.key_eqb k' x = false));
        [exact Hk'|]. now rewrite key_eqb_sym.
Qed.

Lemma dict_set_entries (k v : Json.value) (m : mapping) :
  forallb lesson_entry m = true -> lesson_entry (k, v) = true ->
  forallb lesson_entry (dict_set Json.key_eqb k v m) = true.
Proof.
  intros Hm Hkv. induction m as [|[k' v'] m IH]; simpl.
  - now rewrite Hkv.
  - simpl in Hm. apply andb_true_iff in Hm as [H1 H2].
    destruct (Json.key_eqb k k'); simpl.
    + rewrite H2, andb_true_r. unfold lesson_entry in *. simpl in *.
      apply andb_true_iff in H1 as [H1 _].
      apply andb_true_iff in Hkv as [_ Hv]. now rewrite H1, Hv.
    + now rewrite H1, IH.
Qed.

Lemma add_lessons_entries (results : list Json.value) (m : mapping) :
  forallb lesson_entry m = true -> distinct_titles m ->
  forallb lesson_entry (fst (add_lessons results m)) = true
  /\ distinct_titles (fst (add_lessons results m)).
Proof.
  revert m. induction results as [|lesson rest IH]; intros m He Hd;
    [split; assumption|].
  destruct lesson as [| | | | |d]; try (split; assumption).
  cbn [add_lessons].
  destruct (Json.truthy (Json.get (lit "title") d)) eqn:T; [|now apply IH].
  destruct (Json.truthy (Json.or_else (Json.get (lit "id") d)
                           (Json.get (lit "pk") d))) eqn:P; [|now apply IH].
  cbn [andb].
  destruct (Json.hashable (Json.get (lit "title") d)) eqn:Hh;
    [|split; assumption].
  apply IH; [|now apply dict_set_distinct].
  apply dict_set_entries; [exact He|].
  unfold lesson_entry. cbn [fst snd]. now rewrite T, Hh, P.
Qed.

Lemma lessons_round_entries (resp : response) (m : mapping) :
  forallb lesson_entry m = true -> distinct_titles m ->
  forallb lesson_entry (fst (lessons_round resp m)) = true
  /\ distinct_titles (fst (lessons_round resp m)).
Proof.
  intros He Hd. unfold lessons_round.
  destruct (status_code resp =? 404)%Z; [split; assumption|].
  destruct ((400 <=? status_code resp)%Z && (status_code resp <? 600)%Z);
    [split; assumption|].
  destruct (json resp) as [data|]; [|split; assumption].
  destruct (negb (Json.truthy (_normalize_collection_list data)));
    [split; assumption|].
  destruct (iterate (_normalize_collection_list data)) as [lessons|];
    [|split; assumption].
  pose proof (add_lessons_entries lessons m He Hd) as H.
  destruct (add_lessons lessons m) as [m' [e|]]; [exact H|].
  destruct data; try exact H.
  now destruct (negb (Json.truthy (Json.get (lit "next") d))).
Qed.

Variable w : world.

Lemma lessons_loop_entries fuel lang pk page (m : mapping) s m' s' :
  lessons_loop w fuel lang pk page m s = (Ok m', s') ->
  forallb lesson_entry m = true -> distinct_titles m ->
  forallb lesson_entry m' = true /\ distinct_titles m'.
Proof.
  revert page m s. induction fuel as [|fuel IH]; intros page m s;
    [discriminate|].
  cbn [lessons_loop]. mrun.
  destruct (w (trace s) (ListLessons lang pk page)) as [|resp].
  - intros [= <- <-]. auto.
  - intros H He Hd.
    pose proof (lessons_round_entries resp m He Hd) as [He' Hd'].
    destruct (lessons_round resp m) as [m1 [| |e]]; cbn [fst] in *.
    + exact (IH _ _ _ H He' Hd').
    + injection H as <- <-. auto.
    + injection H as <- <-. auto.
Qed.

(** X17: the title-to-id mapping [get_collection_lessons] returns is
    well formed whatever the server sends: every title and every id in
    it counts as true (no null, no empty string, no zero), every title
    can be a dictionary key, and no two entries have equal titles. *)
Theorem X17_lesson_index_entries (fuel : nat) (lang : str) (pk : Z)
  (s : state) (m : mapping) (s' : state) :
  get_collection_lessons w fuel lang pk s = (Ok m, s') ->
  forallb lesson_entry m = true /\ distinct_titles m.
Proof.
  unfold get_collection_lessons. intros H.
  apply (lessons_loop_entries _ _ _ _ _ _ _ _ H); [reflexivity|constructor].
Qed.

(** X18: [update_lesson_metadata] never raises: it sends its one request,
    leaves the files alone, and answers [True] exactly when the request
    was answered with a status that is no error. *)
Theorem X18_update_lesson_metadata_never_raises (lang : str)
  (lesson_id : Json.value) (shelves tags : list str) (s : state) :
  exists b s',
    update_lesson_metadata w lang lesson_id shelves tags s = (Ok b, s')
    /\ fs s' = fs s
    /\ requests (trace s')
       = requests (trace s) ++ [Sent (PatchLesson lang lesson_id shelves tags)]
    /\ b = negb (fails (w (trace s) (PatchLesson lang lesson_id shelves tags))).
Proof.
  unfold update_lesson_metadata, raise_for_status, Scraper.raise_for_status.
  mrun.
  destruct (w (trace s) (PatchLesson lang lesson_id shelves tags)) as [|resp];
    cbn [fails].
  - do 2 eexists. split; [reflexivity|]. cbn [fs trace].
    rewrite !requests_app. simpl. rewrite !app_nil_r. auto.
  - unfold error_status.
    destruct ((400 <=? status_code resp)%Z && (status_code resp <? 600)%Z);
      mrun; do 2 eexists; (split; [reflexivity|]); cbn [fs trace];
      rewrite !requests_app; simpl; rewrite !app_nil_r; auto.
Qed.

(** X19: [generate_audio_timestamps] sends its one request and leaves the
    files alone; an answer gives [True] when its status is no error or is
    409, [False] for any other error status; a request that gets no
    answer is not handled and raises out of the call. *)
Theorem X19_generate_audio_timestamps (lang : str) (lesson_id : Json.value)
  (s : state) :
  let run := generate_audio_timestamps w lang lesson_id s in
  fs (snd run) = fs s
  /\ requests (trace (snd run))
     = requests (trace s) ++ [Sent (GenAudio lang lesson_id)]
  /\ fst run
     = match w (trace s) (GenAudio lang lesson_id) with
       | Unreachable => Raise ConnectionError
       | Answer resp =>
           Ok (negb (error_status resp) || (status_code resp =? 409)%Z)
       end.
Proof.
  cbv zeta.
  unfold generate_audio_timestamps, raise_for_status,
    Scraper.raise_for_status.
  mrun.
  destruct (w (trace s) (GenAudio lang lesson_id)) as [|resp].
  - cbn [fst snd fs trace]. rewrite requests_app. auto.
  - unfold error_status.
    destruct ((400 <=? status_code resp)%Z && (status_code resp <? 600)%Z);
      mrun; [destruct (status_code resp =? 409)%Z|];
      simpl; rewrite ?requests_app; simpl; rewrite ?app_nil_r; auto.
Qed.

End IndexEntries.

Section IndexEntriesExamples.
Import Py Sys Spec LingqApi Examples.

Lemma X17_lesson_index_entries_witness :
  exists m s',
    get_collection_lessons three_pages 5 (lit "fr") 1 empty_disk = (Ok m, s')
    /\ length m = 3
    /\ forallb lesson_entry m = true /\ distinct_titles m.
Proof.
  do 2 eexists. split; [vm_compute; reflexivity|]. split; [reflexivity|].
  eapply (X17_lesson_index_entries three_pages 5 (lit "fr") 1 empty_disk).
  reflexivity.
Defined.

End IndexEntriesExamples.

(* ===================================================================== *)
(** * Further properties: the requests of one upload *)
(* ===================================================================== *)

Section UploadRequests.
Import Py Sys Spec Utils LingqApi Main.

Variable w : world.
Variable config : Config.t.

Lemma open_rb_run dir name s :
  snd (open_rb dir name s) = s.
Proof.
  unfold open_rb. destruct name as [n|]; [|reflexivity]. mrun.
  now destruct (lookup_file dir n (fs s)).
Qed.

(** [create_lesson] sends at most one request, the one that creates the
    lesson, and only when the files to attach could be opened. *)
Lemma create_lesson_requests episode_dir lang title text collection_pk status
  level tags original_url audio_file external_audio duration image_file s r s' :
  create_lesson w config episode_dir lang title text collection_pk
    status level tags original_url audio_file external_audio
    duration image_file s = (r, s') ->
  (s' = s /\ (exists e, r = Raise e)
   /\ exists name, (audio_file = Some name \/ image_file = Some name)
                   /\ lookup_file episode_dir name (fs s) = None)
  \/ requests (trace s')
     = requests (trace s)
       ++ [Sent (CreateLesson lang
                   (lesson_fields config lang title text collection_pk status
                      level tags original_url audio_file external_audio
                      duration)
                   audio_file image_file)].
Proof.
  unfold create_lesson. unfold bind at 1.
  pose proof (open_rb_run episode_dir audio_file s) as O1.
  destruct (open_rb episode_dir audio_file s) as [[[]|e|] s1] eqn:E1;
    cbn [snd] in O1; subst s1.
  2:{ intros [= <- <-]. left. split; [reflexivity|]. split; [eauto|].
      unfold open_rb in E1. destruct audio_file as [n|];
        revert E1; mrun; [|discriminate].
      destruct (lookup_file episode_dir n (fs s)) eqn:L; cbv beta iota;
        [discriminate|]. intros _. eauto. }
  2:{ exfalso. unfold open_rb in E1. destruct audio_file as [n|];
        revert E1; mrun; [destruct (lookup_file episode_dir n (fs s))|];
        cbv beta iota; discriminate. }
  unfold bind at 1.
  pose proof (open_rb_run episode_dir image_file s) as O2.
  destruct (open_rb episode_dir image_file s) as [[[]|e|] s1] eqn:E2;
    cbn [snd] in O2; subst s1.
  2:{ intros [= <- <-]. left. split; [reflexivity|]. split; [eauto|].
      unfold open_rb in E2. destruct image_file as [n|];
        revert E2; mrun; [|discriminate].
      destruct (lookup_file episode_dir n (fs s)) eqn:L; cbv beta iota;
        [discriminate|]. intros _. eauto. }
  2:{ exfalso. unfold open_rb in E2. destruct image_file as [n|];
        revert E2; mrun; [destruct (lookup_file episode_dir n (fs s))|];
        cbv beta iota; discriminate. }
  intros H. right. revert H.
  unfold raise_for_status, Scraper.raise_for_status. mrun.
  match goal with
  | |- context [w (trace s) ?rq] => destruct (w (trace s) rq) as [|resp]
  end.
  - intros [= <- <-]. cbn [trace]. now rewrite requests_app.
  - destruct (400 <=? status_code resp)%Z; mrun;
      destruct ((status_code resp <? 600)%Z); cbn [andb]; mrun;
      try destruct (json resp); intros [= <- <-]; cbn [trace];
      rewrite ?requests_app; simpl; rewrite ?app_nil_r; reflexivity.
Qed.

Lemma update_lesson_metadata_requests lang lesson_id shelves tags s :
  exists b s',
    update_lesson_metadata w lang lesson_id shelves tags s = (Ok b, s')
    /\ requests (trace s')
       = requests (trace s) ++ [Sent (PatchLesson lang lesson_id shelves tags)].
Proof.
  unfold update_lesson_metadata, raise_for_status, Scraper.raise_for_status.
  mrun.
  destruct (w (trace s) (PatchLesson lang lesson_id shelves tags)) as [|resp].
  - do 2 eexists. split; [reflexivity|]. cbn [trace].
    rewrite !requests_app. simpl. now rewrite !app_nil_r.
  - destruct ((400 <=? status_code resp)%Z && (status_code resp <? 600)%Z);
      mrun; do 2 eexists; (split; [reflexivity|]); cbn [trace];
      rewrite !requests_app; simpl; now rewrite !app_nil_r.
Qed.

Lemma generate_audio_timestamps_requests lang lesson_id s :
  requests (trace (snd (generate_audio_timestamps w lang lesson_id s)))
  = requests (trace s) ++ [Sent (GenAudio lang lesson_id)].
Proof.
  unfold generate_audio_timestamps, raise_for_status,
    Scraper.raise_for_status.
  mrun.
  destruct (w (trace s) (GenAudio lang lesson_id)) as [|resp].
  - cbn [snd trace]. now rewrite requests_app.
  - destruct ((400 <=? status_code resp)%Z && (status_code resp <? 600)%Z);
      mrun; [destruct (status_code resp =? 409)%Z|];
      simpl; rewrite ?requests_app; simpl; now rewrite ?app_nil_r.
Qed.

Lemma create_and_finish_shape episode_dir title text original_url status year
  mp3_file image_file s :
  exists l,
    requests (trace (snd (create_and_finish w config episode_dir title text
                            original_url status year mp3_file image_file s)))
    = requests (trace s) ++ l
    /\ upload_shape (Config.LINGQ_LANGUAGE_CODE config) l
    /\ (l = [] ->
        exists name, (mp3_file = Some name \/ image_file = Some name)
                     /\ lookup_file episode_dir name (fs s) = None)
    /\ (forall e post,
          l = e :: post ->
          e = Sent (CreateLesson (Config.LINGQ_LANGUAGE_CODE config)
                      (lesson_fields config (Config.LINGQ_LANGUAGE_CODE config)
                         title text (Some (Config.LINGQ_COURSE_ID config))
                         status (Some 3%Z) [year] (Some original_url)
                         mp3_file None None)
                      mp3_file image_file)).
Proof.
  unfold create_and_finish. unfold bind at 1.
  match goal with
  | |- context [create_lesson w config ?a ?b ?c ?d ?e ?f ?g ?h ?i ?j ?k ?l ?m s] =>
      destruct (create_lesson w config a b c d e f g h i j k l m s)
        as [r1 s1] eqn:C
  end.
  apply create_lesson_requests in C.
  destruct C as [(-> & [e ->] & Missing)|C].
  { exists []. cbn [snd]. rewrite app_nil_r. split; [reflexivity|].
    split; [exact I|]. split; [intros _; exact Missing|discriminate]. }
  assert (Only : exists l,
             requests (trace s1) = requests (trace s) ++ l
             /\ upload_shape (Config.LINGQ_LANGUAGE_CODE config) l
             /\ (l = [] ->
                 exists name, (mp3_file = Some name \/ image_file = Some name)
                              /\ lookup_file episode_dir name (fs s) = None)
             /\ (forall e post,
                   l = e :: post ->
                   e = Sent (CreateLesson (Config.LINGQ_LANGUAGE_CODE config)
                               (lesson_fields config
                                  (Config.LINGQ_LANGUAGE_CODE config)
                                  title text
                                  (Some (Config.LINGQ_COURSE_ID config))
                                  status (Some 3%Z) [year] (Some original_url)
                                  mp3_file None None)
                               mp3_file image_file))).
  { eexists. split; [exact C|]. simpl. split; [auto|].
    split; [discriminate|]. now intros e post [= <- _]. }
  destruct r1 as [lesson|e|]; [|exact Only|exact Only].
  unfold bind at 1.
  destruct lesson as [| | | | |d]; try exact Only.
  unfold ret at 1. unfold bind at 1, print at 1.
  set (s2 := {| fs := fs s1;
                trace := trace s1
                         ++ [Printed (SuccessLessonCreated
                                        (Json.get (lit "id") d) status)] |}).
  assert (R2 : requests (trace s2) = requests (trace s1)).
  { unfold s2. cbn [trace]. rewrite requests_app. apply app_nil_r. }
  unfold bind at 1.
  destruct (Json.truthy (Json.get (lit "id") d)).
  2:{ unfold ret. cbn [snd]. rewrite R2. exact Only. }
  unfold bind at 1.
  match goal with
  | |- context [update_lesson_metadata w ?a ?b ?c ?d s2] =>
      destruct (update_lesson_metadata_requests a b c d s2)
        as (b0 & s3 & -> & R3)
  end.
  destruct mp3_file as [mp3|].
  - unfold bind at 1.
    pose proof (generate_audio_timestamps_requests
                  (Config.LINGQ_LANGUAGE_CODE config)
                  (Json.get (lit "id") d) s3) as R4.
    destruct (generate_audio_timestamps w (Config.LINGQ_LANGUAGE_CODE config)
                (Json.get (lit "id") d) s3) as [r4 s4].
    cbn [snd] in R4.
    assert (G : requests (trace s4)
                = requests (trace s)
                  ++ [Sent (CreateLesson (Config.LINGQ_LANGUAGE_CODE config)
                              (lesson_fields config
                                 (Config.LINGQ_LANGUAGE_CODE config) title text
                                 (Some (Config.LINGQ_COURSE_ID config)) status
                                 (Some 3%Z) [year] (Some original_url)
                                 (Some mp3) None None)
                              (Some mp3) image_file);
                      Sent (PatchLesson (Config.LINGQ_LANGUAGE_CODE config)
                              (Json.get (lit "id") d)
                              (Config.LINGQ_DEFAULT_SHELVES config)
                              (unique (Config.LINGQ_DEFAULT_TAGS config
                                       ++ [year])));
                      Sent (GenAudio (Config.LINGQ_LANGUAGE_CODE config)
                              (Json.get (lit "id") d))]).
    { rewrite R4, R3, R2, C, <- !app_assoc. reflexivity. }
    eexists. split; [|split; [|split]].
    + destruct r4 as [b4|e4|]; cbn [snd]; exact G.
    + simpl. repeat split; discriminate.
    + discriminate.
    + now intros e post [= <- _].
  - unfold ret. cbn [snd]. eexists. split; [|split; [|split]].
    + rewrite R3, R2, C, <- app_assoc. reflexivity.
    + simpl. auto.
    + discriminate.
    + now intros e post [= <- _].
Qed.

Lemma find_is_listed (p : str -> bool) (es : list (str * file)) (n : str) :
  find p (map fst es) = Some n -> dict_get Py.eqb n es <> None.
Proof.
  intros H. apply find_some in H as [Hin _].
  induction es as [|[k v] es IH]; simpl in *; [contradiction|].
  destruct (Py.eqb n k) eqn:E; [discriminate|].
  destruct Hin as [->|Hin]; [now rewrite eqb_refl in E|auto].
Qed.

(** One call of [upload_single_episode]: what it sends, and that it does
    send the request that creates the lesson when the directory is
    uploadable. *)
Lemma upload_single_episode_shape (episode_dir : str) (existing : mapping)
  (s : state) :
  exists l,
    requests (trace (snd (upload_single_episode w config episode_dir existing s)))
    = requests (trace s) ++ l
    /\ upload_shape (Config.LINGQ_LANGUAGE_CODE config) l
    /\ (uploadable episode_dir existing (fs s) -> l <> []).
Proof.
  unfold upload_single_episode. mrun.
  set (s0 := {| fs := fs s;
                trace := trace s ++ [Printed (Process episode_dir)] |}).
  assert (R0 : requests (trace s0) = requests (trace s)).
  { unfold s0. cbn [trace]. rewrite requests_app. apply app_nil_r. }
  assert (Nothing : forall t,
             requests t = requests (trace s) ->
             (uploadable episode_dir existing (fs s) -> False) ->
             exists l, requests t = requests (trace s) ++ l
                       /\ upload_shape (Config.LINGQ_LANGUAGE_CODE config) l
                       /\ (uploadable episode_dir existing (fs s) -> l <> [])).
  { intros t Ht Hno. exists []. rewrite app_nil_r.
    split; [exact Ht|]. split; [exact I|]. intros Hu. now elim Hno. }
  assert (Print0 : forall m,
             requests (trace s0 ++ [Printed m]) = requests (trace s)).
  { intros m. rewrite requests_app, R0. apply app_nil_r. }
  destruct (lookup_file episode_dir transcript_txt (fs s)) as [f|] eqn:Lt;
    mrun.
  2:{ apply Nothing; [apply Print0|]. intros ([t Ht] & _). congruence. }
  destruct (parse_episode_meta episode_dir s0) as [r1 s1] eqn:E1.
  pose proof E1 as E1'. apply parse_episode_meta_reads in E1' as [-> _].
  destruct r1 as [meta|e|].
  2,3: apply Nothing; [exact R0|]; intros (_ & He & _);
       destruct (parse_episode_meta_ok episode_dir s0 He) as [m Hm];
       congruence.
  destruct (read_text episode_dir transcript_txt s0) as [r2 s2] eqn:E2.
  pose proof E2 as E2'. apply read_text_reads in E2' as [-> _].
  destruct r2 as [content|e|].
  2,3: apply Nothing; [exact R0|]; intros ([t Ht] & _);
       rewrite (read_text_ok _ _ _ s0 Ht) in E2; discriminate.
  change (title_prefix ++ firstn 10 episode_dir) with (title_of episode_dir).
  destruct (dict_get Json.key_eqb (Json.Str (title_of episode_dir)) existing)
    as [id|] eqn:Ex; mrun.
  { apply Nothing; [apply Print0|]. intros (_ & _ & Hn). congruence. }
  destruct (find_mp3 episode_dir s0) as [r3 s3] eqn:E3.
  pose proof E3 as E3'. apply find_mp3_reads in E3' as (-> & _ & Hdir).
  apply lookup_file_Some in Lt as (es & Hn & _).
  destruct (Hdir es Hn) as [mp3_file ->].
  assert (Hmp3 : forall n, mp3_file = Some n ->
                           lookup_file episode_dir n (fs s) <> None).
  { intros n ->. unfold find_mp3, iterdir, bind, ret, s0 in E3.
    cbn [fs] in E3. rewrite Hn in E3. injection E3 as E3.
    unfold lookup_file. rewrite Hn. now apply (find_is_listed is_mp3). }
  cbn [fs].
  match goal with
  | |- context [create_and_finish w config ?a ?b ?c ?d ?e ?f ?g ?h s0] =>
      destruct (create_and_finish_shape a b c d e f g h s0)
        as (l & Rl & Sl & Nl & _);
      destruct (create_and_finish w config a b c d e f g h s0) as [r4 s4]
  end.
  cbn [snd] in Rl. exists l. split; [|split; [exact Sl|]].
  - destruct r4 as [b|e|]; cbn [snd]; try (now rewrite Rl, R0).
    destruct (is_Exception e); cbn [snd trace];
      rewrite ?requests_app, Rl, R0; simpl; now rewrite ?app_nil_r.
  - intros _ ->. destruct (Nl eq_refl) as (name & [Hm|Hi] & Hnone).
    + exact (Hmp3 name Hm Hnone).
    + change (fs s0) with (fs s) in Hi, Hnone.
      destruct (lookup_file episode_dir image_jpg (fs s)) eqn:Li;
        [|discriminate].
      injection Hi as <-. congruence.
Qed.

(** X20: the requests of one call of [upload_single_episode], however
    it ends: it changes no file and sends nothing, or one request that
    creates a lesson, followed at most by the metadata update and, when
    an audio file was attached and only then, by the timestamp request
    for the same lesson. *)
Theorem X20_upload_single_episode_requests (episode_dir : str)
  (existing : mapping) (s : state) :
  let s' := snd (upload_single_episode w config episode_dir existing s) in
  fs s' = fs s
  /\ exists l,
       requests (trace s') = requests (trace s) ++ l
       /\ upload_shape (Config.LINGQ_LANGUAGE_CODE config) l.
Proof.
  cbv zeta. split.
  - destruct (upload_single_episode w config episode_dir existing s)
      as [r s'] eqn:E.
    now apply upload_single_episode_inv in E.
  - destruct (upload_single_episode_shape episode_dir existing s)
      as (l & R & Sh & _).
    exists l. split; assumption.
Qed.

Lemma creates_app (t u : list event) : creates (t ++ u) = creates t + creates u.
Proof. unfold creates. now rewrite filter_app, length_app. Qed.

Lemma creates_requests (t : list event) : creates (requests t) = creates t.
Proof.
  unfold creates, requests. induction t as [|e t IH]; [reflexivity|].
  destruct e as [rq|m]; simpl; [|exact IH].
  destruct rq; simpl; now rewrite IH.
Qed.

Lemma upload_shape_creates lang (l : list event) :
  upload_shape lang l -> l <> [] -> creates l = 1.
Proof.
  destruct l as [|e l]; [congruence|]. intros H _.
  destruct e as [rq|m]; [|contradiction].
  destruct rq; try contradiction. destruct H as [_ H].
  destruct l as [|e1 l]; [reflexivity|].
  destruct e1 as [rq1|m1]; [|contradiction].
  destruct rq1; try contradiction.
  destruct l as [|e2 l]; [reflexivity|].
  destruct e2 as [rq2|m2]; [|contradiction].
  destruct rq2; try contradiction.
  destruct l; [reflexivity|contradiction].
Qed.

(** X21: the lesson index is read once, before the loop, and is not
    updated by it: in one batch every uploadable directory gets its own
    request that creates a lesson, also when several directories of the
    batch carry the same date and so the same title. *)
Theorem X21_upload_all_one_create_each (targets : list str)
  (existing : mapping) (n : nat) (s : state) :
  (forall d, In d targets -> uploadable d existing (fs s)) ->
  exists count s',
    upload_all w config targets existing n s = (Ok count, s')
    /\ creates (trace s') = creates (trace s) + length targets.
Proof.
  revert n s. induction targets as [|ep rest IH]; intros n s Hup.
  - exists n, s. split; [reflexivity|]. simpl. lia.
  - cbn [upload_all]. unfold bind at 1.
    destruct (upload_single_episode_shape ep existing s) as (l & R & Sh & Ne).
    destruct (upload_single_episode w config ep existing s) as [r1 s1] eqn:E1.
    cbn [snd] in R.
    apply upload_single_episode_inv in E1 as (F1 & _ & evs & _ & _ & B1).
    pose proof (Hup ep (or_introl eq_refl)) as Hep.
    assert (Hread : readable ep (fs s)).
    { destruct Hep as ([t Ht] & He & _). intros data. split; [|apply He].
      rewrite Ht. discriminate. }
    destruct (B1 Hread) as (b & -> & _).
    destruct (IH (if b then S n else n) s1) as (count & s' & E & C).
    { intros d Hd. rewrite F1. apply Hup. now right. }
    exists count, s'. split; [exact E|].
    rewrite C, <- (creates_requests (trace s1)), R, creates_app,
      creates_requests, (upload_shape_creates _ _ Sh (Ne Hep)).
    simpl. lia.
Qed.

End UploadRequests.

Section UploadRequestsExamples.
Import Py Sys Spec Utils LingqApi Main Examples.

Lemma X21_upload_all_one_create_each_witness :
  title_of (lit "2024-03-15-journal") = title_of (lit "2024-03-15-journal-bis")
  /\ exists count s',
       upload_all offline cfg
         [lit "2024-03-15-journal"; lit "2024-03-15-journal-bis"] [] 0 same_day
       = (Ok count, s')
       /\ creates (trace s') = creates (trace same_day) + 2.
Proof.
  split; [reflexivity|].
  apply (X21_upload_all_one_create_each offline cfg
           [lit "2024-03-15-journal"; lit "2024-03-15-journal-bis"] [] 0
           same_day).
  intros d [<-|[<-|[]]]; (split; [eexists; reflexivity|]);
    (split; [intros data; vm_compute; discriminate|reflexivity]).
Defined.

End UploadRequestsExamples.

(* ===================================================================== *)
(** * Further properties: the upload command *)
(* ===================================================================== *)

Section UploadCommand.
Import Py Sys Spec Utils LingqApi Main.

Variable w : world.

(** The loop of the lesson index: no exception leaves it. *)
Lemma lessons_loop_never_raises fuel lang pk (p : Z) (m : mapping) (s : state) :
  let run := lessons_loop w fuel lang pk p m s in
  (forall e, fst run <> Raise e)
  /\ fs (snd run) = fs s
  /\ exists n,
       n <= fuel
       /\ requests (trace (snd run))
          = requests (trace s) ++ page_requests lang pk p n
       /\ (fst run = OutOfFuel -> n = fuel).
Proof.
  cbv zeta. revert p m s. induction fuel as [|fuel IH]; intros p m s.
  - cbn [lessons_loop fst snd]. split; [discriminate|]. split; [reflexivity|].
    exists 0. unfold page_requests. simpl. rewrite app_nil_r. auto.
  - cbn [lessons_loop]. mrun.
    assert (One : forall t,
              requests t = requests (trace s ++ [Sent (ListLessons lang pk p)]) ->
              requests t = requests (trace s) ++ page_requests lang pk p 1).
    { intros t ->. rewrite requests_app. unfold page_requests. simpl.
      now rewrite Z.add_0_r. }
    assert (Stop : forall (r : result mapping) t,
              (forall e, r <> Raise e) -> r <> OutOfFuel ->
              requests t = requests (trace s ++ [Sent (ListLessons lang pk p)]) ->
              (forall e, fst (r, {| fs := fs s; trace := t |}) <> Raise e)
              /\ fs (snd (r, {| fs := fs s; trace := t |})) = fs s
              /\ exists n,
                   n <= S fuel
                   /\ requests (trace (snd (r, {| fs := fs s; trace := t |})))
                      = requests (trace s) ++ page_requests lang pk p n
                   /\ (fst (r, {| fs := fs s; trace := t |}) = OutOfFuel ->
                       n = S fuel)).
    { intros r t Hr Hf Ht. cbn [fst snd fs trace]. split; [exact Hr|].
      split; [reflexivity|]. exists 1. split; [lia|]. split; [now apply One|].
      intros ->. now elim Hf. }
    destruct (w (trace s) (ListLessons lang pk p)) as [|resp].
    + apply Stop; try discriminate. cbn [trace]. rewrite !requests_app.
      simpl. now rewrite app_nil_r.
    + destruct (lessons_round resp m) as [m' [| |e]].
      * destruct (IH (p + 1)%Z m'
                    {| fs := fs s;
                       trace := trace s ++ [Sent (ListLessons lang pk p)] |})
          as (Hr & Hf & n & Hn & Hq & Ho).
        split; [exact Hr|]. split; [exact Hf|]. exists (S n).
        split; [lia|]. split; [|intros H; now rewrite (Ho H)].
        rewrite Hq. cbn [trace]. rewrite requests_app, page_requests_S.
        simpl. now rewrite <- app_assoc.
      * apply Stop; try discriminate. reflexivity.
      * apply Stop; try discriminate. cbn [trace]. rewrite !requests_app.
        simpl. now rewrite app_nil_r.
Qed.

(** X22: [get_collection_lessons] never raises: whatever goes wrong with
    a page (no answer, an error status, a body that is no JSON or has
    the wrong shape) ends the loop with the mapping built so far.  The
    call leaves the files alone and its requests are those for the pages
    1, 2, ... up to some page, one each. *)
Theorem X22_lesson_index_never_raises (fuel : nat) (lang : str) (pk : Z)
  (s : state) :
  let run := get_collection_lessons w fuel lang pk s in
  (forall e, fst run <> Raise e)
  /\ fs (snd run) = fs s
  /\ exists n,
       n <= fuel
       /\ requests (trace (snd run))
          = requests (trace s) ++ page_requests lang pk 1 n
       /\ (fst run = OutOfFuel -> n = fuel).
Proof.
  unfold get_collection_lessons.
  exact (lessons_loop_never_raises fuel lang pk 1 [] s).
Qed.

Variable config : Config.t.





End UploadCommand.

Section UploadCommandExamples.
Import Py Sys Spec Utils LingqApi Main Examples.


End UploadCommandExamples.

Section UploadCommandEdges.
Import Py Sys Spec Utils LingqApi Main.

Variable w : world.
Variable config : Config.t.

(** X24: without an API token (unset or empty) [cmd_upload] raises
    [ValueError] at once: nothing is read, printed or sent. *)
Theorem X24_cmd_upload_needs_token (fuel : nat) (a : args) (s : state) :
  truthy (Config.LINGQ_API_TOKEN config) = false ->
  cmd_upload w config fuel a s = (Raise ValueError, s).
Proof.
  intros H. unfold cmd_upload, init. now rewrite H.
Qed.

Lemma filter_none {A} (p : A -> bool) (l : list A) :
  (forall x, In x l -> p x = false) -> filter p l = [].
Proof.
  induction l as [|x l IH]; simpl; [reflexivity|]. intros H.
  rewrite (H x (or_introl eq_refl)). apply IH. auto.
Qed.

(** X25: when [--date] is given and no episode directory has a name that
    starts with it, [cmd_upload] prints its warning and returns: the
    lesson index is not fetched, no request is sent, and [--limit] plays
    no part. *)
Theorem X25_cmd_upload_date_without_match (fuel : nat) (a : args) (s : state)
  (d : str) :
  truthy (Config.LINGQ_API_TOKEN config) = true ->
  date a = Some d -> d <> [] ->
  (forall e, In e (entries_of (fs s)) -> is_episode e = true ->
             starts_with d (fst e) = false) ->
  cmd_upload w config fuel a s
  = (Ok tt, {| fs := fs s;
               trace := trace s ++ [Printed (WarnNoEpisodes d)] |}).
Proof.
  intros Htok Hd Hne Hno. unfold cmd_upload, init. rewrite Htok.
  unfold bind at 1, ret at 1. unfold bind at 1. rewrite find_episodes_run.
  unfold select_targets. rewrite Hd. destruct d as [|c d]; [congruence|].
  cbn [truthy or_empty]. rewrite filter_none; [reflexivity|].
  intros x Hx. apply in_map_iff in Hx as (e & <- & He).
  apply filter_In in He as [He Hep]. apply Hno; [|exact Hep].
  eapply Permutation_in; [apply stable_sort_perm|exact He].
Qed.

Lemma digit_inj (a b : Z) : digit a = digit b -> (a mod 10 = b mod 10)%Z.
Proof.
  intros H. apply Z.eqb_eq. rewrite <- digit_eqb. now apply N.eqb_eq.
Qed.

Lemma strftime_ymd_inj (d1 d2 : datetime) :
  four_digit_year d1 -> four_digit_year d2 ->
  strftime_ymd d1 = strftime_ymd d2 -> d1 = d2.
Proof.
  intros (Hy1 & Hm1 & Hd1) (Hy2 & Hm2 & Hd2). unfold strftime_ymd.
  rewrite (year_digits _ Hy1), (year_digits _ Hy2). cbn [app].
  intros [= Y1 Y2 Y3 Y4 M1 M2 D1 D2].
  apply digit_inj in Y1, Y2, Y3, Y4, M1, M2, D1, D2.
  destruct d1 as [y1 m1 a1], d2 as [y2 m2 a2]. cbn [year month day] in *.
  f_equal; Z.to_euclidean_division_equations; lia.
Qed.

(** X26: for a date whose year has four digits (1000 to 9999) the title
    of a lesson is fixed by the date in the name of its directory: for
    the directory [process_episode] makes for such a date it is the
    prefix followed by the date, whatever the slug; so two directories
    made for such dates get the same title exactly when they carry the
    same date. *)
Theorem X26_title_by_date (d1 d2 : datetime) (slug1 slug2 : str) :
  four_digit_year d1 -> four_digit_year d2 ->
  title_of (folder_name d1 slug1) = title_prefix ++ strftime_ymd d1
  /\ (title_of (folder_name d1 slug1) = title_of (folder_name d2 slug2)
      <-> d1 = d2).
Proof.
  intros H1 H2.
  assert (T : forall d slug, four_digit_year d ->
             title_of (folder_name d slug) = title_prefix ++ strftime_ymd d).
  { intros d slug (Hy & _). unfold title_of, folder_name, strftime_ymd.
    rewrite (year_digits _ Hy). reflexivity. }
  split; [now apply T|]. rewrite !T by assumption. split.
  - intros E. apply app_inv_head in E. now apply strftime_ymd_inj.
  - now intros ->.
Qed.

End UploadCommandEdges.

Section UploadCommandEdgesExamples.
Import Py Sys Spec Utils LingqApi Main Examples.

Lemma X24_cmd_upload_needs_token_witness :
  cmd_upload offline (Config.config (Some []) None) 5 upload_two three_days
  = (Raise ValueError, three_days).
Proof.
  apply (X24_cmd_upload_needs_token offline (Config.config (Some []) None) 5
           upload_two three_days).
  reflexivity.
Defined.

Lemma X25_cmd_upload_date_without_match_witness :
  cmd_upload offline cfg 0
    {| limit := 1; pages := 3; since := None; date := Some (lit "2024-04") |}
    three_days
  = (Ok tt, {| fs := fs three_days;
               trace := trace three_days
                        ++ [Printed (WarnNoEpisodes (lit "2024-04"))] |}).
Proof.
  apply (X25_cmd_upload_date_without_match offline cfg 0
           {| limit := 1; pages := 3; since := None;
              date := Some (lit "2024-04") |}
           three_days (lit "2024-04")).
  - reflexivity.
  - reflexivity.
  - discriminate.
  - intros e [<-|[<-|[<-|[]]]] _; reflexivity.
Defined.

Lemma X26_title_by_date_witness :
  title_of (folder_name (march 15) (lit "journal"))
  = title_prefix ++ strftime_ymd (march 15)
  /\ (title_of (folder_name (march 15) (lit "journal"))
      = title_of (folder_name (march 15) (lit "journal-bis"))
      <-> march 15 = march 15).
Proof.
  apply (X26_title_by_date (march 15) (march 15) (lit "journal")
           (lit "journal-bis")); unfold four_digit_year; simpl; lia.
Defined.

End UploadCommandEdgesExamples.

(* ===================================================================== *)
(** * Further properties: reading an episode directory *)
(* ===================================================================== *)

Section ReadingMeta.
Import Py Sys Spec Utils.
#[local] Arguments N.eqb : simpl never.

Lemma split_once_has_colon (line k v : str) :
  split_once colon line = Some (k, v) -> has_colon line = true.
Proof.
  unfold has_colon. revert k v. induction line as [|c line IH]; intros k v;
    [discriminate|]. cbn [split_once existsb].
  destruct (N.eqb_spec c colon) as [->|Hne].
  - intros _. now rewrite N.eqb_refl.
  - destruct (split_once colon line) as [[k' v']|]; [|discriminate].
    intros _. rewrite (IH k' v' eq_refl). apply orb_true_r.
Qed.

Lemma dict_mem_set (k k' v : str) (meta : dict str str) :
  dict_mem Py.eqb k' (dict_set Py.eqb k v meta)
  = Py.eqb k' k || dict_mem Py.eqb k' meta.
Proof.
  unfold dict_mem. destruct (Py.eqb k' k) eqn:E.
  - apply str_eq in E. subst. now rewrite (dict_get_set_same _ _ _ str_eq).
  - rewrite (dict_get_set_other _ _ _ str_eq); [reflexivity|].
    intros ->. now rewrite eqb_refl in E.
Qed.

(** The loop over the lines of [episode.txt]. *)
Lemma fold_parse_line (lines : list str) (meta : dict str str) :
  NoDup (map fst meta) ->
  let meta' := fold_left parse_line lines meta in
  NoDup (map fst meta')
  /\ (forall k v, In (k, v) meta' ->
        In (k, v) meta
        \/ exists line k0 v0,
             In line lines /\ split_once colon line = Some (k0, v0)
             /\ k = strip k0 /\ v = strip v0)
  /\ (forall k, dict_mem Py.eqb k meta = true ->
                dict_mem Py.eqb k meta' = true)
  /\ (forall line k0 v0,
        In line lines -> split_once colon line = Some (k0, v0) ->
        dict_mem Py.eqb (strip k0) meta' = true).
Proof.
  cbv zeta. revert meta. induction lines as [|line lines IH]; intros meta Hnd.
  - simpl. repeat split; auto; intros line k0 v0 [].
  - cbn [fold_left].
    assert (Hnd' : NoDup (map fst (parse_line meta line))).
    { unfold parse_line. destruct (has_colon line); [|exact Hnd].
      destruct (split_once colon line) as [[k v]|]; [|exact Hnd].
      now apply (dict_set_NoDup _ _ _ str_eq). }
    destruct (IH _ Hnd') as (N & From & Mono & All).
    split; [exact N|]. split; [|split].
    + intros k v Hin. destruct (From k v Hin) as [H|(l & k0 & v0 & Hl & S & E)].
      * unfold parse_line in H. destruct (has_colon line); [|now left].
        destruct (split_once colon line) as [[k0 v0]|] eqn:S; [|now left].
        apply (dict_set_In _ _ _ str_eq) in H as [[-> ->]|H]; [|now left].
        right. exists line, k0, v0. simpl. auto.
      * right. exists l, k0, v0. simpl. auto.
    + intros k Hk. apply Mono. unfold parse_line.
      destruct (has_colon line); [|exact Hk].
      destruct (split_once colon line) as [[k0 v0]|]; [|exact Hk].
      rewrite dict_mem_set, Hk. apply orb_true_r.
    + intros l k0 v0 [<-|Hl] S; [|exact (All l k0 v0 Hl S)].
      apply Mono. unfold parse_line.
      rewrite (split_once_has_colon _ _ _ S), S, dict_mem_set, eqb_refl.
      reflexivity.
Qed.

(** X27: [parse_episode_meta] on a directory without [episode.txt]
    returns the empty mapping without an error; on a text file it
    returns a mapping that has every key once, in which every entry
    comes from a line with a colon, cut at its first colon, key and value
    stripped, and which has a key for every such line. *)
Theorem X27_parse_episode_meta (dir : str) (s : state) :
  (lookup_file dir episode_txt (fs s) = None ->
   parse_episode_meta dir s = (Ok [], s))
  /\ (forall content,
        lookup_file dir episode_txt (fs s) = Some (Text content) ->
        exists meta,
          parse_episode_meta dir s = (Ok meta, s)
          /\ NoDup (map fst meta)
          /\ (forall k v, In (k, v) meta ->
                exists line k0 v0,
                  In line (split newline (universal_newlines content))
                  /\ split_once colon line = Some (k0, v0)
                  /\ k = strip k0 /\ v = strip v0)
          /\ (forall line k0 v0,
                In line (split newline (universal_newlines content)) ->
                split_once colon line = Some (k0, v0) ->
                dict_mem Py.eqb (strip k0) meta = true)).
Proof.
  split.
  - intros H. unfold parse_episode_meta. mrun. now rewrite H.
  - intros content H. unfold parse_episode_meta. mrun. rewrite H. mrun.
    rewrite (read_text_ok _ _ _ _ H).
    destruct (fold_parse_line (split newline (universal_newlines content)) []
                (NoDup_nil _)) as (N & From & _ & All).
    eexists. split; [reflexivity|]. split; [exact N|]. split; [|exact All].
    intros k v Hin. destruct (From k v Hin) as [[]|Hl]. exact Hl.
Qed.

Lemma take_drop_while p (s : str) : s = take_while p s ++ drop_while p s.
Proof.
  induction s as [|c s IH]; simpl; [reflexivity|].
  destruct (p c); simpl; [now rewrite <- IH|reflexivity].
Qed.

Lemma lower_ascii_not_dot (c x : N) :
  (if in_range 65 90 c then (c + 32)%N else c) = x -> x <> dot ->
  not_dot c = true.
Proof.
  intros H Hx. unfold not_dot. apply negb_true_iff, N.eqb_neq. intros ->.
  simpl in H. congruence.
Qed.

Lemma is_mp3_iff (name : str) : is_mp3 name = true <-> mp3_name name.
Proof.
  unfold is_mp3, mp3_name, suffix. rewrite eqb_true_iff. split.
  - intros H.
    pose proof (take_drop_while not_dot (rev name)) as E.
    pose proof (drop_while_head_false not_dot (rev name)) as Hd.
    destruct (drop_while not_dot (rev name)) as [|d0 [|d1 dr]];
      try discriminate.
    destruct (take_while not_dot (rev name)) as [|e ex]; [discriminate|].
    unfold not_dot in Hd. apply negb_false_iff, N.eqb_eq in Hd. subst d0.
    apply (f_equal (@rev N)) in E. rewrite rev_involutive in E.
    exists (rev (d1 :: dr)), (dot :: rev (e :: ex)).
    split; [|split; [|exact H]].
    + rewrite E, rev_app_distr.
      change (rev (dot :: d1 :: dr)) with (rev (d1 :: dr) ++ [dot]).
      now rewrite <- app_assoc.
    + intros X. apply (f_equal (@length N)) in X.
      rewrite length_rev in X. discriminate.
  - intros (stem & ext & -> & Hne & Hl).
    destruct ext as [|c0 [|c1 [|c2 [|c3 [|c4 ext]]]]]; try discriminate.
    injection Hl as H0 H1 H2 H3.
    assert (D0 : c0 = dot).
    { destruct (in_range 65 90 c0) eqn:R; [|exact H0]. exfalso.
      unfold in_range in R. apply andb_true_iff in R as [R _].
      apply N.leb_le in R. change dot with 46%N in H0. lia. }
    subst c0.
    pose proof (lower_ascii_not_dot c1 _ H1 ltac:(discriminate)) as N1.
    pose proof (lower_ascii_not_dot c2 _ H2 ltac:(discriminate)) as N2.
    pose proof (lower_ascii_not_dot c3 _ H3 ltac:(discriminate)) as N3.
    destruct (exists_last Hne) as (stem' & x & ->).
    rewrite rev_app_distr, rev_app_distr.
    change (rev [dot; c1; c2; c3]) with [c3; c2; c1; dot].
    change (rev [x]) with [x]. cbn [app take_while drop_while].
    rewrite N3, N2, N1.
    change (not_dot dot) with false. cbv iota.
    cbn [rev app lower_ascii map]. change (in_range 65 90 dot) with false.
    cbv iota. now rewrite H1, H2, H3.
Qed.

(** X28: in a directory, [find_mp3] never fails; it returns the first
    entry, in listing order, whose name is something followed by an
    extension that reads [.mp3] in any mix of cases (so not a file named
    just [.mp3]), and [None] when there is no such entry. *)
Theorem X28_find_mp3 (dir : str) (s : state) (es : list (str * file)) :
  lookup_node dir (fs s) = Some (Dir es) ->
  exists r,
    find_mp3 dir s = (Ok r, s)
    /\ match r with
       | Some n =>
           mp3_name n
           /\ lookup_file dir n (fs s) <> None
           /\ exists before after,
                map fst es = before ++ n :: after
                /\ Forall (fun x => ~ mp3_name x) before
       | None => Forall (fun x => ~ mp3_name x) (map fst es)
       end.
Proof.
  intros Hn. unfold find_mp3, iterdir, bind, ret. rewrite Hn.
  eexists. split; [reflexivity|].
  assert (First : forall names,
             match find is_mp3 names with
             | Some n =>
                 exists before after,
                   names = before ++ n :: after
                   /\ Forall (fun x => ~ mp3_name x) before
             | None => Forall (fun x => ~ mp3_name x) names
             end).
  { induction names as [|x names IH]; simpl; [constructor|].
    destruct (is_mp3 x) eqn:E.
    - exists [], names. split; [reflexivity|constructor].
    - assert (Hx : ~ mp3_name x)
        by (intros H; apply is_mp3_iff in H; congruence).
      destruct (find is_mp3 names) as [n|].
      + destruct IH as (before & after & -> & Hb).
        exists (x :: before), after. split; [reflexivity|].
        now constructor.
      + now constructor. }
  specialize (First (map fst es)).
  destruct (find is_mp3 (map fst es)) as [n|] eqn:F; [|exact First].
  split; [|split; [|exact First]].
  - apply is_mp3_iff. now apply find_some in F.
  - unfold lookup_file. rewrite Hn. now apply (find_is_listed is_mp3).
Qed.

End ReadingMeta.

Section ReadingMetaExamples.
Import Py Sys Spec Utils Examples.

Lemma X28_find_mp3_witness :
  exists r,
    find_mp3 dir_0315 with_audio = (Ok r, with_audio)
    /\ match r with
       | Some n =>
           mp3_name n
           /\ lookup_file dir_0315 n (fs with_audio) <> None
           /\ exists before after,
                map fst [(audio_name, Binary [73; 68; 51]%N)]
                = before ++ n :: after
                /\ Forall (fun x => ~ mp3_name x) before
       | None =>
           Forall (fun x => ~ mp3_name x)
             (map fst [(audio_name, Binary [73; 68; 51]%N)])
       end.
Proof.
  apply (X28_find_mp3 dir_0315 with_audio [(audio_name, Binary [73; 68; 51]%N)]).
  reflexivity.
Defined.

End ReadingMetaExamples.

(* ===================================================================== *)
(** * Further properties: the tags of a lesson *)
(* ===================================================================== *)

Section LessonTags.
Import Py Sys Spec Utils LingqApi Main.

Lemma values_of_app key (a b : list (str * str)) :
  values_of key (a ++ b) = values_of key a ++ values_of key b.
Proof. unfold values_of. now rewrite filter_app, map_app. Qed.

Lemma values_of_other key k (l : list str) :
  Py.eqb k key = false -> values_of key (map (fun x => (k, x)) l) = [].
Proof.
  intros H. unfold values_of. induction l as [|x l IH]; [reflexivity|].
  cbn [map filter fst]. now rewrite H.
Qed.

Lemma values_of_same key (l : list str) :
  values_of key (map (fun x => (key, x)) l) = l.
Proof.
  unfold values_of. induction l as [|x l IH]; [reflexivity|].
  cbn [map filter fst]. rewrite eqb_refl. cbn [map snd]. now rewrite IH.
Qed.

Lemma mem_In (x : str) (l : list str) : mem x l = true <-> In x l.
Proof.
  unfold mem. rewrite existsb_exists. split.
  - intros (y & Hy & E). apply str_eq in E. now subst.
  - intros H. exists x. split; [exact H|apply eqb_refl].
Qed.

Lemma unique_from (l acc : list str) :
  NoDup acc ->
  let r := fold_left (fun acc x => if mem x acc then acc else acc ++ [x]) l acc in
  NoDup r /\ forall t, In t r <-> In t acc \/ In t l.
Proof.
  cbv zeta. revert acc. induction l as [|x l IH]; intros acc Hnd.
  - simpl. split; [exact Hnd|]. intros t. tauto.
  - cbn [fold_left]. destruct (mem x acc) eqn:M.
    + destruct (IH acc Hnd) as [N I]. split; [exact N|].
      intros t. rewrite I. apply mem_In in M. simpl.
      split; [tauto|]. intros [H|[<-|H]]; auto.
    + assert (Hx : ~ In x acc).
      { intros H. apply mem_In in H. congruence. }
      destruct (IH (acc ++ [x])) as [N I].
      { apply NoDup_app; [exact Hnd|repeat constructor; simpl; tauto|].
        intros y Hy [<-|[]]. contradiction. }
      split; [exact N|]. intros t. rewrite I, in_app_iff. simpl. tauto.
Qed.

Variable w : world.
Variable config : Config.t.

(** The values sent under [tags[]]. *)
Lemma lesson_fields_tags lang title text collection_pk status level tags
  original_url audio_file external_audio duration :
  values_of (lit "tags[]")
    (lesson_fields config lang title text collection_pk status level tags
       original_url audio_file external_audio duration)
  = tags ++ filter (fun tag => negb (mem tag tags))
              (Config.LINGQ_DEFAULT_TAGS config).
Proof.
  unfold lesson_fields. rewrite !values_of_app, !values_of_same.
  rewrite values_of_other by reflexivity.
  assert (E1 : values_of (lit "tags[]")
                 match collection_pk with
                 | Some pk => if (pk =? 0)%Z then []
                              else [(lit "collection", str_of_Z pk)]
                 | None => []
                 end = []).
  { destruct collection_pk as [pk|]; [|reflexivity].
    now destruct (pk =? 0)%Z. }
  assert (E2 : values_of (lit "tags[]")
                 match level with
                 | Some l => [(lit "level", str_of_Z l)]
                 | None => []
                 end = [])
    by now destruct level.
  assert (E3 : values_of (lit "tags[]")
                 (if truthy original_url
                  then [(lit "original_url", or_empty original_url)]
                  else []) = [])
    by now destruct (truthy original_url).
  assert (E4 : values_of (lit "tags[]")
                 match duration with
                 | Some d => if (d =? 0)%Z then []
                             else [(lit "duration", str_of_Z d)]
                 | None => []
                 end = []).
  { destruct duration as [d|]; [|reflexivity]. now destruct (d =? 0)%Z. }
  assert (E5 : values_of (lit "tags[]")
                 match audio_file with
                 | Some _ => []
                 | None => if truthy external_audio
                           then [(lit "external_audio", or_empty external_audio)]
                           else []
                 end = []).
  { destruct audio_file; [reflexivity|]. now destruct (truthy external_audio). }
  rewrite E1, E2, E3, E4, E5. cbn [values_of filter map fst snd app].
  change (Py.eqb (lit "title") (lit "tags[]")) with false.
  change (Py.eqb (lit "text") (lit "tags[]")) with false.
  change (Py.eqb (lit "status") (lit "tags[]")) with false.
  change (Py.eqb (lit "accent") (lit "tags[]")) with false.
  change (Py.eqb (lit "language") (lit "tags[]")) with false.
  cbv iota. cbn [map app]. now rewrite !app_nil_r.
Qed.

(** The requests of the [try] block of [upload_single_episode], one by
    one. *)
Lemma create_and_finish_events episode_dir title text original_url status year
  mp3_file image_file s :
  exists l,
    requests (trace (snd (create_and_finish w config episode_dir title text
                            original_url status year mp3_file image_file s)))
    = requests (trace s) ++ l
    /\ (l = []
        \/ exists post,
             l = Sent (CreateLesson (Config.LINGQ_LANGUAGE_CODE config)
                         (lesson_fields config (Config.LINGQ_LANGUAGE_CODE config)
                            title text (Some (Config.LINGQ_COURSE_ID config))
                            status (Some 3%Z) [year] (Some original_url)
                            mp3_file None None)
                         mp3_file image_file) :: post
             /\ (post = []
                 \/ exists id,
                      let patch :=
                        Sent (PatchLesson (Config.LINGQ_LANGUAGE_CODE config) id
                                (Config.LINGQ_DEFAULT_SHELVES config)
                                (unique (Config.LINGQ_DEFAULT_TAGS config
                                         ++ [year]))) in
                      post = [patch]
                      \/ post = [patch;
                                 Sent (GenAudio
                                         (Config.LINGQ_LANGUAGE_CODE config)
                                         id)])).
Proof.
  unfold create_and_finish. unfold bind at 1.
  match goal with
  | |- context [create_lesson w config ?a ?b ?c ?d ?e ?f ?g ?h ?i ?j ?k ?l ?m s] =>
      destruct (create_lesson w config a b c d e f g h i j k l m s)
        as [r1 s1] eqn:C
  end.
  apply create_lesson_requests in C.
  destruct C as [(-> & [e ->] & _)|C].
  { exists []. cbn [snd]. rewrite app_nil_r. split; [reflexivity|now left]. }
  assert (Only : exists l,
             requests (trace s1) = requests (trace s) ++ l
             /\ (l = []
                 \/ exists post,
                      l = Sent (CreateLesson (Config.LINGQ_LANGUAGE_CODE config)
                                  (lesson_fields config
                                     (Config.LINGQ_LANGUAGE_CODE config)
                                     title text
                                     (Some (Config.LINGQ_COURSE_ID config))
                                     status (Some 3%Z) [year]
                                     (Some original_url) mp3_file None None)
                                  mp3_file image_file) :: post
                      /\ (post = []
                          \/ exists id,
                               let patch :=
                                 Sent (PatchLesson
                                         (Config.LINGQ_LANGUAGE_CODE config) id
                                         (Config.LINGQ_DEFAULT_SHELVES config)
                                         (unique
                                            (Config.LINGQ_DEFAULT_TAGS config
                                             ++ [year]))) in
                               post = [patch]
                               \/ post = [patch;
                                          Sent (GenAudio
                                                  (Config.LINGQ_LANGUAGE_CODE
                                                     config) id)]))).
  { eexists. split; [exact C|]. right. eexists. split; [reflexivity|now left]. }
  destruct r1 as [lesson|e|]; [|exact Only|exact Only].
  unfold bind at 1.
  destruct lesson as [| | | | |d]; try exact Only.
  unfold ret at 1. unfold bind at 1, print at 1.
  set (s2 := {| fs := fs s1;
                trace := trace s1
                         ++ [Printed (SuccessLessonCreated
                                        (Json.get (lit "id") d) status)] |}).
  assert (R2 : requests (trace s2) = requests (trace s1)).
  { unfold s2. cbn [trace]. rewrite requests_app. apply app_nil_r. }
  unfold bind at 1.
  destruct (Json.truthy (Json.get (lit "id") d)).
  2:{ unfold ret. cbn [snd]. rewrite R2. exact Only. }
  unfold bind at 1.
  match goal with
  | |- context [update_lesson_metadata w ?a ?b ?c ?d s2] =>
      destruct (update_lesson_metadata_requests w a b c d s2)
        as (b0 & s3 & -> & R3)
  end.
  destruct mp3_file as [mp3|].
  - unfold bind at 1.
    pose proof (generate_audio_timestamps_requests w
                  (Config.LINGQ_LANGUAGE_CODE config)
                  (Json.get (lit "id") d) s3) as R4.
    destruct (generate_audio_timestamps w (Config.LINGQ_LANGUAGE_CODE config)
                (Json.get (lit "id") d) s3) as [r4 s4].
    cbn [snd] in R4.
    assert (G : requests (trace s4)
                = requests (trace s)
                  ++ [Sent (CreateLesson (Config.LINGQ_LANGUAGE_CODE config)
                              (lesson_fields config
                                 (Config.LINGQ_LANGUAGE_CODE config) title text
                                 (Some (Config.LINGQ_COURSE_ID config)) status
                                 (Some 3%Z) [year] (Some original_url)
                                 (Some mp3) None None)
                              (Some mp3) image_file);
                      Sent (PatchLesson (Config.LINGQ_LANGUAGE_CODE config)
                              (Json.get (lit "id") d)
                              (Config.LINGQ_DEFAULT_SHELVES config)
                              (unique (Config.LINGQ_DEFAULT_TAGS config
                                       ++ [year])));
                      Sent (GenAudio (Config.LINGQ_LANGUAGE_CODE config)
                              (Json.get (lit "id") d))]).
    { rewrite R4, R3, R2, C, <- !app_assoc. reflexivity. }
    eexists. split.
    + destruct r4 as [b4|e4|]; cbn [snd]; exact G.
    + right. eexists. split; [reflexivity|]. right.
      exists (Json.get (lit "id") d). right. reflexivity.
  - unfold ret. cbn [snd]. eexists. split.
    + rewrite R3, R2, C, <- app_assoc. reflexivity.
    + right. eexists. split; [reflexivity|]. right.
      exists (Json.get (lit "id") d). left. reflexivity.
Qed.

(** The same for one call of [upload_single_episode]; the tag it gives
    is [date_part[:4]]. *)
Lemma upload_single_episode_events (episode_dir : str) (existing : mapping)
  (s : state) :
  exists l,
    requests (trace (snd (upload_single_episode w config episode_dir existing s)))
    = requests (trace s) ++ l
    /\ (l = []
        \/ exists title text original_url status mp3_file image_file post,
             l = Sent (CreateLesson (Config.LINGQ_LANGUAGE_CODE config)
                         (lesson_fields config (Config.LINGQ_LANGUAGE_CODE config)
                            title text (Some (Config.LINGQ_COURSE_ID config))
                            status (Some 3%Z)
                            [firstn 4 (firstn 10 episode_dir)]
                            (Some original_url) mp3_file None None)
                         mp3_file image_file) :: post
             /\ (post = []
                 \/ exists id,
                      let patch :=
                        Sent (PatchLesson (Config.LINGQ_LANGUAGE_CODE config) id
                                (Config.LINGQ_DEFAULT_SHELVES config)
                                (unique (Config.LINGQ_DEFAULT_TAGS config
                                         ++ [firstn 4 (firstn 10 episode_dir)]))) in
                      post = [patch]
                      \/ post = [patch;
                                 Sent (GenAudio
                                         (Config.LINGQ_LANGUAGE_CODE config)
                                         id)])).
Proof.
  unfold upload_single_episode. mrun.
  set (s0 := {| fs := fs s;
                trace := trace s ++ [Printed (Process episode_dir)] |}).
  assert (R0 : requests (trace s0) = requests (trace s)).
  { unfold s0. cbn [trace]. rewrite requests_app. apply app_nil_r. }
  assert (Nothing : forall t (P : list event -> Prop),
             requests t = requests (trace s) ->
             exists l, requests t = requests (trace s) ++ l
                       /\ (l = [] \/ P l)).
  { intros t P Ht. exists []. rewrite app_nil_r. split; [exact Ht|now left]. }
  assert (Print0 : forall m,
             requests (trace s0 ++ [Printed m]) = requests (trace s)).
  { intros m. rewrite requests_app, R0. apply app_nil_r. }
  destruct (lookup_file episode_dir transcript_txt (fs s)) as [f|] eqn:Lt;
    mrun.
  2:{ apply Nothing. apply Print0. }
  destruct (parse_episode_meta episode_dir s0) as [r1 s1] eqn:E1.
  apply parse_episode_meta_reads in E1 as [-> _].
  destruct r1 as [meta|e|].
  2,3: apply Nothing; exact R0.
  destruct (read_text episode_dir transcript_txt s0) as [r2 s2] eqn:E2.
  apply read_text_reads in E2 as [-> _].
  destruct r2 as [content|e|].
  2,3: apply Nothing; exact R0.
  destruct (dict_get Json.key_eqb
              (Json.Str (title_prefix ++ firstn 10 episode_dir)) existing)
    as [id|]; mrun.
  { apply Nothing. apply Print0. }
  destruct (find_mp3 episode_dir s0) as [r3 s3] eqn:E3.
  apply find_mp3_reads in E3 as (-> & _ & _).
  destruct r3 as [mp3_file|e|].
  2,3: apply Nothing; exact R0.
  cbn [fs].
  match goal with
  | |- context [create_and_finish w config ?a ?b ?c ?d ?e ?f ?g ?h s0] =>
      destruct (create_and_finish_events a b c d e f g h s0) as (l & Rl & Hl);
      destruct (create_and_finish w config a b c d e f g h s0) as [r4 s4]
  end.
  cbn [snd] in Rl. exists l. split.
  - destruct r4 as [b|e|]; cbn [snd]; try (now rewrite Rl, R0).
    destruct (is_Exception e); cbn [snd trace];
      rewrite ?requests_app, Rl, R0; simpl; now rewrite ?app_nil_r.
  - destruct Hl as [->|(post & -> & Hp)]; [now left|]. right.
    do 6 eexists. exists post. split; [reflexivity|exact Hp].
Qed.

(** X29: the tags of a new lesson.  [create_lesson] sends the given
    tags and then every default tag that is not among them, so no tag
    twice when the given tags and the default tags are lists without
    repetition.  Among the requests of one call of
    [upload_single_episode], the request that creates the lesson carries
    as tags the year (the first four characters of the directory name)
    and the default tags; and a metadata update, when one is sent, comes
    right after that request, carries the default shelves, holds no tag
    twice, and has the same set of tags as that request. *)
Theorem X29_lesson_tags (lang title text : str) (collection_pk : option Z)
  (status : str) (level : option Z) (tags : list str)
  (original_url audio_file external_audio : option str) (duration : option Z)
  (episode_dir : str) (existing : mapping) (s : state) :
  let sent given :=
    values_of (lit "tags[]")
      (lesson_fields config lang title text collection_pk status level given
         original_url audio_file external_audio duration) in
  let defaults := Config.LINGQ_DEFAULT_TAGS config in
  let year := firstn 4 episode_dir in
  (forall t, In t (sent tags) <-> In t tags \/ In t defaults)
  /\ (NoDup tags -> NoDup defaults -> NoDup (sent tags))
  /\ exists l,
       requests (trace (snd (upload_single_episode w config episode_dir
                               existing s)))
       = requests (trace s) ++ l
       /\ (forall lg data audio image,
             In (Sent (CreateLesson lg data audio image)) l ->
             forall t, In t (values_of (lit "tags[]") data)
                       <-> t = year \/ In t defaults)
       /\ (forall lg id shelves tgs,
             In (Sent (PatchLesson lg id shelves tgs)) l ->
             shelves = Config.LINGQ_DEFAULT_SHELVES config
             /\ NoDup tgs
             /\ exists data audio image post,
                  l = Sent (CreateLesson lg data audio image)
                      :: Sent (PatchLesson lg id shelves tgs) :: post
                  /\ forall t, In t (values_of (lit "tags[]") data)
                               <-> In t tgs).
Proof.
  cbv zeta.
  assert (In_sent : forall given t,
             In t (given ++ filter (fun tag => negb (mem tag given))
                              (Config.LINGQ_DEFAULT_TAGS config))
             <-> In t given \/ In t (Config.LINGQ_DEFAULT_TAGS config)).
  { intros given t. rewrite in_app_iff, filter_In. split.
    - tauto.
    - intros [H|H]; [now left|].
      destruct (mem t given) eqn:M; [left; now apply mem_In|].
      right. split; [exact H|reflexivity]. }
  split; [|split].
  - intros t. rewrite lesson_fields_tags. apply In_sent.
  - intros Ht Hd. rewrite lesson_fields_tags.
    apply NoDup_app; [exact Ht|now apply NoDup_filter|].
    intros t Hin Hf. apply filter_In in Hf as [_ Hf].
    apply negb_true_iff in Hf. apply mem_In in Hin. congruence.
  - destruct (upload_single_episode_events episode_dir existing s)
      as (l & R & Hl).
    exists l. split; [exact R|].
    assert (Y : firstn 4 (firstn 10 episode_dir) = firstn 4 episode_dir)
      by (now rewrite firstn_firstn).
    rewrite Y in Hl. clear R.
    destruct (unique_from (Config.LINGQ_DEFAULT_TAGS config
                           ++ [firstn 4 episode_dir]) [] (NoDup_nil _))
      as [N I].
    fold (unique (Config.LINGQ_DEFAULT_TAGS config ++ [firstn 4 episode_dir]))
      in N, I.
    assert (Same : forall title0 text0 url status0 mp3 t,
               In t (values_of (lit "tags[]")
                       (lesson_fields config (Config.LINGQ_LANGUAGE_CODE config)
                          title0 text0 (Some (Config.LINGQ_COURSE_ID config))
                          status0 (Some 3%Z) [firstn 4 episode_dir]
                          (Some url) mp3 None None))
               <-> t = firstn 4 episode_dir
                   \/ In t (Config.LINGQ_DEFAULT_TAGS config)).
    { intros. rewrite lesson_fields_tags, In_sent. simpl. split.
      - intros [[H|[]]|H]; auto.
      - intros [H|H]; auto. }
    destruct Hl as [->|(title0 & text0 & url & status0 & mp3 & image0 & post
                        & -> & Hp)].
    { split; intros; contradiction. }
    split.
    + intros lg data audio image Hin.
      assert (Hd : data = lesson_fields config
                            (Config.LINGQ_LANGUAGE_CODE config) title0 text0
                            (Some (Config.LINGQ_COURSE_ID config)) status0
                            (Some 3%Z) [firstn 4 episode_dir] (Some url) mp3
                            None None).
      { destruct Hin as [[= _ <- _ _]|Hin]; [reflexivity|].
        exfalso. cbv zeta in Hp.
        destruct Hp as [->|[id [->| ->]]]; simpl in Hin;
          intuition discriminate. }
      subst data. apply Same.
    + intros lg id shelves tgs Hin.
      destruct Hin as [Hin|Hin]; [discriminate|]. cbv zeta in Hp.
      assert (Hpatch : exists post',
                 post = Sent (PatchLesson lg id shelves tgs) :: post'
                 /\ lg = Config.LINGQ_LANGUAGE_CODE config
                 /\ shelves = Config.LINGQ_DEFAULT_SHELVES config
                 /\ tgs = unique (Config.LINGQ_DEFAULT_TAGS config
                                  ++ [firstn 4 episode_dir])).
      { destruct Hp as [->|[id0 [->| ->]]]; simpl in Hin.
        - contradiction.
        - destruct Hin as [[= <- <- <- <-]|[]]. eauto.
        - destruct Hin as [[= <- <- <- <-]|[[=]|[]]]. eauto. }
      destruct Hpatch as (post' & -> & -> & -> & ->).
      split; [reflexivity|]. split; [exact N|].
      do 3 eexists. exists post'. split; [reflexivity|].
      intros t. rewrite Same, I, in_app_iff. simpl.
      split; [intros [->|H]; auto|intros [[]|[H|[<-|[]]]]; auto].
Qed.

End LessonTags.

Section LessonTagsExamples.
Import Py Sys Spec Utils LingqApi Main Examples.

Lemma X29_lesson_tags_witness :
  exists data tgs,
    requests (trace (snd (upload_single_episode lesson_created cfg dir_0315 []
                            with_transcript)))
    = [Sent (CreateLesson (Config.LINGQ_LANGUAGE_CODE cfg) data None None);
       Sent (PatchLesson (Config.LINGQ_LANGUAGE_CODE cfg) (Json.Int 7)
               (Config.LINGQ_DEFAULT_SHELVES cfg) tgs)]
    /\ tgs = [lit "news"; lit "rfi"; lit "JFF"; lit "2024"]
    /\ NoDup tgs
    /\ forall t, In t (values_of (lit "tags[]") data) <-> In t tgs.
Proof.
  destruct (X29_lesson_tags lesson_created cfg [] [] [] None [] None [] None
              None None None dir_0315 [] with_transcript)
    as (_ & _ & l & R & _ & P).
  assert (E : exists data,
             requests (trace (snd (upload_single_episode lesson_created cfg
                                     dir_0315 [] with_transcript)))
             = [Sent (CreateLesson (Config.LINGQ_LANGUAGE_CODE cfg) data None
                        None);
                Sent (PatchLesson (Config.LINGQ_LANGUAGE_CODE cfg) (Json.Int 7)
                        (Config.LINGQ_DEFAULT_SHELVES cfg)
                        [lit "news"; lit "rfi"; lit "JFF"; lit "2024"])])
    by (eexists; vm_compute; reflexivity).
  destruct E as [data E]. rewrite E in R. cbn [with_transcript trace requests
    filter app] in R. subst l.
  destruct (P _ _ _ _ (or_intror (or_introl eq_refl)))
    as (_ & N & data' & audio & image & post & [= <- _ _ _] & Same).
  exists data, [lit "news"; lit "rfi"; lit "JFF"; lit "2024"].
  split; [exact E|]. split; [reflexivity|]. split; [exact N|exact Same].
Defined.

End LessonTagsExamples.

(* ===================================================================== *)
(** * Further properties: the request that creates a lesson *)
(* ===================================================================== *)

Section CreateRequest.
Import Py Sys Spec Utils LingqApi Main.

Variable w : world.
Variable config : Config.t.

(** The values of a key that only the five leading fields can carry. *)
Lemma lesson_fields_value key lang title text collection_pk status level tags
  original_url audio_file external_audio duration :
  Py.eqb (lit "shelves[]") key = false ->
  Py.eqb (lit "collection") key = false ->
  Py.eqb (lit "level") key = false ->
  Py.eqb (lit "tags[]") key = false ->
  Py.eqb (lit "original_url") key = false ->
  Py.eqb (lit "duration") key = false ->
  Py.eqb (lit "external_audio") key = false ->
  values_of key
    (lesson_fields config lang title text collection_pk status level tags
       original_url audio_file external_audio duration)
  = values_of key
      [ (lit "title", title); (lit "text", text); (lit "status", status);
        (lit "accent", lit "france_french"); (lit "language", lang) ].
Proof.
  intros K1 K2 K3 K4 K5 K6 K7. unfold lesson_fields.
  rewrite !values_of_app, !values_of_other by assumption.
  assert (One : forall k v, Py.eqb k key = false ->
                            values_of key [(k, v)] = []).
  { intros k v H. unfold values_of. cbn [filter fst]. now rewrite H. }
  assert (E1 : values_of key
                 match collection_pk with
                 | Some pk => if (pk =? 0)%Z then []
                              else [(lit "collection", str_of_Z pk)]
                 | None => []
                 end = []).
  { destruct collection_pk as [pk|]; [|reflexivity].
    destruct (pk =? 0)%Z; [reflexivity|now apply One]. }
  assert (E2 : values_of key
                 match level with
                 | Some l => [(lit "level", str_of_Z l)]
                 | None => []
                 end = [])
    by (destruct level; [now apply One|reflexivity]).
  assert (E3 : values_of key
                 (if truthy original_url
                  then [(lit "original_url", or_empty original_url)]
                  else []) = [])
    by (destruct (truthy original_url); [now apply One|reflexivity]).
  assert (E4 : values_of key
                 match duration with
                 | Some d => if (d =? 0)%Z then []
                             else [(lit "duration", str_of_Z d)]
                 | None => []
                 end = []).
  { destruct duration as [d|]; [|reflexivity].
    destruct (d =? 0)%Z; [reflexivity|now apply One]. }
  assert (E5 : values_of key
                 match audio_file with
                 | Some _ => []
                 | None => if truthy external_audio
                           then [(lit "external_audio", or_empty external_audio)]
                           else []
                 end = []).
  { destruct audio_file; [reflexivity|].
    destruct (truthy external_audio); [now apply One|reflexivity]. }
  rewrite E1, E2, E3, E4, E5. now rewrite !app_nil_r.
Qed.

Lemma find_mp3_run dir s es :
  lookup_node dir (fs s) = Some (Dir es) ->
  find_mp3 dir s = (Ok (find is_mp3 (map fst es)), s).
Proof. intros H. unfold find_mp3, iterdir, bind, ret. now rewrite H. Qed.

(** X30: the request that creates the lesson of an uploadable
    directory.  It carries the title made of the first ten characters of
    the directory name, the transcript as it reads from disk, stripped,
    the first audio file of the directory and [image.jpg] when they
    exist, and the status [shared] exactly when both are attached,
    [private] otherwise. *)
Theorem X30_upload_create_request (episode_dir : str) (existing : mapping)
  (s : state) (t : str) (es : list (str * file)) :
  uploadable episode_dir existing (fs s) ->
  lookup_file episode_dir transcript_txt (fs s) = Some (Text t) ->
  lookup_node episode_dir (fs s) = Some (Dir es) ->
  let audio := find is_mp3 (map fst es) in
  let image := if dict_mem Py.eqb image_jpg es then Some image_jpg else None in
  exists data post,
    requests (trace (snd (upload_single_episode w config episode_dir existing s)))
    = requests (trace s)
      ++ Sent (CreateLesson (Config.LINGQ_LANGUAGE_CODE config) data audio image)
         :: post
    /\ values_of (lit "title") data = [title_of episode_dir]
    /\ values_of (lit "text") data = [strip (universal_newlines t)]
    /\ values_of (lit "status") data
       = [match audio, image with
          | Some _, Some _ => lit "shared"
          | _, _ => lit "private"
          end].
Proof.
  intros (_ & He & Ex) Lt Hn. cbv zeta.
  unfold upload_single_episode. mrun.
  set (s0 := {| fs := fs s;
                trace := trace s ++ [Printed (Process episode_dir)] |}).
  assert (R0 : requests (trace s0) = requests (trace s)).
  { unfold s0. cbn [trace]. rewrite requests_app. apply app_nil_r. }
  rewrite Lt. mrun.
  destruct (parse_episode_meta_ok episode_dir s0 He) as [meta ->].
  rewrite (read_text_ok _ _ _ s0 Lt).
  change (title_prefix ++ firstn 10 episode_dir) with (title_of episode_dir).
  rewrite Ex. rewrite (find_mp3_run episode_dir s0 es Hn).
  change (fs s0) with (fs s). unfold lookup_file. rewrite Hn.
  change (match dict_get Py.eqb image_jpg es with
          | Some _ => true
          | None => false
          end) with (dict_mem Py.eqb image_jpg es).
  match goal with
  | |- context [create_and_finish w config ?a ?b ?c ?d ?e ?f ?g ?h s0] =>
      destruct (create_and_finish_shape w config a b c d e f g h s0)
        as (l & Rl & _ & Nl & Hd);
      destruct (create_and_finish w config a b c d e f g h s0) as [r4 s4]
  end.
  cbn [snd] in Rl.
  destruct l as [|e post].
  { exfalso. destruct (Nl eq_refl) as (name & [Hm|Hi] & Hnone).
    - change (fs s0) with (fs s) in Hnone. unfold lookup_file in Hnone.
      rewrite Hn in Hnone. exact (find_is_listed is_mp3 es name Hm Hnone).
    - change (fs s0) with (fs s) in Hnone. unfold lookup_file in Hnone.
      rewrite Hn in Hnone. unfold dict_mem in Hi.
      destruct (dict_get Py.eqb image_jpg es) eqn:G; [|discriminate].
      injection Hi as <-. congruence. }
  rewrite (Hd e post eq_refl) in Rl.
  eexists. exists post. split; [|split; [|split]].
  - destruct r4 as [b|e4|]; cbn [snd]; try (rewrite Rl, R0; reflexivity).
    destruct (is_Exception e4); cbn [snd trace];
      rewrite ?requests_app, Rl, R0; simpl; now rewrite ?app_nil_r.
  - now rewrite lesson_fields_value.
  - now rewrite lesson_fields_value.
  - now rewrite lesson_fields_value.
Qed.

End CreateRequest.

Section CreateRequestExamples.
Import Py Sys Spec Utils LingqApi Main Examples.

Lemma X30_upload_create_request_witness :
  let es := [(transcript_txt, Text (lit "Vendredi."));
             (episode_txt, Text meta_0315)] in
  let audio := find is_mp3 (map fst es) in
  let image := if dict_mem Py.eqb image_jpg es then Some image_jpg else None in
  exists data post,
    requests (trace (snd (upload_single_episode offline cfg
                            (lit "2024-03-15-journal") [] three_days)))
    = requests (trace three_days)
      ++ Sent (CreateLesson (Config.LINGQ_LANGUAGE_CODE cfg) data audio image)
         :: post
    /\ values_of (lit "title") data = [title_of (lit "2024-03-15-journal")]
    /\ values_of (lit "text") data
       = [strip (universal_newlines (lit "Vendredi."))]
    /\ values_of (lit "status") data
       = [match audio, image with
          | Some _, Some _ => lit "shared"
          | _, _ => lit "private"
          end].
Proof.
  apply (X30_upload_create_request offline cfg (lit "2024-03-15-journal") []
           three_days (lit "Vendredi.")
           [(transcript_txt, Text (lit "Vendredi."));
            (episode_txt, Text meta_0315)]).
  - split; [eexists; reflexivity|].
    split; [intros data; vm_compute; discriminate|reflexivity].
  - reflexivity.
  - reflexivity.
Defined.

End CreateRequestExamples.
